(** * packager/signer/signer.go: a shallow embedding and its properties

    The signer is an HTTP handler: it fetches a document from an upstream
    origin, decides whether to package it, and either writes a signed
    exchange or proxies the upstream response unsigned.

    Go strings and byte slices are byte sequences: they are [string] here
    (a list of 8-bit [ascii]).  [http.Header] is a [gmap] from the stored key
    to the list of values.  The handler's effects on its [http.ResponseWriter]
    are explicit state passing.  Packages the handler calls but that live
    elsewhere (the transformer, the signed-exchange library, URL parsing, the
    network) are the fields of one record of collaborators. *)

From Stdlib Require Import ZArith NArith Ascii String List Bool Lia DecimalString.
From stdpp Require Import base option list gmap strings.

Local Open Scope string_scope.
Local Open Scope list_scope.

(** ** Go's [strings] package, as far as the signer uses it *)

Definition byteOf (n : N) : ascii := ascii_of_N n.

Fixpoint bytes (l : list N) : string :=
  match l with
  | [] => ""
  | n :: r => String (byteOf n) (bytes r)
  end.

Fixpoint rev_string (acc s : string) : string :=
  match s with
  | "" => acc
  | String c r => rev_string (String c acc) r
  end.

Definition reverse_string (s : string) : string := rev_string "" s.

(** [strings.Contains(s, string(c))] for a single byte. *)
Fixpoint ContainsByte (c : ascii) (s : string) : bool :=
  match s with
  | "" => false
  | String d r => Ascii.eqb d c || ContainsByte c r
  end.

(** [strings.Split(s, sep)] for a one-byte separator, the only way the signer
    calls it.  The result is never empty: [Split "" sep = [""]]. *)
Fixpoint Split (s : string) (sep : ascii) : list string :=
  match s with
  | "" => [""]
  | String c r =>
      if Ascii.eqb c sep then "" :: Split r sep
      else match Split r sep with
           | t :: ts => String c t :: ts
           | [] => [String c ""]
           end
  end.

(** [strings.Join(elems, sep)]. *)
Fixpoint Join (elems : list string) (sep : string) : string :=
  match elems with
  | [] => ""
  | [e] => e
  | e :: r => e +:+ sep +:+ Join r sep
  end.

(** [strings.CutPrefix]: the rest of [s] after the prefix [p], if [s] starts
    with it. *)
Fixpoint CutPrefix (p s : string) : option string :=
  match p with
  | "" => Some s
  | String a p' =>
      match s with
      | String b s' => if Ascii.eqb a b then CutPrefix p' s' else None
      | "" => None
      end
  end.

(** The UTF-8 encodings of the code points for which [unicode.IsSpace]
    holds: U+0009..U+000D, U+0020, U+0085, U+00A0, U+1680, U+2000..U+200A,
    U+2028, U+2029, U+202F, U+205F, U+3000.  Go decodes a string rune by
    rune; a rune is white space exactly when its bytes are one of these
    sequences (over-long encodings are rejected by the decoder), and no
    sequence starts with a continuation byte, so looking for them byte by
    byte finds the same runes as decoding does. *)
Definition whiteSpace : list string :=
  map bytes
    [ [9]; [10]; [11]; [12]; [13]; [32];
      [194; 133]; [194; 160];
      [225; 154; 128];
      [226; 128; 128]; [226; 128; 129]; [226; 128; 130]; [226; 128; 131];
      [226; 128; 132]; [226; 128; 133]; [226; 128; 134]; [226; 128; 135];
      [226; 128; 136]; [226; 128; 137]; [226; 128; 138];
      [226; 128; 168]; [226; 128; 169]; [226; 128; 175];
      [226; 129; 159];
      [227; 128; 128] ]%N.

(** The rest of [s] after one of the sequences [pats] at its start. *)
Fixpoint cutAny (pats : list string) (s : string) : option string :=
  match pats with
  | [] => None
  | p :: ps =>
      match CutPrefix p s with
      | Some r => Some r
      | None => cutAny ps s
      end
  end.

(** One white-space rune at the start of [s]. *)
Definition leadingSpace (s : string) : option string := cutAny whiteSpace s.

(** One white-space rune at the end of [s]; the argument and the result are
    reversed strings. *)
Definition trailingSpaceRev (s : string) : option string :=
  cutAny (map reverse_string whiteSpace) s.

Fixpoint trimWith (cut : string -> option string) (fuel : nat) (s : string) : string :=
  match fuel with
  | O => s
  | S f =>
      match cut s with
      | Some r => trimWith cut f r
      | None => s
      end
  end.

(** [strings.TrimLeftFunc(s, unicode.IsSpace)]. *)
Definition TrimLeftSpace (s : string) : string :=
  trimWith leadingSpace (String.length s) s.

(** [strings.TrimRightFunc(s, unicode.IsSpace)]. *)
Definition TrimRightSpace (s : string) : string :=
  reverse_string
    (trimWith trailingSpaceRev (String.length s) (reverse_string s)).

(** [strings.TrimSpace]: leading then trailing white space removed. *)
Definition TrimSpace (s : string) : string := TrimRightSpace (TrimLeftSpace s).

(** [strings.Fields]: the maximal runs of non-space runes.  [cur] is the
    field being read, reversed. *)
Fixpoint fieldsLoop (fuel : nat) (s cur : string) : list string :=
  let flush (rest : list string) :=
    match cur with
    | "" => rest
    | _ => reverse_string cur :: rest
    end in
  match fuel with
  | O => flush []
  | S f =>
      match leadingSpace s with
      | Some r => flush (fieldsLoop f r "")
      | None =>
          match s with
          | "" => flush []
          | String c r => fieldsLoop f r (String c cur)
          end
      end
  end.

Definition Fields (s : string) : list string :=
  fieldsLoop (S (String.length s)) s "".

Definition isUpperByte (c : ascii) : bool :=
  (65 <=? N_of_ascii c)%N && (N_of_ascii c <=? 90)%N.

Definition isLowerByte (c : ascii) : bool :=
  (97 <=? N_of_ascii c)%N && (N_of_ascii c <=? 122)%N.

Definition lowerByte (c : ascii) : ascii :=
  if isUpperByte c then ascii_of_N (N_of_ascii c + 32) else c.

Definition upperByte (c : ascii) : ascii :=
  if isLowerByte c then ascii_of_N (N_of_ascii c - 32) else c.

Fixpoint map_string (f : ascii -> ascii) (s : string) : string :=
  match s with
  | "" => ""
  | String c r => String (f c) (map_string f r)
  end.

Fixpoint forall_string (f : ascii -> bool) (s : string) : bool :=
  match s with
  | "" => true
  | String c r => f c && forall_string f r
  end.

(** Every byte is below [utf8.RuneSelf]. *)
Definition isASCII (s : string) : bool :=
  forall_string (fun c => (N_of_ascii c <? 128)%N) s.

Section ToLower.
(** [strings.Map(unicode.ToLower, s)], the path [strings.ToLower] takes for
    a string with a byte outside ASCII; it depends on Unicode's case
    tables and is left open. *)
Variable mapUnicodeToLower : string -> string.

(** [strings.ToLower]. *)
Definition ToLower (s : string) : string :=
  if isASCII s then map_string lowerByte s else mapUnicodeToLower s.
End ToLower.

(** ** Content-Security-Policy rewriting *)

Definition preservedDirectives : list string :=
  [ "base-uri"; "block-all-mixed-content"; "font-src"; "form-action";
    "manifest-src"; "referrer"; "upgrade-insecure-requests" ].

Definition fixedDirectives : list string :=
  [ "default-src * blob: data:";
    "report-uri https://csp.withgoogle.com/csp/amp";
    "script-src blob: https://cdn.ampproject.org/rtv/ " +:+
      "https://cdn.ampproject.org/v0.js " +:+
      "https://cdn.ampproject.org/v0/ " +:+
      "https://cdn.ampproject.org/lts/ " +:+
      "https://cdn.ampproject.org/viewer/";
    "style-src 'unsafe-inline' https://cdn.materialdesignicons.com " +:+
      "https://cloud.typography.com https://fast.fonts.net " +:+
      "https://fonts.googleapis.com https://maxcdn.bootstrapcdn.com " +:+
      "https://p.typekit.net https://pro.fontawesome.com " +:+
      "https://use.fontawesome.com https://use.typekit.net";
    "object-src 'none'" ].

(** The string literal the source appends after the loop. *)
Definition cspSuffix : string :=
  "default-src * blob: data:;" +:+
  "report-uri https://csp.withgoogle.com/csp/amp;" +:+
  "script-src blob: https://cdn.ampproject.org/rtv/ " +:+
  "https://cdn.ampproject.org/v0.js " +:+
  "https://cdn.ampproject.org/v0/ " +:+
  "https://cdn.ampproject.org/lts/ " +:+
  "https://cdn.ampproject.org/viewer/;" +:+
  "style-src 'unsafe-inline' https://cdn.materialdesignicons.com " +:+
  "https://cloud.typography.com https://fast.fonts.net " +:+
  "https://fonts.googleapis.com https://maxcdn.bootstrapcdn.com " +:+
  "https://p.typekit.net https://pro.fontawesome.com " +:+
  "https://use.fontawesome.com https://use.typekit.net;" +:+
  "object-src 'none'".

Definition inList (x : string) (l : list string) : bool :=
  existsb (String.eqb x) l.

Section CSP.
Variable mapUnicodeToLower : string -> string.

(** The lower-cased first field of a directive token, as the loop body
    computes it; [None] when the token has no field. *)
Definition directiveName (directiveToken : string) : option string :=
  match Fields (TrimSpace directiveToken) with
  | [] => None
  | part :: _ => Some (ToLower mapUnicodeToLower part)
  end.

(** One iteration of the loop over the directive tokens. *)
Definition cspStep (newCsp directiveToken : string) : string :=
  let trimmed := TrimSpace directiveToken in
  let directiveParts := Fields trimmed in
  match directiveParts with
  | [] => newCsp
  | part :: _ =>
      let directiveName := ToLower mapUnicodeToLower part in
      if inList directiveName preservedDirectives
      then (newCsp +:+ trimmed) +:+ ";"
      else newCsp
  end.

Definition MutateFetchedContentSecurityPolicy (fetched : string) : string :=
  let directiveTokens := Split fetched ";" in
  let newCsp := fold_left cspStep directiveTokens "" in
  newCsp +:+ cspSuffix.
End CSP.


(** ** HTTP headers *)

(** Go's [http.Header] is [map[string][]string]; the methods [Add], [Set],
    [Get] and [Del] canonicalise the key they are given, indexing the map
    directly does not. *)
Abbreviation Header := (gmap string (list string)).

Definition isDigitByte (c : ascii) : bool :=
  (48 <=? N_of_ascii c)%N && (N_of_ascii c <=? 57)%N.

(** [textproto.validHeaderFieldByte]: the token characters of RFC 7230. *)
Definition validHeaderFieldByte (c : ascii) : bool :=
  isDigitByte c || isUpperByte c || isLowerByte c ||
  ContainsByte c "!#$%&'*+-.^_`|~".

(** The second loop of [textproto.canonicalMIMEHeaderKey]: the first letter
    and every letter after a dash in upper case, the others in lower case. *)
Fixpoint canonicalLoop (upper : bool) (a : string) : string :=
  match a with
  | "" => ""
  | String c r =>
      let c' := if upper then upperByte c else lowerByte c in
      String c' (canonicalLoop (Ascii.eqb c' "-") r)
  end.

(** [http.CanonicalHeaderKey]: a key with a byte that is not a token
    character is returned unchanged. *)
Definition CanonicalHeaderKey (s : string) : string :=
  if forall_string validHeaderFieldByte s then canonicalLoop true s else s.

Definition Header_Add (h : Header) (key value : string) : Header :=
  let k := CanonicalHeaderKey key in
  <[k := default [] (h !! k) ++ [value]]> h.

Definition Header_Set (h : Header) (key value : string) : Header :=
  <[CanonicalHeaderKey key := [value]]> h.

Definition Header_Get (h : Header) (key : string) : string :=
  match h !! CanonicalHeaderKey key with
  | Some (v :: _) => v
  | _ => ""
  end.

Definition Header_Del (h : Header) (key : string) : Header :=
  delete (CanonicalHeaderKey key) h.

(** The keys of the map [statefulResponseHeaders]; every value is [true].
    The loops that range over this map and the next are folds over these
    lists; their results do not depend on the order of the keys. *)
Definition statefulResponseHeaders : list string :=
  [ "Authentication-Control";
    "Authentication-Info";
    "Clear-Site-Data";
    "Optional-WWW-Authenticate";
    "Proxy-Authenticate";
    "Proxy-Authentication-Info";
    "Public-Key-Pins";
    "Sec-WebSocket-Accept";
    "Set-Cookie";
    "Set-Cookie2";
    "SetProfile";
    "Strict-Transport-Security";
    "WWW-Authenticate" ].

(** The keys of the map [statusNotModifiedHeaders]. *)
Definition statusNotModifiedHeaders : list string :=
  [ "Cache-Control";
    "Content-Location";
    "Date";
    "ETag";
    "Expires";
    "Vary" ].

Definition miRecordSize : Z := Z.shiftl 16 10.

(** Gets all values of the named header, joined on comma. *)
Definition GetJoined (h : Header) (name : string) : string :=
  match h !! CanonicalHeaderKey name with
  | Some values =>
      if String.eqb (CanonicalHeaderKey name) "Set-Cookie" &&
         (0 <? length values)%nat
      then match values with v :: _ => v | [] => "" end
      else Join values ", "
  | None => ""
  end.

(** ** Data the handler works on *)

Inductive result (A : Type) : Type :=
  | Ok (a : A)
  | Err (msg : string).
Arguments Ok {A} a.
Arguments Err {A} msg.

(** The fields of [url.URL]. *)
Record URL := {
  Scheme : string;
  Opaque : string;
  User : string;
  Host : string;
  Path : string;
  RawPath : string;
  ForceQuery : bool;
  RawQuery : string;
  Fragment : string }.

Definition withRawQuery (u : URL) (q : string) : URL :=
  {| Scheme := Scheme u; Opaque := Opaque u; User := User u; Host := Host u;
     Path := Path u; RawPath := RawPath u; ForceQuery := ForceQuery u;
     RawQuery := q; Fragment := Fragment u |}.

(** An [io.Reader] over an upstream body: the bytes not read yet, and
    whether the stream ends in a read error instead of [io.EOF]. *)
Record Reader := {
  unread : string;
  readErr : bool }.

(** The upstream [http.Response]. *)
Record Response := {
  StatusCode : Z;
  RespHeader : Header;
  Body : Reader }.

(** The inbound [http.Request]: its headers, the outcome of [ParseForm]
    ([None] when it fails) and the routing parameters [mux.Params]. *)
Record Request := {
  ReqHeader : Header;
  ReqHost : string;
  Proto : string;
  ParsedForm : option (gmap string (list string));
  Params : gmap string string }.

(** [transformer/request]: the messages exchanged with the transformer.
    Of the HTML formats the signer names [Request_AMP] only. *)
Inductive Request_HtmlFormat :=
  | Request_AMP.

Record rpb_Request := {
  Html : string;
  DocumentUrl : string;
  Rtv : string;
  Css : string;
  AllowedFormats : list Request_HtmlFormat;
  Version : Z }.

Record Metadata_Preload_Attribute := {
  Key : string;
  Val : string }.

Record Metadata_Preload := {
  Url : string;
  As : string;
  Attributes : list Metadata_Preload_Attribute }.

(** [MaxAgeSecs] is a protobuf [int32]; its range is [int32] below. *)
Record Metadata := {
  Preloads : list Metadata_Preload;
  MaxAgeSecs : Z }.

Definition int32 (x : Z) : Prop := (- 2 ^ 31 <= x < 2 ^ 31)%Z.

Record SXGParams := {
  signURL : URL;
  ampCacheTransformHeader : string;
  transformVersion : Z }.

Record consumedFetchResp := {
  body : string;
  cStatusCode : Z;
  cHeader : Header }.

(** [signedexchange.Signer]; times are nanoseconds since the epoch, the
    certificate and the key are their encoded bytes. *)
Record sx_Signer := {
  Date : Z;
  Expires : Z;
  Certs : list string;
  CertUrl : URL;
  ValidityUrl : URL;
  PrivKey : string }.

(** [signedexchange.Exchange].  The signature header is kept as the signer
    it was computed with. *)
Record Exchange := {
  ExVersion : string;
  RequestURI : string;
  RequestMethod : string;
  RequestHeaders : Header;
  ResponseStatus : Z;
  ResponseHeaders : Header;
  Payload : string;
  Signature : option sx_Signer }.

(** What was written to the client: raw bytes, or the serialization of an
    exchange ([exchange.Write]), kept symbolic. *)
Inductive Chunk :=
  | Raw (b : string)
  | SXG (e : Exchange).

Inductive DocStatus := signed | proxied_unsigned.

(** The [http.ResponseWriter] the handler writes to, with the counter
    [promDocumentsSignedVsUnsigned]: the header map, the status line and
    header snapshot once [WriteHeader] has run, the body chunks in the order
    written, and the labels the counter was incremented with. *)
Record ResponseWriter := {
  rw_header : Header;
  rw_sent : option (Z * Header);
  rw_body : list Chunk;
  rw_documents : list DocStatus }.

Definition newResponseWriter : ResponseWriter :=
  {| rw_header := ∅; rw_sent := None; rw_body := []; rw_documents := [] |}.

Definition withHeader (resp : ResponseWriter) (h : Header) : ResponseWriter :=
  {| rw_header := h; rw_sent := rw_sent resp; rw_body := rw_body resp;
     rw_documents := rw_documents resp |}.

(** [resp.WriteHeader]: the first call sends the status line with the
    headers as they are; later calls are ignored. *)
Definition WriteHeader (resp : ResponseWriter) (statusCode : Z) : ResponseWriter :=
  match rw_sent resp with
  | Some _ => resp
  | None =>
      {| rw_header := rw_header resp;
         rw_sent := Some (statusCode, rw_header resp);
         rw_body := rw_body resp;
         rw_documents := rw_documents resp |}
  end.

(** [resp.Write]: sends [200] first when no status was sent. *)
Definition WriteChunk (resp : ResponseWriter) (c : Chunk) : ResponseWriter :=
  let resp := WriteHeader resp 200 in
  {| rw_header := rw_header resp; rw_sent := rw_sent resp;
     rw_body := rw_body resp ++ [c];
     rw_documents := rw_documents resp |}.

Definition Write (resp : ResponseWriter) (b : string) : ResponseWriter :=
  WriteChunk resp (Raw b).

Definition Inc (resp : ResponseWriter) (label : DocStatus) : ResponseWriter :=
  {| rw_header := rw_header resp; rw_sent := rw_sent resp;
     rw_body := rw_body resp;
     rw_documents := rw_documents resp ++ [label] |}.

(** The raw bytes of a body; [None] when an exchange was written. *)
Fixpoint bodyBytes (cs : list Chunk) : option string :=
  match cs with
  | [] => Some ""
  | Raw b :: r => option_map (String.append b) (bodyBytes r)
  | SXG _ :: _ => None
  end.

Record HTTPError := {
  InternalMsg : string;
  ExternalMsg : string;
  ErrStatusCode : Z }.

(** Modelled from the spec: [util.NewHTTPError] and [LogAndRespond] belong
    to packager/util, outside signer.go.  Section 7 has an error reported as
    a logged response with the error's status code; the text sent is left as
    the error's external message. *)
Definition NewHTTPError (statusCode : Z) (msg : string) : HTTPError :=
  {| InternalMsg := msg; ExternalMsg := msg; ErrStatusCode := statusCode |}.

Definition LogAndRespond (e : HTTPError) (resp : ResponseWriter) : ResponseWriter :=
  Write (WriteHeader resp (ErrStatusCode e)) (ExternalMsg e).

Definition StatusBadRequest : Z := 400.
Definition StatusBadGateway : Z := 502.
Definition StatusInternalServerError : Z := 500.
Definition StatusNotModified : Z := 304.

(** Modelled from the spec: the constants [accept.SxgVersion],
    [accept.SxgContentType], [util.CertURLPrefix] and [util.ValidityMapPath]
    are declared outside signer.go; sections 4.7 and 8 give their values. *)
Definition SxgVersion : string := "b3".
Definition SxgContentType : string := "application/signed-exchange;v=b3".
Definition CertURLPrefix : string := "/amppkg/cert".
Definition ValidityMapPath : string := "/amppkg/validity".

(** ** Collaborators *)

(** The signer's fields and the functions of other packages, each with the
    result it gives. *)
Record Signer := {
  (* fields of the struct *)
  certHandler_GetLatestCert : string;
  key : string;
  rtvCache_GetRTV : string;
  rtvCache_GetCSS : string;
  shouldPackage : option string;
  overrideBaseURL : option URL;
  requireHeaders : bool;
  forwardedRequestHeaders : list string;
  (* the HTTP client: [this.client.Do] *)
  client_Do : Request -> result Response;
  (* this package, other files *)
  parseURLs : string -> string -> HTTPError + (URL * URL * bool);
  validateFetch : Request -> Response -> option string;
  (* other packages of the repository *)
  ShouldSendSXG : string -> string * Z;
  SelectVersion : result Z;
  CanSatisfy : string -> bool;
  transformer_Process : rpb_Request -> result (string * Metadata);
  util_QuotedString : string -> result string;
  util_CertName : string -> string;
  util_RemoveHopByHopHeaders : Header -> Header;
  (* Go's library *)
  http_NewRequest : string -> string -> result Request;
  strings_mapUnicodeToLower : string -> string;
  url_Parse : string -> result URL;
  url_PathEscape : string -> string;
  URL_String : URL -> string;
  URL_ResolveReference : URL -> URL -> URL;
  path_Join : string -> string -> string;
  time_Now : Z;
  (* the signed-exchange library *)
  mice_Encode : Exchange -> Z -> result (string * string);
  sign_error : sx_Signer -> Exchange -> option string;
  write_error : Exchange -> option string }.

(** ** The handler *)

Definition maxSignableBodyLength : Z := Z.shiftl (4 * 1) 20.

Fixpoint take_string (n : nat) (s : string) : string :=
  match n, s with
  | S k, String c r => String c (take_string k r)
  | _, _ => ""
  end.

Fixpoint drop_string (n : nat) (s : string) : string :=
  match n, s with
  | S k, String _ r => drop_string k r
  | _, _ => s
  end.

(** [ioutil.ReadAll(io.LimitReader(r, n))]: the bytes read, whether reading
    failed, and the reader afterwards.  A stream with [n] bytes or more gives
    its first [n] bytes and no error: the limit is reached before the end. *)
Definition ReadAllLimited (r : Reader) (n : Z) : string * bool * Reader :=
  if (n <=? Z.of_nat (String.length (unread r)))%Z
  then (take_string (Z.to_nat n) (unread r), false,
        {| unread := drop_string (Z.to_nat n) (unread r); readErr := readErr r |})
  else (unread r, readErr r, {| unread := ""; readErr := readErr r |}).

(** [io.Copy(resp, r)]: what is left of the stream is written; the result is
    the number of bytes copied and whether the stream ended in an error. *)
Definition io_Copy (resp : ResponseWriter) (r : Reader) : ResponseWriter * Z * bool :=
  let resp' := match unread r with
               | "" => resp
               | b => Write resp b
               end in
  (resp', Z.of_nat (String.length (unread r)), readErr r).

(** Proxy the content unsigned. The body may be already partially or fully
    consumed. *)
Definition proxyImpl (resp : ResponseWriter) (header : Header) (statusCode : Z)
    (consumedPrefix : option string) (unconsumedSuffix : option Reader) : ResponseWriter :=
  let resp := withHeader resp (header ∪ rw_header resp) in
  let resp := WriteHeader resp statusCode in
  let resp := match consumedPrefix with
              | Some b => Write resp b
              | None => resp
              end in
  let resp :=
    match unconsumedSuffix with
    | Some r =>
        let '(resp', bytesCopied, err) := io_Copy resp r in
        if err then
          if (bytesCopied =? 0)%Z
          then LogAndRespond (NewHTTPError StatusInternalServerError "Error copying response body") resp'
          else resp'
        else resp'
    | None => resp
    end in
  Inc resp proxied_unsigned.

Definition proxyUnconsumed (resp : ResponseWriter) (fetchResp : Response) : ResponseWriter :=
  proxyImpl resp (RespHeader fetchResp) (StatusCode fetchResp) None (Some (Body fetchResp)).

Definition proxyPartiallyConsumed (resp : ResponseWriter) (fetchResp : Response)
    (consumedBodyPrefix : string) : ResponseWriter :=
  proxyImpl resp (RespHeader fetchResp) (StatusCode fetchResp)
    (Some consumedBodyPrefix) (Some (Body fetchResp)).

Definition proxyConsumed (resp : ResponseWriter) (fetchResp : consumedFetchResp) : ResponseWriter :=
  proxyImpl resp (cHeader fetchResp) (cStatusCode fetchResp) (Some (body fetchResp)) None.

(** The user agent to send when issuing fetches. *)
Definition userAgent : string :=
  "Mozilla/5.0 (Linux; Android 6.0.1; Nexus 5X Build/MMB29P) " +:+
  "AppleWebKit/537.36 (KHTML, like Gecko) Chrome/41.0.2272.96 Mobile " +:+
  "Safari/537.36 (compatible; amppackager/0.0.0; +https://github.com/ampproject/amppackager)".

(** [protocol.MatchString]: one or more token characters or slashes. *)
Definition protocolMatch (s : string) : bool :=
  negb (String.eqb s "") &&
  forall_string (fun c => validHeaderFieldByte c || Ascii.eqb c "/") s.

(** [strings.TrimPrefix]. *)
Definition TrimPrefix (s p : string) : string :=
  match CutPrefix p s with
  | Some r => r
  | None => s
  end.

(** Modelled from the spec: the keys of [util.ConditionalRequestHeaders],
    a table of packager/util, as section 4.3 lists them. *)
Definition ConditionalRequestHeaders : list string :=
  [ "If-Match"; "If-None-Match"; "If-Modified-Since"; "If-Unmodified-Since"; "If-Range" ].

Definition withReqHeader (r : Request) (h : Header) : Request :=
  {| ReqHeader := h; ReqHost := ReqHost r; Proto := Proto r;
     ParsedForm := ParsedForm r; Params := Params r |}.

Definition withReqHost (r : Request) (host : string) : Request :=
  {| ReqHeader := ReqHeader r; ReqHost := host; Proto := Proto r;
     ParsedForm := ParsedForm r; Params := Params r |}.

Definition withRespHeader (f : Response) (h : Header) : Response :=
  {| StatusCode := StatusCode f; RespHeader := h; Body := Body f |}.

(** One step of the loop over [forwardedRequestHeaders]. *)
Definition forwardHeader (serveHTTPReq : Request) (req : Request) (header : string) : Request :=
  if String.eqb (CanonicalHeaderKey header) "Host"
  then withReqHost req (ReqHost serveHTTPReq)
  else
    let value := GetJoined (ReqHeader serveHTTPReq) header in
    if String.eqb value "" then req
    else withReqHeader req (Header_Set (ReqHeader req) header value).

(** One step of the loop over the conditional request headers. *)
Definition forwardConditional (serveHTTPReq : Request) (req : Request) (header : string) : Request :=
  let value := GetJoined (ReqHeader serveHTTPReq) header in
  if String.eqb value "" then req
  else withReqHeader req (Header_Set (ReqHeader req) header value).

Definition fetchURL (this : Signer) (fetch : URL) (serveHTTPReq : Request)
    : HTTPError + (Request * Response) :=
  let ampURL := URL_String this fetch in
  match http_NewRequest this "GET" ampURL with
  | Err _ => inl (NewHTTPError StatusInternalServerError "Error building request: ")
  | Ok req =>
  let req := withReqHeader req (Header_Set (ReqHeader req) "User-Agent" userAgent) in
  (* copy forwardedRequestHeaders *)
  let req := fold_left (forwardHeader serveHTTPReq) (forwardedRequestHeaders this) req in
  let req :=
    if protocolMatch (Proto serveHTTPReq) then
      let via := (TrimPrefix (Proto serveHTTPReq) "HTTP/" +:+ " ") +:+ "amppkg" in
      let upstreamVia := GetJoined (ReqHeader req) "Via" in
      let via := if String.eqb upstreamVia "" then via
                 else (upstreamVia +:+ ", ") +:+ via in
      withReqHeader req (Header_Set (ReqHeader req) "Via" via)
    else req in
  let req :=
    match util_QuotedString this (ReqHost serveHTTPReq) with
    | Ok quotedHost =>
        let req := withReqHeader req
                     (Header_Set (ReqHeader req) "Forwarded" ("host=" +:+ quotedHost)) in
        let xfh := ReqHost serveHTTPReq in
        let oldXFH := Header_Get (ReqHeader serveHTTPReq) "X-Forwarded-Host" in
        let xfh := if String.eqb oldXFH "" then xfh else (oldXFH +:+ ",") +:+ xfh in
        withReqHeader req (Header_Set (ReqHeader req) "X-Forwarded-Host" xfh)
    | Err _ => req
    end in
  (* Set conditional headers that were included in ServeHTTP's Request. *)
  let req := fold_left (forwardConditional serveHTTPReq) ConditionalRequestHeaders req in
  match client_Do this req with
  | Err _ => inl (NewHTTPError StatusBadGateway "Error fetching: ")
  | Ok resp =>
      inr (req, withRespHeader resp (util_RemoveHopByHopHeaders this (RespHeader resp)))
  end
  end.

(** [fetchURLAndMeasure]: the fetch; the two gateway metrics it feeds are
    not part of the state kept here. *)
Definition fetchURLAndMeasure (this : Signer) (fetch : URL) (serveHTTPReq : Request)
    : HTTPError + (Request * Response) :=
  fetchURL this fetch serveHTTPReq.

(** [strconv.Itoa]. *)
Definition Itoa (n : Z) : string := NilZero.string_of_int (Z.to_int n).

(** The inner loop of [formatLinkHeader] over the attributes of one preload:
    [None] when a value has no quoted-string form ([valid = false]). *)
Fixpoint formatAttributes (this : Signer) (attrs : list Metadata_Preload_Attribute)
    (value : string) : option string :=
  match attrs with
  | [] => Some value
  | attr :: r =>
      let value := ((value +:+ ";") +:+ Key attr) +:+ "=" in
      match util_QuotedString this (Val attr) with
      | Err _ => None
      | Ok quotedVal => formatAttributes this r (value +:+ quotedVal)
      end
  end.

(** The outer loop of [formatLinkHeader], with the slice [values] built so
    far. *)
Fixpoint formatLinkLoop (this : Signer) (preloads : list Metadata_Preload)
    (values : list string) : result (list string) :=
  match preloads with
  | [] => Ok values
  | preload :: r =>
      match url_Parse this (Url preload) with
      | Err _ => Err ("Invalid preload URL: " +:+ Url preload)
      | Ok u =>
          let u := withRawQuery u (url_PathEscape this (RawQuery u)) in
          if String.eqb (As preload) ""
          then Err ("Missing `as` attribute for preload URL: " +:+ Url preload)
          else
            let value := (("<" +:+ URL_String this u) +:+ ">;rel=preload;as=") +:+ As preload in
            match formatAttributes this (Attributes preload) value with
            | Some value => formatLinkLoop this r (values ++ [value])
            | None => formatLinkLoop this r values
            end
      end
  end.

(** The returned pair: the header value and the error, if any. *)
Definition formatLinkHeader (this : Signer) (preloads : list Metadata_Preload)
    : string * option string :=
  match formatLinkLoop this preloads [] with
  | Ok values => (Join values ",", None)
  | Err e => ("", Some e)
  end.

Definition genCertURL (this : Signer) (cert : string) (signURL : URL) : result URL :=
  let baseURL := match overrideBaseURL this with
                 | Some b => b
                 | None => signURL
                 end in
  let urlPath := path_Join this CertURLPrefix (url_PathEscape this (util_CertName this cert)) in
  match url_Parse this urlPath with
  | Err e => Err e
  | Ok certHRef => Ok (URL_ResolveReference this baseURL certHRef)
  end.

Definition getTransformerRequest (this : Signer) (s u : string) : rpb_Request :=
  {| Html := s; DocumentUrl := u; Rtv := rtvCache_GetRTV this;
     Css := rtvCache_GetCSS this; AllowedFormats := [Request_AMP]; Version := 0 |}.

Definition withVersion (r : rpb_Request) (v : Z) : rpb_Request :=
  {| Html := Html r; DocumentUrl := DocumentUrl r; Rtv := Rtv r; Css := Css r;
     AllowedFormats := AllowedFormats r; Version := v |}.

Definition withCHeader (f : consumedFetchResp) (h : Header) : consumedFetchResp :=
  {| body := body f; cStatusCode := cStatusCode f; cHeader := h |}.

Definition NewExchange (ver uri method : string) (requestHeaders : Header) (status : Z)
    (responseHeaders : Header) (payload : string) : Exchange :=
  {| ExVersion := ver; RequestURI := uri; RequestMethod := method;
     RequestHeaders := requestHeaders; ResponseStatus := status;
     ResponseHeaders := responseHeaders; Payload := payload; Signature := None |}.

(** [exchange.MiEncodePayload] of the signed-exchange library: the payload
    is replaced by its encoding, and the encoding and the digest are added
    to the response headers (section 4.7, step 6). *)
Definition MiEncodePayload (this : Signer) (e : Exchange) (recordSize : Z) : result Exchange :=
  match mice_Encode this e recordSize with
  | Err m => Err m
  | Ok (encoded, digest) =>
      Ok {| ExVersion := ExVersion e; RequestURI := RequestURI e;
            RequestMethod := RequestMethod e; RequestHeaders := RequestHeaders e;
            ResponseStatus := ResponseStatus e;
            ResponseHeaders :=
              Header_Add (Header_Add (ResponseHeaders e) "Content-Encoding" "mi-sha256-03")
                "Digest" digest;
            Payload := encoded; Signature := Signature e |}
  end.

(** [exchange.AddSignatureHeader]. *)
Definition AddSignatureHeader (this : Signer) (e : Exchange) (s : sx_Signer) : result Exchange :=
  match sign_error this s e with
  | Some m => Err m
  | None =>
      Ok {| ExVersion := ExVersion e; RequestURI := RequestURI e;
            RequestMethod := RequestMethod e; RequestHeaders := RequestHeaders e;
            ResponseStatus := ResponseStatus e; ResponseHeaders := ResponseHeaders e;
            Payload := Payload e; Signature := Some s |}
  end.

(** [time.Duration] is an [int64] of nanoseconds; its arithmetic wraps. *)
Definition wrap64 (x : Z) : Z := ((x + 2 ^ 63) mod 2 ^ 64 - 2 ^ 63)%Z.
Definition Second : Z := 1000000000.
Definition Hour : Z := 3600 * Second.

(** The validity window computed from the clock and the metadata: the
    signature's date and expiry. *)
Definition validityWindow (now : Z) (metadata : Metadata) : Z * Z :=
  let duration := (7 * 24 * Hour)%Z in
  let maxAge := wrap64 (MaxAgeSecs metadata * Second) in
  let duration := if (maxAge <? duration)%Z then maxAge else duration in
  let date := (now + (-24 * Hour))%Z in
  let expires := (date + duration)%Z in
  (date, expires).

(** The mutations of the fetched response's headers between the comment
    "Begin mutations on original fetch response" and the construction of the
    exchange. *)
Definition mutateFetchedHeader (this : Signer) (h : Header)
    (linkHeader transformed : string) : Header :=
  (* Remove stateful headers. *)
  let h := fold_left Header_Del statefulResponseHeaders h in
  (* Set Link header if formatting returned a valid value, otherwise, delete it. *)
  let h := if String.eqb linkHeader ""
           then Header_Del h "Link"
           else Header_Set h "Link" linkHeader in
  (* Set content length. *)
  let h := Header_Set h "Content-Length" (Itoa (Z.of_nat (String.length transformed))) in
  (* Set general security headers. *)
  let h := Header_Set h "X-Content-Type-Options" "nosniff" in
  (* Mutate the fetched CSP to make sure it cannot break AMP pages. *)
  Header_Set h "Content-Security-Policy"
    (MutateFetchedContentSecurityPolicy (strings_mapUnicodeToLower this)
       (Header_Get h "Content-Security-Policy")).

(** The [signedexchange.Signer] literal. *)
Definition newSigner (this : Signer) (params : SXGParams) (date expires : Z)
    (cert : string) (certURL validityHRef : URL) : sx_Signer :=
  {| Date := date; Expires := expires; Certs := [cert];
     CertUrl := certURL;
     ValidityUrl := URL_ResolveReference this (signURL params) validityHRef;
     PrivKey := key this |}.

(** The end of [serveSignedExchange]: the outer headers, the serialized
    exchange and the counter. *)
Definition writeSignedExchange (resp : ResponseWriter) (params : SXGParams)
    (exchange : Exchange) : ResponseWriter :=
  let resp := if String.eqb (ampCacheTransformHeader params) ""
              then resp
              else withHeader resp
                     (Header_Set (rw_header resp) "AMP-Cache-Transform"
                        (ampCacheTransformHeader params)) in
  let resp := withHeader resp (Header_Set (rw_header resp) "Content-Type" SxgContentType) in
  let resp := withHeader resp (Header_Set (rw_header resp) "Cache-Control" "no-transform, max-age=0") in
  let resp := withHeader resp (Header_Set (rw_header resp) "X-Content-Type-Options" "nosniff") in
  let resp := WriteChunk resp (SXG exchange) in
  Inc resp signed.

(** [serveSignedExchange] does the actual work of transforming, packaging,
    signing and writing to the response.  [fetchResp.Header] is a map, so
    the mutations made here (and by the exchange, which shares it) are seen
    by the later calls of [proxyConsumed]. *)
Definition serveSignedExchange (this : Signer) (resp : ResponseWriter)
    (fetchResp : consumedFetchResp) (params : SXGParams) : ResponseWriter :=
  let r := getTransformerRequest this (body fetchResp) (URL_String this (signURL params)) in
  let r := withVersion r (transformVersion params) in
  match transformer_Process this r with
  | Err _ => proxyConsumed resp fetchResp
  | Ok (transformed, metadata) =>
  match formatLinkHeader this (Preloads metadata) with
  | (_, Some _) => proxyConsumed resp fetchResp
  | (linkHeader, None) =>
  let fetchResp :=
    withCHeader fetchResp (mutateFetchedHeader this (cHeader fetchResp) linkHeader transformed) in
  let exchange := NewExchange SxgVersion (URL_String this (signURL params)) "GET"
                    ∅ (cStatusCode fetchResp) (cHeader fetchResp) transformed in
  match MiEncodePayload this exchange miRecordSize with
  | Err _ => proxyConsumed resp fetchResp
  | Ok exchange =>
  let fetchResp := withCHeader fetchResp (ResponseHeaders exchange) in
  let cert := certHandler_GetLatestCert this in
  match genCertURL this cert (signURL params) with
  | Err _ => proxyConsumed resp fetchResp
  | Ok certURL =>
  let now := time_Now this in
  match url_Parse this ValidityMapPath with
  | Err _ => proxyConsumed resp fetchResp
  | Ok validityHRef =>
  let '(date, expires) := validityWindow now metadata in
  if negb (now <? expires)%Z then proxyConsumed resp fetchResp
  else
  let signer := newSigner this params date expires cert certURL validityHRef in
  match AddSignatureHeader this exchange signer with
  | Err _ => proxyConsumed resp fetchResp
  | Ok exchange =>
  match write_error this exchange with
  | Some _ => proxyConsumed resp fetchResp
  | None => writeSignedExchange resp params exchange
  end end end end end end end.

Definition withBody (f : Response) (r : Reader) : Response :=
  {| StatusCode := StatusCode f; RespHeader := RespHeader f; Body := r |}.

Definition consumeAndSign (this : Signer) (resp : ResponseWriter) (fetchResp : Response)
    (params : SXGParams) : ResponseWriter :=
  let '(fetchBodyMaybeCapped, err, rest) := ReadAllLimited (Body fetchResp) maxSignableBodyLength in
  let fetchResp := withBody fetchResp rest in
  if err then
    LogAndRespond (NewHTTPError StatusBadGateway "Error reading body: ") resp
  else if (Z.of_nat (String.length fetchBodyMaybeCapped) =? maxSignableBodyLength)%Z then
    proxyPartiallyConsumed resp fetchResp fetchBodyMaybeCapped
  else
    serveSignedExchange this resp
      {| body := fetchBodyMaybeCapped; cStatusCode := StatusCode fetchResp;
         cHeader := RespHeader fetchResp |} params.

(** [req.FormValue] once the form is parsed. *)
Definition FormValue (form : gmap string (list string)) (k : string) : string :=
  match form !! k with
  | Some (v :: _) => v
  | _ => ""
  end.

Definition formLen (form : gmap string (list string)) (k : string) : nat :=
  length (default [] (form !! k)).

(** The [fetch] and [sign] parameters of a request, or the error replied. *)
Definition fetchAndSign (req : Request) (form : gmap string (list string))
    : HTTPError + (string * string) :=
  let params := Params req in
  let inPathSignURL := default "" (params !! "signURL") in
  if negb (String.eqb inPathSignURL "") then inr ("", inPathSignURL)
  else if (1 <? formLen form "fetch")%nat then
    inl (NewHTTPError StatusBadRequest "More than 1 fetch param")
  else if negb (formLen form "sign" =? 1)%nat then
    inl (NewHTTPError StatusBadRequest "Not exactly 1 sign param")
  else inr (FormValue form "fetch", FormValue form "sign").

(** Content negotiation: the [AMP-Cache-Transform] value to echo and the
    transform version, or [None] when the response is to be proxied. *)
Definition negotiate (this : Signer) (req : Request) : option (string * Z) :=
  let actv :=
    if requireHeaders this then
      let header_value := GetJoined (ReqHeader req) "AMP-Cache-Transform" in
      let '(act, transformVersion) := ShouldSendSXG this header_value in
      if String.eqb act "" then None else Some (act, transformVersion)
    else
      match SelectVersion this with
      | Err _ => None
      | Ok transformVersion => Some ("", transformVersion)
      end in
  match actv with
  | None => None
  | Some av =>
      if requireHeaders this && negb (CanSatisfy this (GetJoined (ReqHeader req) "Accept"))
      then None
      else Some av
  end.

(** The loop of the [304] case. *)
Definition copyNotModifiedHeader (fetched : Header) (h : Header) (header : string) : Header :=
  let value := GetJoined fetched header in
  if String.eqb value "" then h else Header_Set h header value.

Definition hasStatefulHeader (h : Header) : bool :=
  existsb (fun header => negb (String.eqb (GetJoined h header) "")) statefulResponseHeaders.

Definition hasVariants (h : Header) : bool :=
  negb (String.eqb (Header_Get h "Variants") "") ||
  negb (String.eqb (Header_Get h "Variant-Key") "") ||
  negb (String.eqb (Header_Get h "Variants-04") "") ||
  negb (String.eqb (Header_Get h "Variant-Key-04") "").

Definition ServeHTTP (this : Signer) (resp : ResponseWriter) (req : Request) : ResponseWriter :=
  let resp := withHeader resp (Header_Add (rw_header resp) "Vary" "Accept, AMP-Cache-Transform") in
  match ParsedForm req with
  | None => LogAndRespond (NewHTTPError StatusBadRequest "Form input parsing failed: ") resp
  | Some form =>
  match fetchAndSign req form with
  | inl httpErr => LogAndRespond httpErr resp
  | inr (fetch, sign) =>
  match parseURLs this fetch sign with
  | inl httpErr => LogAndRespond httpErr resp
  | inr (fetchURL, signURL, errorOnStatefulHeaders) =>
  match fetchURLAndMeasure this fetchURL req with
  | inl httpErr => LogAndRespond httpErr resp
  | inr (fetchReq, fetchResp) =>
  match shouldPackage this with
  | Some _ => proxyUnconsumed resp fetchResp
  | None =>
  match negotiate this req with
  | None => proxyUnconsumed resp fetchResp
  | Some (act, transformVersion) =>
  if (StatusCode fetchResp =? 200)%Z then
    match validateFetch this fetchReq fetchResp with
    | Some _ => proxyUnconsumed resp fetchResp
    | None =>
        if errorOnStatefulHeaders && hasStatefulHeader (RespHeader fetchResp)
        then proxyUnconsumed resp fetchResp
        else if hasVariants (RespHeader fetchResp)
        then proxyUnconsumed resp fetchResp
        else consumeAndSign this resp fetchResp
               {| signURL := signURL; ampCacheTransformHeader := act;
                  transformVersion := transformVersion |}
    end
  else if (StatusCode fetchResp =? 304)%Z then
    let h := fold_left (copyNotModifiedHeader (RespHeader fetchResp))
               statusNotModifiedHeaders (rw_header resp) in
    WriteHeader (withHeader resp h) StatusNotModified
  else proxyUnconsumed resp fetchResp
  end end end end end end.


(** ** Reading a policy as a list of directives *)

(** The suffix as section 6 of the specification prints it. *)
Definition cspSuffixOfSection6 : string :=
  "default-src * blob: data:;" +:+
  "report-uri https://csp.withgoogle.com/csp/amp;" +:+
  "script-src blob: https://cdn.ampproject.org/rtv/ " +:+
  "https://cdn.ampproject.org/v0.js " +:+
  "https://cdn.ampproject.org/v0/ https://cdn.ampproject.org/lts/ " +:+
  "https://cdn.ampproject.org/viewer/;" +:+
  "style-src 'unsafe-inline' https://cdn.materialdesignicons.com " +:+
  "https://cloud.typography.com https://fast.fonts.net " +:+
  "https://fonts.googleapis.com https://maxcdn.bootstrapcdn.com " +:+
  "https://p.typekit.net https://pro.fontawesome.com " +:+
  "https://use.fontawesome.com https://use.typekit.net;" +:+
  "object-src 'none'".


Definition fixedDirectiveNames : list string :=
  [ "default-src"; "report-uri"; "script-src"; "style-src"; "object-src" ].

(** Whether the loop keeps a directive token. *)
Definition isPreserved (low : string -> string) (directiveToken : string) : bool :=
  match directiveName low directiveToken with
  | Some name => inList name preservedDirectives
  | None => false
  end.

(** The directives the loop keeps, as written to the builder. *)
Definition keptDirectives (low : string -> string) (fetched : string) : list string :=
  map TrimSpace (List.filter (isPreserved low) (Split fetched ";")).

(** Directives written one after the other, each closed by a semicolon. *)
Fixpoint endEach (ds : list string) : string :=
  match ds with
  | [] => ""
  | d :: r => (d +:+ ";") +:+ endEach r
  end.


(** ** Scenarios

    Concrete collaborators, requests and upstream responses on which the
    handler can be run. *)

Definition quoteByte : ascii := byteOf 34.

Definition exampleURL (s : string) : URL :=
  {| Scheme := "https"; Opaque := ""; User := ""; Host := "example.com";
     Path := s; RawPath := ""; ForceQuery := false; RawQuery := ""; Fragment := "" |}.

Definition exampleURLString (u : URL) : string :=
  (((Scheme u +:+ "://") +:+ Host u) +:+ Path u) +:+
  (if String.eqb (RawQuery u) "" then "" else "?" +:+ RawQuery u).

(** A signer whose collaborators all succeed: the origin answers every
    fetch with [upstream], the transformer leaves the document as it is and
    reports [preloads] and [maxAgeSecs]. *)
Definition exampleSigner (upstream : Response) (preloads : list Metadata_Preload)
    (maxAgeSecs : Z) : Signer :=
  {| certHandler_GetLatestCert := "certificate";
     key := "private key";
     rtvCache_GetRTV := "012345678901234";
     rtvCache_GetCSS := "";
     shouldPackage := None;
     overrideBaseURL := None;
     requireHeaders := true;
     forwardedRequestHeaders := ["Host"; "X-Trace"];
     client_Do := fun _ => Ok upstream;
     parseURLs := fun fetch sign =>
       if String.eqb sign "" then inl (NewHTTPError StatusBadRequest "sign URL")
       else inr (exampleURL (if String.eqb fetch "" then sign else fetch),
                 exampleURL sign, false);
     validateFetch := fun _ _ => None;
     ShouldSendSXG := fun v => if String.eqb v "" then ("", 0%Z) else ("google", 5%Z);
     SelectVersion := Ok 5%Z;
     CanSatisfy := fun a => String.eqb a "application/signed-exchange;v=b3";
     transformer_Process := fun r =>
       Ok (Html r, {| Preloads := preloads; MaxAgeSecs := maxAgeSecs |});
     util_QuotedString := fun v =>
       if ContainsByte (byteOf 10) v then Err "not a quoted-string"
       else Ok (String quoteByte (v +:+ String quoteByte ""));
     util_CertName := fun c => c;
     util_RemoveHopByHopHeaders := fun h => delete "Connection" (delete "Keep-Alive" h);
     http_NewRequest := fun _ _ =>
       Ok {| ReqHeader := ∅; ReqHost := "example.com"; Proto := "HTTP/1.1";
             ParsedForm := None; Params := ∅ |};
     strings_mapUnicodeToLower := fun v => v;
     url_Parse := fun v =>
       if ContainsByte (byteOf 127) v then Err "invalid control character in URL"
       else Ok (exampleURL v);
     url_PathEscape := fun v => v;
     URL_String := exampleURLString;
     URL_ResolveReference := fun base ref =>
       {| Scheme := Scheme base; Opaque := ""; User := ""; Host := Host base;
          Path := Path ref; RawPath := ""; ForceQuery := false;
          RawQuery := RawQuery ref; Fragment := Fragment ref |};
     path_Join := fun a b => (a +:+ "/") +:+ b;
     time_Now := (1700000000 * Second)%Z;
     mice_Encode := fun e _ => Ok (Payload e, "mi-sha256-03=digest");
     sign_error := fun _ _ => None;
     write_error := fun _ => None |}.

(** A request with the negotiation headers of a cache. *)
Definition exampleRequest (form : gmap string (list string)) (params : gmap string string)
    : Request :=
  {| ReqHeader :=
       {[ "Accept" := ["application/signed-exchange;v=b3"];
          "Amp-Cache-Transform" := ["google;v=1..8"] ]};
     ReqHost := "packager.example";
     Proto := "HTTP/1.1";
     ParsedForm := Some form;
     Params := params |}.

Definition signForm : gmap string (list string) := {[ "sign" := ["/doc.html"] ]}.

Definition exampleBody : string := "<html amp><head></head><body>Hello</body></html>".

Definition exampleUpstream (status : Z) (h : Header) (b : string) : Response :=
  {| StatusCode := status; RespHeader := h; Body := {| unread := b; readErr := false |} |}.

(** What [fetchURL] returns with these collaborators: the outbound request
    built for [exampleRequest signForm ∅], and the upstream response without
    its hop-by-hop headers. *)
Definition exampleFetched (upstream : Response) : Response :=
  withRespHeader upstream (delete "Connection" (delete "Keep-Alive" (RespHeader upstream))).

Definition exampleFetchRequest : Request :=
  {| ReqHeader :=
       {[ "User-Agent" := [userAgent];
          "Via" := ["1.1 amppkg"];
          "Forwarded" := ["host=" +:+ String quoteByte ("packager.example" +:+ String quoteByte "")];
          "X-Forwarded-Host" := ["packager.example"] ]};
     ReqHost := "packager.example";
     Proto := "HTTP/1.1";
     ParsedForm := None;
     Params := ∅ |}.

(** The exchange a response carries, if it is a signed exchange. *)
Definition exchangeOf (resp : ResponseWriter) : option Exchange :=
  match rw_body resp with
  | [SXG e] => Some e
  | _ => None
  end.


(** The request [serveSignedExchange] sends to the transformer. *)
Definition transformerRequest (this : Signer) (fetchResp : consumedFetchResp)
    (params : SXGParams) : rpb_Request :=
  withVersion
    (getTransformerRequest this (body fetchResp) (URL_String this (signURL params)))
    (transformVersion params).

(** The response writer as [ServeHTTP] leaves it after its first line. *)
Definition varyResponse (resp : ResponseWriter) : ResponseWriter :=
  withHeader resp (Header_Add (rw_header resp) "Vary" "Accept, AMP-Cache-Transform").

(** ASCII case-insensitive equality of header names. *)
Definition sameHeaderName (a b : string) : Prop :=
  map_string lowerByte a = map_string lowerByte b.

(** Every key of the map is in canonical form, as in the header maps that
    [net/http] builds when it reads a response. *)
Definition canonicalKeys (h : Header) : bool :=
  forallb (fun kv => String.eqb (CanonicalHeaderKey (fst kv)) (fst kv)) (map_to_list h).


(** The status and the headers that were sent. *)
Definition sentStatus (resp : ResponseWriter) : option Z := fst <$> rw_sent resp.

Definition sentHeader (resp : ResponseWriter) : Header := default ∅ (snd <$> rw_sent resp).

(** The stateful response header set as section 6 of the specification
    lists it. *)
Definition statefulHeadersOfSection6 : list string :=
  [ "Authentication-Control";
    "Authentication-Info";
    "Clear-Site-Data";
    "Optional-WWW-Authenticate";
    "Proxy-Authenticate";
    "Proxy-Authentication-Info";
    "Public-Key-Pins";
    "Sec-WebSocket-Accept";
    "Set-Cookie";
    "Set-Cookie2";
    "SetProfile";
    "Strict-Transport-Security";
    "WWW-Authenticate" ].

(** ** Paths through the handler, as predicates *)

(** The packaging steps of [serveSignedExchange] all succeed and give the
    exchange [e], the transformer having reported [metadata]. *)
Definition packaged (this : Signer) (fetchResp : consumedFetchResp)
    (params : SXGParams) (metadata : Metadata) (e : Exchange) : Prop :=
  exists transformed linkHeader e0 certURL validityHRef,
    transformer_Process this (transformerRequest this fetchResp params)
      = Ok (transformed, metadata) /\
    formatLinkHeader this (Preloads metadata) = (linkHeader, None) /\
    MiEncodePayload this
      (NewExchange SxgVersion (URL_String this (signURL params)) "GET" ∅
         (cStatusCode fetchResp)
         (mutateFetchedHeader this (cHeader fetchResp) linkHeader transformed)
         transformed) miRecordSize = Ok e0 /\
    genCertURL this (certHandler_GetLatestCert this) (signURL params) = Ok certURL /\
    url_Parse this ValidityMapPath = Ok validityHRef /\
    AddSignatureHeader this e0
      (newSigner this params
         (fst (validityWindow (time_Now this) metadata))
         (snd (validityWindow (time_Now this) metadata))
         (certHandler_GetLatestCert this) certURL validityHRef) = Ok e /\
    write_error this e = None.

(** The steps that lead to a signed exchange: packaging succeeds and the
    expiry is after the clock. *)
Definition signedSteps (this : Signer) (fetchResp : consumedFetchResp)
    (params : SXGParams) (metadata : Metadata) (e : Exchange) : Prop :=
  packaged this fetchResp params metadata e /\
  (time_Now this <? snd (validityWindow (time_Now this) metadata))%Z = true.

(** The header maps [serveSignedExchange] can proxy: the fetched one, the
    mutated one, or the mutated one with the headers of the MI encoding. *)
Definition proxiedHeader (this : Signer) (fetched h : Header) : Prop :=
  h = fetched \/
  (exists linkHeader transformed,
     h = mutateFetchedHeader this fetched linkHeader transformed) \/
  (exists linkHeader transformed digest,
     h = Header_Add
           (Header_Add (mutateFetchedHeader this fetched linkHeader transformed)
              "Content-Encoding" "mi-sha256-03")
           "Digest" digest).

(** The request gets as far as the switch on the upstream status: its form
    and URLs are accepted, the fetch answers [fetchResp], the server is
    healthy and negotiation succeeds. *)
Definition reachesDispatch (this : Signer) (req fetchReq : Request) (fetchResp : Response)
    (signURL : URL) (errorOnStatefulHeaders : bool) (act : string) (tv : Z) : Prop :=
  exists form fetch sign fetchURL,
    ParsedForm req = Some form /\
    fetchAndSign req form = inr (fetch, sign) /\
    parseURLs this fetch sign = inr (fetchURL, signURL, errorOnStatefulHeaders) /\
    fetchURLAndMeasure this fetchURL req = inr (fetchReq, fetchResp) /\
    shouldPackage this = None /\
    negotiate this req = Some (act, tv).

(** The upstream response passes every gate before [consumeAndSign]. *)
Definition admitted (this : Signer) (req : Request) (fetchResp : Response)
    (params : SXGParams) : Prop :=
  exists fetchReq errorOnStatefulHeaders,
    reachesDispatch this req fetchReq fetchResp (signURL params) errorOnStatefulHeaders
      (ampCacheTransformHeader params) (transformVersion params) /\
    StatusCode fetchResp = 200%Z /\
    validateFetch this fetchReq fetchResp = None /\
    errorOnStatefulHeaders && hasStatefulHeader (RespHeader fetchResp) = false /\
    hasVariants (RespHeader fetchResp) = false.

(** The consumed form of an upstream response whose body was read whole. *)
Definition consumed (fetchResp : Response) : consumedFetchResp :=
  {| body := unread (Body fetchResp); cStatusCode := StatusCode fetchResp;
     cHeader := RespHeader fetchResp |}.


(** The header names [serveSignedExchange] and the MI encoding write to the
    inner response. *)
Definition writtenInnerHeaders : list string :=
  [ "Link"; "Content-Length"; "X-Content-Type-Options"; "Content-Security-Policy";
    "Content-Encoding"; "Digest" ].

(** Every key of the map is its own canonical form. *)
Definition keysCanonical (h : Header) : Prop :=
  forall k v, h !! k = Some v -> CanonicalHeaderKey k = k.


(** An upstream [200] that carries stateful headers and a policy. *)
Definition cookieUpstream : Response :=
  exampleUpstream 200
    {[ "Set-Cookie" := ["session=1"];
       "Strict-Transport-Security" := ["max-age=31536000"];
       "Www-Authenticate" := ["Basic"];
       "Content-Type" := ["text/html"];
       "Content-Security-Policy" := ["font-src https://f.example; script-src 'self'"] ]}
    exampleBody.

(** The handler run on it, with a transformer that allows 90000 seconds. *)
Definition happyResponse : ResponseWriter :=
  ServeHTTP (exampleSigner cookieUpstream [] 90000) newResponseWriter
    (exampleRequest signForm ∅).

Definition happyExchange : Exchange :=
  default (NewExchange "" "" "" ∅ 0 ∅ "") (exchangeOf happyResponse).


Definition exampleParams : SXGParams :=
  {| signURL := exampleURL "/doc.html"; ampCacheTransformHeader := "google";
     transformVersion := 5 |}.


Fixpoint repeat_string (c : ascii) (n : nat) : string :=
  match n with
  | O => ""
  | S k => String c (repeat_string c k)
  end.

(** An upstream [200] whose body is exactly as long as the cap. *)
Definition cappedBody : string := repeat_string "a" (Z.to_nat maxSignableBodyLength).

Definition cappedUpstream : Response :=
  exampleUpstream 200 {[ "Content-Type" := ["text/html"] ]} cappedBody.


(** The response is a signed exchange, sent with status [200] and the
    signed-exchange content type, whose signature is valid for [secs]
    seconds. *)
Definition signedFor (out : ResponseWriter) (secs : Z) : Prop :=
  exists e s h,
    exchangeOf out = Some e /\
    rw_sent out = Some (200%Z, h) /\
    h !! "Content-Type" = Some [SxgContentType] /\
    Signature e = Some s /\
    (Expires s - Date s = secs * Second)%Z.

(** The "happy sign" scenario: a [200] with a small AMP document, no
    stateful header and no variants. *)
Definition plainUpstream : Response :=
  exampleUpstream 200
    {[ "Content-Type" := ["text/html"]; "Cache-Control" := ["max-age=3600"] ]}
    exampleBody.

Definition hourSigner : Signer := exampleSigner plainUpstream [] 3600.

Definition hourResponse : ResponseWriter :=
  ServeHTTP hourSigner newResponseWriter (exampleRequest signForm ∅).


(** The downstream response is a [304] without body whose headers are
    those of the six listed names that the upstream response has, and no
    other. *)
Definition exactlyListedHeaders (upstream : Header) (out : ResponseWriter) : Prop :=
  exists h,
    rw_sent out = Some (StatusNotModified, h) /\
    rw_body out = [] /\
    forall k, h !! k =
              if inList k (map CanonicalHeaderKey statusNotModifiedHeaders)
              then upstream !! k else None.

(** A [304] with an entity tag and a header that is not on the list. *)
Definition notModifiedUpstream : Response :=
  exampleUpstream 304
    {[ "Etag" := ["abc"]; "Cache-Control" := ["max-age=60"]; "X-Extra" := ["y"] ]} "".

Definition notModifiedResponse : ResponseWriter :=
  ServeHTTP (exampleSigner notModifiedUpstream [] 90000) newResponseWriter
    (exampleRequest signForm ∅).

(** Upstream responses that have a [Vary] header of their own. *)
Definition varyNotModifiedUpstream : Response :=
  exampleUpstream 304 {[ "Etag" := ["abc"]; "Vary" := ["Accept-Encoding"] ]} "".

Definition varyNotFoundUpstream : Response :=
  exampleUpstream 404 {[ "Content-Type" := ["text/plain"]; "Vary" := ["Accept-Encoding"] ]}
    "not found".

(** A request routed with the sign URL in its path and two [fetch] form
    values. *)
Definition pathSignRequest : Request :=
  exampleRequest {[ "fetch" := ["/a.html"; "/b.html"]; "sign" := ["/ignored.html"] ]}
    {[ "signURL" := "/doc.html" ]}.

Definition twoFetchRequest : Request :=
  exampleRequest {[ "fetch" := ["/a.html"; "/b.html"]; "sign" := ["/doc.html"] ]} ∅.


(** ** Preload records, read one by one *)

(** The record passes the two checks that are fatal: its URL parses and
    its [as] attribute is not empty. *)
Definition wellFormedPreload (this : Signer) (preload : Metadata_Preload) : bool :=
  match url_Parse this (Url preload) with
  | Ok _ => negb (String.eqb (As preload) "")
  | Err _ => false
  end.

(** Every attribute value of the record has a quoted-string form. *)
Definition quotablePreload (this : Signer) (preload : Metadata_Preload) : bool :=
  forallb (fun attr => match util_QuotedString this (Val attr) with
                       | Ok _ => true
                       | Err _ => false
                       end) (Attributes preload).

(** The attributes as they are appended to a value; [None] when one of them
    has no quoted-string form. *)
Fixpoint quotedAttributes (this : Signer) (attrs : list Metadata_Preload_Attribute)
    : option string :=
  match attrs with
  | [] => Some ""
  | attr :: r =>
      match util_QuotedString this (Val attr), quotedAttributes this r with
      | Ok quotedVal, Some rest =>
          Some (";" +:+ Key attr +:+ "=" +:+ quotedVal +:+ rest)
      | _, _ => None
      end
  end.

(** The value that one record contributes to the header, if any. *)
Definition linkValue (this : Signer) (preload : Metadata_Preload) : option string :=
  match url_Parse this (Url preload) with
  | Err _ => None
  | Ok u =>
      let u := withRawQuery u (url_PathEscape this (RawQuery u)) in
      match quotedAttributes this (Attributes preload) with
      | None => None
      | Some attrs =>
          Some (((("<" +:+ URL_String this u) +:+ ">;rel=preload;as=") +:+ As preload) +:+ attrs)
      end
  end.

Definition scriptPreload : Metadata_Preload :=
  {| Url := "https://cdn.example/v0.js?a=b"; As := "script"; Attributes := [] |}.

Definition unquotablePreload : Metadata_Preload :=
  {| Url := "https://cdn.example/font.woff"; As := "font";
     Attributes := [ {| Key := "crossorigin"; Val := String (byteOf 10) "x" |} ] |}.

Definition stylePreload : Metadata_Preload :=
  {| Url := "https://cdn.example/s.css"; As := "style";
     Attributes := [ {| Key := "media"; Val := "print" |} ] |}.

Definition missingAsPreload : Metadata_Preload :=
  {| Url := "https://cdn.example/x"; As := ""; Attributes := [] |}.

(** A cut that is undone by appending a non-empty piece: what holds for
    both ends of [TrimSpace]. *)
Definition cutsNonEmpty (cut : string -> option string) : Prop :=
  forall s r, cut s = Some r -> exists p, p <> "" /\ s = p +:+ r.

(** ** The request [fetchURL] sends upstream, stage by stage *)

(** Whether a name of [forwardedRequestHeaders] has the canonical form
    [k]. *)
Definition forwards (this : Signer) (k : string) : bool :=
  existsb (fun header => String.eqb (CanonicalHeaderKey header) k)
    (forwardedRequestHeaders this).

(** The statements of [fetchURL] between [http.NewRequest] and
    [this.client.Do], one definition for each; [fetchURL] is their
    composition. *)
Definition withUserAgent (req : Request) : Request :=
  withReqHeader req (Header_Set (ReqHeader req) "User-Agent" userAgent).

Definition withForwardedHeaders (this : Signer) (serveHTTPReq req : Request) : Request :=
  fold_left (forwardHeader serveHTTPReq) (forwardedRequestHeaders this) req.

Definition withVia (serveHTTPReq req : Request) : Request :=
  if protocolMatch (Proto serveHTTPReq) then
    let via := (TrimPrefix (Proto serveHTTPReq) "HTTP/" +:+ " ") +:+ "amppkg" in
    let upstreamVia := GetJoined (ReqHeader req) "Via" in
    let via := if String.eqb upstreamVia "" then via
               else (upstreamVia +:+ ", ") +:+ via in
    withReqHeader req (Header_Set (ReqHeader req) "Via" via)
  else req.

Definition withForwardedHost (this : Signer) (serveHTTPReq req : Request) : Request :=
  match util_QuotedString this (ReqHost serveHTTPReq) with
  | Ok quotedHost =>
      let req := withReqHeader req
                   (Header_Set (ReqHeader req) "Forwarded" ("host=" +:+ quotedHost)) in
      let xfh := ReqHost serveHTTPReq in
      let oldXFH := Header_Get (ReqHeader serveHTTPReq) "X-Forwarded-Host" in
      let xfh := if String.eqb oldXFH "" then xfh else (oldXFH +:+ ",") +:+ xfh in
      withReqHeader req (Header_Set (ReqHeader req) "X-Forwarded-Host" xfh)
  | Err _ => req
  end.

Definition withConditionalHeaders (serveHTTPReq req : Request) : Request :=
  fold_left (forwardConditional serveHTTPReq) ConditionalRequestHeaders req.

Definition outboundRequest (this : Signer) (serveHTTPReq req : Request) : Request :=
  withConditionalHeaders serveHTTPReq
    (withForwardedHost this serveHTTPReq
       (withVia serveHTTPReq
          (withForwardedHeaders this serveHTTPReq (withUserAgent req)))).

(** The header names [fetchURL] sets by itself. *)
Definition ownRequestHeaders : list string :=
  [ "User-Agent"; "Via"; "Forwarded"; "X-Forwarded-Host" ].

(** ** A response proxied as it was fetched *)

(** The upstream status, the upstream headers over those set before, the
    whole upstream body, one count of an unsigned document and no exchange. *)
Definition proxiedVerbatim (resp out : ResponseWriter) (fetchResp : Response) : Prop :=
  rw_sent out = Some (StatusCode fetchResp, RespHeader fetchResp ∪ rw_header resp) /\
  bodyBytes (rw_body out) = Some (unread (Body fetchResp)) /\
  rw_documents out = rw_documents resp ++ [proxied_unsigned] /\
  exchangeOf out = None.

(** The request gets as far as the health check: its form and URLs are
    accepted and the fetch answers [fetchResp]. *)
Definition fetched (this : Signer) (req fetchReq : Request) (fetchResp : Response)
    (signURL : URL) (errorOnStatefulHeaders : bool) : Prop :=
  exists form fetch sign fetchURL,
    ParsedForm req = Some form /\
    fetchAndSign req form = inr (fetch, sign) /\
    parseURLs this fetch sign = inr (fetchURL, signURL, errorOnStatefulHeaders) /\
    fetchURLAndMeasure this fetchURL req = inr (fetchReq, fetchResp).

(** The health check or content negotiation refuses to package. *)
Definition refusedBeforeDispatch (this : Signer) (req : Request) : Prop :=
  shouldPackage this <> None \/
  (requireHeaders this = true /\
   (fst (ShouldSendSXG this (GetJoined (ReqHeader req) "AMP-Cache-Transform")) = "" \/
    CanSatisfy this (GetJoined (ReqHeader req) "Accept") = false)) \/
  (requireHeaders this = false /\ exists msg, SelectVersion this = Err msg).

(** One of the checks of the [200] case refuses to package. *)
Definition refusedOK (this : Signer) (fetchReq : Request) (fetchResp : Response)
    (errorOnStatefulHeaders : bool) : Prop :=
  validateFetch this fetchReq fetchResp <> None \/
  (errorOnStatefulHeaders = true /\
   exists header, In header statefulResponseHeaders /\
                  GetJoined (RespHeader fetchResp) header <> "") \/
  (exists header, In header ["Variants"; "Variant-Key"; "Variants-04"; "Variant-Key-04"] /\
                  Header_Get (RespHeader fetchResp) header <> "").

(** The header names of the outer response of a signed exchange, as the
    header map stores them. *)
Definition signedOuterHeaders : list string :=
  [ "Content-Type"; "Cache-Control"; "X-Content-Type-Options"; "Vary"; "Amp-Cache-Transform" ].

(** ** More scenarios *)

(** A signer with some collaborators replaced: the health check, whether
    the negotiation headers are required, the names of the forwarded
    headers, the client, the transformer, and what [parseURLs] reports for
    [ErrorOnStatefulHeaders]. *)
Definition withCollaborators (this : Signer) (health : option string) (require : bool)
    (forwarded : list string) (client : Request -> result Response)
    (transform : rpb_Request -> result (string * Metadata))
    (errorOnStateful : bool) : Signer :=
  {| certHandler_GetLatestCert := certHandler_GetLatestCert this;
     key := key this;
     rtvCache_GetRTV := rtvCache_GetRTV this;
     rtvCache_GetCSS := rtvCache_GetCSS this;
     shouldPackage := health;
     overrideBaseURL := overrideBaseURL this;
     requireHeaders := require;
     forwardedRequestHeaders := forwarded;
     client_Do := client;
     parseURLs := fun fetch sign =>
       match parseURLs this fetch sign with
       | inl e => inl e
       | inr (fetchURL, signURL, _) => inr (fetchURL, signURL, errorOnStateful)
       end;
     validateFetch := validateFetch this;
     ShouldSendSXG := ShouldSendSXG this;
     SelectVersion := SelectVersion this;
     CanSatisfy := CanSatisfy this;
     transformer_Process := transform;
     util_QuotedString := util_QuotedString this;
     util_CertName := util_CertName this;
     util_RemoveHopByHopHeaders := util_RemoveHopByHopHeaders this;
     http_NewRequest := http_NewRequest this;
     strings_mapUnicodeToLower := strings_mapUnicodeToLower this;
     url_Parse := url_Parse this;
     url_PathEscape := url_PathEscape this;
     URL_String := URL_String this;
     URL_ResolveReference := URL_ResolveReference this;
     path_Join := path_Join this;
     time_Now := time_Now this;
     mice_Encode := mice_Encode this;
     sign_error := sign_error this;
     write_error := write_error this |}.

Definition identityTransform (preloads : list Metadata_Preload) (maxAgeSecs : Z)
    (r : rpb_Request) : result (string * Metadata) :=
  Ok (Html r, {| Preloads := preloads; MaxAgeSecs := maxAgeSecs |}).

(** A request of a client behind a proxy, with a cookie, a trace header of
    two values and a validator. *)
Definition tracedRequest : Request :=
  {| ReqHeader :=
       {[ "Accept" := ["application/signed-exchange;v=b3"];
          "Amp-Cache-Transform" := ["google;v=1..8"];
          "Cookie" := ["id=7"];
          "X-Trace" := ["a"; "b"];
          "Via" := ["1.0 edge"];
          "If-None-Match" := ["W/abc"];
          "X-Forwarded-Host" := ["front.example"; "other.example"];
          "User-Agent" := ["curl/8"] ]};
     ReqHost := "packager.example";
     Proto := "HTTP/2.0";
     ParsedForm := Some signForm;
     Params := ∅ |}.

(** A signer that forwards the trace header, [Via] and the host. *)
Definition forwardingSigner : Signer :=
  withCollaborators (exampleSigner plainUpstream [] 90000) None true
    ["x-trace"; "Via"; "host"] (fun _ => Ok plainUpstream)
    (identityTransform [] 90000) false.

Definition tracedFetchRequest : Request :=
  outboundRequest forwardingSigner tracedRequest
    {| ReqHeader := ∅; ReqHost := "example.com"; Proto := "HTTP/1.1";
       ParsedForm := None; Params := ∅ |}.

(** A signer whose origin cannot be reached. *)
Definition unreachableSigner : Signer :=
  withCollaborators (exampleSigner plainUpstream [] 90000) None true ["Host"; "X-Trace"]
    (fun _ => Err "connection refused") (identityTransform [] 90000) false.

(** A signer whose health check fails, with an origin that answers [304]. *)
Definition unhealthySigner : Signer :=
  withCollaborators (exampleSigner notModifiedUpstream [] 90000) (Some "no fresh certificate")
    true ["Host"; "X-Trace"] (fun _ => Ok notModifiedUpstream) (identityTransform [] 90000)
    false.

(** A signer that refuses stateful headers, with an origin that sets a
    cookie. *)
Definition strictSigner : Signer :=
  withCollaborators (exampleSigner cookieUpstream [] 90000) None true ["Host"; "X-Trace"]
    (fun _ => Ok cookieUpstream) (identityTransform [] 90000) true.

(** A signer whose transformer fails. *)
Definition brokenTransformSigner : Signer :=
  withCollaborators (exampleSigner cookieUpstream [] 90000) None true ["Host"; "X-Trace"]
    (fun _ => Ok cookieUpstream) (fun _ => Err "not an AMP document") false.

(** An origin that redirects. *)
Definition redirectUpstream : Response :=
  exampleUpstream 301 {[ "Location" := ["https://example.com/new.html"] ]} "".

(** An origin whose stream breaks after a few bytes. *)
Definition brokenStreamUpstream : Response :=
  {| StatusCode := 200; RespHeader := {[ "Content-Type" := ["text/html"] ]};
     Body := {| unread := "<html"; readErr := true |} |}.

(** An origin whose body is as long as the cap and whose stream then
    breaks. *)
Definition cappedBrokenUpstream : Response :=
  {| StatusCode := 200; RespHeader := {[ "Content-Type" := ["text/html"] ]};
     Body := {| unread := cappedBody; readErr := true |} |}.

(** An origin with a [Link] header of its own and two policies. *)
Definition linkUpstream : Response :=
  exampleUpstream 200
    {[ "Content-Type" := ["text/html"];
       "Link" := ["<https://tracker.example/p.gif>;rel=preload;as=image"];
       "Content-Security-Policy" := ["font-src https://f.example"; "script-src 'none'"] ]}
    exampleBody.

Definition linkResponse : ResponseWriter :=
  ServeHTTP (exampleSigner linkUpstream [stylePreload] 90000) newResponseWriter
    (exampleRequest signForm ∅).

Definition linkExchange : Exchange :=
  default (NewExchange "" "" "" ∅ 0 ∅ "") (exchangeOf linkResponse).

(** A form without a [sign] value. *)
Definition noSignRequest : Request :=
  exampleRequest {[ "fetch" := ["/a.html"] ]} ∅.

(** * Properties *)

(** ** The model on small inputs *)

Example Split_ex : Split "a;b;;c;" ";" = ["a"; "b"; ""; "c"; ""].
Proof. reflexivity. Qed.

Example TrimSpace_ex :
  TrimSpace (bytes [32; 9; 194; 160; 102; 32; 120; 226; 128; 137; 11]%N) = "f x".
Proof. vm_compute. reflexivity. Qed.

Example Fields_ex :
  Fields (bytes [32; 102; 111; 9; 226; 128; 137; 98; 227; 128; 128]%N) = ["fo"; "b"].
Proof. vm_compute. reflexivity. Qed.

Example cspSuffix_directives : Split cspSuffix ";" = fixedDirectives.
Proof. vm_compute. reflexivity. Qed.

Example Mutate_ex :
  MutateFetchedContentSecurityPolicy (fun s => s)
    "script-src 'self'; Font-Src https://f.example; frame-ancestors 'none'"
  = "Font-Src https://f.example;" +:+ cspSuffix.
Proof. vm_compute. reflexivity. Qed.

Example CanonicalHeaderKey_ex :
  map CanonicalHeaderKey ["ETag"; "sec-webSocket-accept"; "SetProfile"; "bad key"] =
  ["Etag"; "Sec-Websocket-Accept"; "Setprofile"; "bad key"].
Proof. vm_compute. reflexivity. Qed.

Example GetJoined_ex :
  let h : Header := {[ "Set-Cookie" := ["a=1"; "b=2"]; "Via" := ["1.1 x"; "1.1 y"] ]} in
  GetJoined h "set-cookie" = "a=1" /\ GetJoined h "Via" = "1.1 x, 1.1 y" /\
  GetJoined h "Date" = "".
Proof. cbv zeta. repeat split; vm_compute; reflexivity. Qed.

Example maxSignableBodyLength_ex : maxSignableBodyLength = 4194304%Z /\ miRecordSize = 16384%Z.
Proof. split; reflexivity. Qed.

Example validityWindow_ex :
  validityWindow 0 {| Preloads := []; MaxAgeSecs := 3600 |}
  = ((-86400 * Second)%Z, (-82800 * Second)%Z).
Proof. vm_compute. reflexivity. Qed.


(** ** Byte strings *)

Lemma append_cons (c : ascii) (a b : string) :
  String c a +:+ b = String c (a +:+ b).
Proof. reflexivity. Qed.

Lemma append_nil_l (s : string) : "" +:+ s = s.
Proof. reflexivity. Qed.

Lemma append_nil_r (s : string) : s +:+ "" = s.
Proof.
  induction s as [|c s IH]; [reflexivity|].
  now rewrite append_cons, IH.
Qed.

Lemma append_assoc (a b c : string) : (a +:+ b) +:+ c = a +:+ (b +:+ c).
Proof.
  induction a as [|x a IH]; [reflexivity|].
  now rewrite !append_cons, IH.
Qed.

Lemma append_length (a b : string) :
  String.length (a +:+ b) = (String.length a + String.length b)%nat.
Proof.
  induction a as [|x a IH]; [reflexivity|].
  rewrite append_cons. simpl. now rewrite IH.
Qed.

Lemma rev_string_spec (acc s : string) :
  rev_string acc s = reverse_string s +:+ acc.
Proof.
  unfold reverse_string. revert acc.
  induction s as [|c s IH]; intros acc; simpl; [reflexivity|].
  rewrite (IH (String c acc)), (IH (String c "")), append_assoc. reflexivity.
Qed.

Lemma reverse_string_cons (c : ascii) (s : string) :
  reverse_string (String c s) = reverse_string s +:+ String c "".
Proof. unfold reverse_string at 1. simpl. apply rev_string_spec. Qed.

Lemma reverse_string_app (a b : string) :
  reverse_string (a +:+ b) = reverse_string b +:+ reverse_string a.
Proof.
  induction a as [|c a IH].
  - change (reverse_string "") with "". now rewrite append_nil_r.
  - rewrite append_cons, !reverse_string_cons, IH, append_assoc. reflexivity.
Qed.

Lemma reverse_string_involutive (s : string) :
  reverse_string (reverse_string s) = s.
Proof.
  induction s as [|c s IH]; [reflexivity|].
  rewrite reverse_string_cons, reverse_string_app, IH. reflexivity.
Qed.

Lemma reverse_string_length (s : string) :
  String.length (reverse_string s) = String.length s.
Proof.
  induction s as [|c s IH]; [reflexivity|].
  rewrite reverse_string_cons, append_length, IH. simpl. lia.
Qed.

Lemma ContainsByte_app (c : ascii) (a b : string) :
  ContainsByte c (a +:+ b) = ContainsByte c a || ContainsByte c b.
Proof.
  induction a as [|x a IH]; [reflexivity|].
  rewrite append_cons. simpl. now rewrite IH, orb_assoc.
Qed.

Lemma CutPrefix_Some (p s r : string) :
  CutPrefix p s = Some r <-> s = p +:+ r.
Proof.
  revert s. induction p as [|a p IH]; intros s; simpl.
  - rewrite append_nil_l. split; congruence.
  - rewrite append_cons. destruct s as [|b s].
    + split; discriminate.
    + destruct (Ascii.eqb_spec a b) as [->|Hne].
      * rewrite IH. split; congruence.
      * split; [discriminate | congruence].
Qed.

Lemma cutAny_Some (pats : list string) (s r : string) :
  cutAny pats s = Some r -> exists p, In p pats /\ s = p +:+ r.
Proof.
  induction pats as [|p ps IH]; simpl; [discriminate|].
  destruct (CutPrefix p s) as [r'|] eqn:E.
  - intros [= <-]. exists p. split; [now left | now apply CutPrefix_Some].
  - intros H. destruct (IH H) as (q & Hq & ->). exists q. split; [now right | reflexivity].
Qed.

Lemma cutAny_None (pats : list string) (s : string) :
  cutAny pats s = None -> forall p r, In p pats -> s <> p +:+ r.
Proof.
  induction pats as [|p ps IH]; simpl; [intros _ q r []|].
  destruct (CutPrefix p s) as [r'|] eqn:E; [discriminate|].
  intros H q r [<-|Hq] Heq.
  - apply CutPrefix_Some in Heq. congruence.
  - exact (IH H q r Hq Heq).
Qed.

Lemma trimWith_suffix (cut : string -> option string) (fuel : nat) (s : string) :
  cutsNonEmpty cut -> exists a, s = a +:+ trimWith cut fuel s.
Proof.
  intros Hcut. revert s.
  induction fuel as [|f IH]; intros s; simpl.
  - now exists "".
  - destruct (cut s) as [r|] eqn:E; [|now exists ""].
    destruct (Hcut _ _ E) as (p & _ & ->).
    destruct (IH r) as (a & Ha).
    exists (p +:+ a). rewrite append_assoc. now rewrite <- Ha.
Qed.

Lemma trimWith_done (cut : string -> option string) (fuel : nat) (s : string) :
  cutsNonEmpty cut -> (String.length s <= fuel)%nat ->
  cut (trimWith cut fuel s) = None.
Proof.
  intros Hcut. revert s.
  induction fuel as [|f IH]; intros s Hlen; simpl.
  - destruct (cut s) as [r|] eqn:E; [|reflexivity].
    destruct (Hcut _ _ E) as (p & Hp & ->).
    rewrite append_length in Hlen.
    destruct p; [congruence | simpl in Hlen; lia].
  - destruct (cut s) as [r|] eqn:E; [|exact E].
    apply IH. destruct (Hcut _ _ E) as (p & Hp & ->).
    rewrite append_length in Hlen.
    destruct p; [congruence | simpl in Hlen; lia].
Qed.

Lemma trimWith_id (cut : string -> option string) (fuel : nat) (s : string) :
  cut s = None -> trimWith cut fuel s = s.
Proof. intros H. destruct fuel; simpl; [reflexivity | now rewrite H]. Qed.

Lemma whiteSpace_nonempty (p : string) : In p whiteSpace -> p <> "".
Proof.
  intros Hin ->. revert Hin. vm_compute.
  intuition discriminate.
Qed.

Lemma leadingSpace_cuts : cutsNonEmpty leadingSpace.
Proof.
  intros s r H. destruct (cutAny_Some _ _ _ H) as (p & Hp & ->).
  exists p. split; [now apply whiteSpace_nonempty | reflexivity].
Qed.

Lemma trailingSpaceRev_cuts : cutsNonEmpty trailingSpaceRev.
Proof.
  intros s r H. destruct (cutAny_Some _ _ _ H) as (p & Hp & ->).
  exists p. split; [|reflexivity].
  apply in_map_iff in Hp. destruct Hp as (q & <- & Hq).
  intros Heq. apply (whiteSpace_nonempty q Hq).
  rewrite <- (reverse_string_involutive q), Heq. reflexivity.
Qed.

Lemma cutAny_app_None (pats : list string) (u b : string) :
  cutAny pats (u +:+ b) = None -> cutAny pats u = None.
Proof.
  intros H. destruct (cutAny pats u) as [r|] eqn:E; [|reflexivity].
  destruct (cutAny_Some _ _ _ E) as (p & Hp & ->).
  exfalso. apply (cutAny_None _ _ H p (r +:+ b) Hp). apply append_assoc.
Qed.

Lemma TrimLeftSpace_suffix (s : string) : exists a, s = a +:+ TrimLeftSpace s.
Proof. apply trimWith_suffix, leadingSpace_cuts. Qed.

Lemma TrimLeftSpace_done (s : string) : leadingSpace (TrimLeftSpace s) = None.
Proof. apply trimWith_done; [apply leadingSpace_cuts | lia]. Qed.

Lemma TrimRightSpace_prefix (s : string) : exists b, s = TrimRightSpace s +:+ b.
Proof.
  unfold TrimRightSpace.
  destruct (trimWith_suffix trailingSpaceRev (String.length s) (reverse_string s)
              trailingSpaceRev_cuts) as (a & Ha).
  exists (reverse_string a).
  rewrite <- reverse_string_app, <- Ha. symmetry. apply reverse_string_involutive.
Qed.

Lemma TrimRightSpace_done (s : string) :
  trailingSpaceRev (reverse_string (TrimRightSpace s)) = None.
Proof.
  unfold TrimRightSpace. rewrite reverse_string_involutive.
  apply trimWith_done; [apply trailingSpaceRev_cuts|].
  rewrite reverse_string_length. lia.
Qed.

(** [TrimSpace] gives a piece of its argument. *)
Lemma TrimSpace_substring (s : string) :
  exists a b, s = a +:+ (TrimSpace s +:+ b).
Proof.
  destruct (TrimLeftSpace_suffix s) as (a & Ha).
  destruct (TrimRightSpace_prefix (TrimLeftSpace s)) as (b & Hb).
  exists a, b. unfold TrimSpace. now rewrite <- Hb.
Qed.

Lemma TrimSpace_ContainsByte (c : ascii) (s : string) :
  ContainsByte c s = false -> ContainsByte c (TrimSpace s) = false.
Proof.
  destruct (TrimSpace_substring s) as (a & b & Hs). intros H.
  rewrite Hs, !ContainsByte_app in H.
  apply orb_false_iff in H as [_ H]. now apply orb_false_iff in H as [H _].
Qed.

(** Trimming what is trimmed changes nothing. *)
Lemma TrimSpace_idempotent (s : string) : TrimSpace (TrimSpace s) = TrimSpace s.
Proof.
  assert (Hl : leadingSpace (TrimSpace s) = None).
  { destruct (TrimRightSpace_prefix (TrimLeftSpace s)) as (b & Hb).
    apply (cutAny_app_None _ _ b). unfold TrimSpace. rewrite <- Hb.
    apply TrimLeftSpace_done. }
  assert (Hr : trailingSpaceRev (reverse_string (TrimSpace s)) = None)
    by apply TrimRightSpace_done.
  unfold TrimSpace at 1. unfold TrimLeftSpace.
  rewrite (trimWith_id _ _ _ Hl).
  unfold TrimRightSpace. rewrite (trimWith_id _ _ _ Hr).
  apply reverse_string_involutive.
Qed.

(** ** Splitting and the policy loop *)

Lemma Split_app_sep (sep : ascii) (t r : string) :
  ContainsByte sep t = false ->
  Split (t +:+ String sep r) sep = t :: Split r sep.
Proof.
  induction t as [|c t IH]; intros H.
  - rewrite append_nil_l. simpl. now rewrite Ascii.eqb_refl.
  - simpl in H. apply orb_false_iff in H as [Hc Ht].
    rewrite append_cons. simpl. rewrite Hc, (IH Ht). reflexivity.
Qed.

Lemma Split_elems (sep : ascii) (s t : string) :
  In t (Split s sep) -> ContainsByte sep t = false.
Proof.
  revert t. induction s as [|c s IH]; intros t; simpl.
  - intros [<-|[]]. reflexivity.
  - destruct (Ascii.eqb c sep) eqn:E.
    + intros [<-|H]; [reflexivity | now apply IH].
    + destruct (Split s sep) as [|u us] eqn:Es.
      * intros [<-|[]]. simpl. now rewrite E.
      * intros [<-|H].
        -- simpl. rewrite E. apply IH. now left.
        -- apply IH. now right.
Qed.

Lemma Split_endEach (ds : list string) (rest : string) :
  (forall d, In d ds -> ContainsByte ";" d = false) ->
  Split (endEach ds +:+ rest) ";" = ds ++ Split rest ";".
Proof.
  induction ds as [|d ds IH]; intros H; [reflexivity|].
  simpl endEach. rewrite !append_assoc, append_cons, append_nil_l.
  rewrite Split_app_sep by (apply H; now left).
  rewrite IH by (intros; apply H; now right). reflexivity.
Qed.

Section PolicyLoop.
Variable low : string -> string.

Lemma cspStep_eq (newCsp tok : string) :
  cspStep low newCsp tok =
  if isPreserved low tok then (newCsp +:+ TrimSpace tok) +:+ ";" else newCsp.
Proof.
  unfold cspStep, isPreserved, directiveName.
  destruct (Fields (TrimSpace tok)); reflexivity.
Qed.

Lemma fold_cspStep (toks : list string) (acc : string) :
  fold_left (cspStep low) toks acc =
  acc +:+ endEach (map TrimSpace (List.filter (isPreserved low) toks)).
Proof.
  revert acc. induction toks as [|tok toks IH]; intros acc; simpl.
  - now rewrite append_nil_r.
  - rewrite IH, cspStep_eq. destruct (isPreserved low tok); [|reflexivity].
    simpl. now rewrite !append_assoc.
Qed.

(** The loop and the final write, as one expression. *)
Lemma Mutate_eq (fetched : string) :
  MutateFetchedContentSecurityPolicy low fetched =
  endEach (keptDirectives low fetched) +:+ cspSuffix.
Proof.
  unfold MutateFetchedContentSecurityPolicy, keptDirectives.
  now rewrite fold_cspStep, append_nil_l.
Qed.

Lemma directiveName_TrimSpace (tok : string) :
  directiveName low (TrimSpace tok) = directiveName low tok.
Proof. unfold directiveName. now rewrite TrimSpace_idempotent. Qed.

Lemma isPreserved_TrimSpace (tok : string) :
  isPreserved low (TrimSpace tok) = isPreserved low tok.
Proof. unfold isPreserved. now rewrite directiveName_TrimSpace. Qed.

Lemma keptDirectives_elem (fetched d : string) :
  In d (keptDirectives low fetched) ->
  exists tok, In tok (Split fetched ";") /\ isPreserved low tok = true /\ d = TrimSpace tok.
Proof.
  unfold keptDirectives. intros H. apply in_map_iff in H as (tok & <- & H).
  apply filter_In in H as [H1 H2]. now exists tok.
Qed.

Lemma keptDirectives_no_sep (fetched d : string) :
  In d (keptDirectives low fetched) -> ContainsByte ";" d = false.
Proof.
  intros H. apply keptDirectives_elem in H as (tok & Hin & _ & ->).
  apply TrimSpace_ContainsByte. now apply Split_elems in Hin.
Qed.

Lemma Split_Mutate (fetched : string) :
  Split (MutateFetchedContentSecurityPolicy low fetched) ";" =
  keptDirectives low fetched ++ fixedDirectives.
Proof.
  rewrite Mutate_eq, Split_endEach by apply keptDirectives_no_sep.
  f_equal.
Qed.

Lemma fixedDirectives_names (d : string) :
  In d fixedDirectives ->
  exists name, directiveName low d = Some name /\ In name fixedDirectiveNames /\
               isPreserved low d = false.
Proof.
  unfold isPreserved.
  intros [<-|[<-|[<-|[<-|[<-|[]]]]]];
    eexists; (split; [vm_compute; reflexivity|]); split;
    [ vm_compute; tauto | vm_compute; reflexivity
    | vm_compute; tauto | vm_compute; reflexivity
    | vm_compute; tauto | vm_compute; reflexivity
    | vm_compute; tauto | vm_compute; reflexivity
    | vm_compute; tauto | vm_compute; reflexivity ].
Qed.

Lemma filter_all {A : Type} (f : A -> bool) (l : list A) :
  (forall x, In x l -> f x = true) -> List.filter f l = l.
Proof.
  induction l as [|x l IH]; intros H; simpl; [reflexivity|].
  rewrite (H x) by now left. f_equal. apply IH. intros; apply H; now right.
Qed.

Lemma filter_none {A : Type} (f : A -> bool) (l : list A) :
  (forall x, In x l -> f x = false) -> List.filter f l = [].
Proof.
  induction l as [|x l IH]; intros H; simpl; [reflexivity|].
  rewrite (H x) by now left. apply IH. intros; apply H; now right.
Qed.

Lemma map_id_on {A : Type} (f : A -> A) (l : list A) :
  (forall x, In x l -> f x = x) -> map f l = l.
Proof.
  induction l as [|x l IH]; intros H; simpl; [reflexivity|].
  rewrite (H x) by now left. f_equal. apply IH. intros; apply H; now right.
Qed.

(** The directives kept from a rewritten policy are those kept before. *)
Lemma keptDirectives_Mutate (fetched : string) :
  keptDirectives low (MutateFetchedContentSecurityPolicy low fetched) =
  keptDirectives low fetched.
Proof.
  unfold keptDirectives at 1. rewrite Split_Mutate, List.filter_app, List.map_app.
  rewrite (filter_none _ fixedDirectives).
  2:{ intros d Hd. now destruct (fixedDirectives_names d Hd) as (? & _ & _ & ?). }
  rewrite app_nil_r, filter_all.
  2:{ intros d Hd. apply keptDirectives_elem in Hd as (tok & _ & Hp & ->).
      now rewrite isPreserved_TrimSpace. }
  apply map_id_on. intros d Hd.
  apply keptDirectives_elem in Hd as (tok & _ & _ & ->).
  apply TrimSpace_idempotent.
Qed.
End PolicyLoop.

(** ** The response writer *)

Lemma withHeader_body (resp : ResponseWriter) (h : Header) :
  rw_body (withHeader resp h) = rw_body resp.
Proof. reflexivity. Qed.

Lemma withHeader_sent (resp : ResponseWriter) (h : Header) :
  rw_sent (withHeader resp h) = rw_sent resp.
Proof. reflexivity. Qed.

Lemma withHeader_documents (resp : ResponseWriter) (h : Header) :
  rw_documents (withHeader resp h) = rw_documents resp.
Proof. reflexivity. Qed.

Lemma withHeader_header (resp : ResponseWriter) (h : Header) :
  rw_header (withHeader resp h) = h.
Proof. reflexivity. Qed.

Lemma Inc_body (resp : ResponseWriter) (l : DocStatus) :
  rw_body (Inc resp l) = rw_body resp.
Proof. reflexivity. Qed.

Lemma Inc_sent (resp : ResponseWriter) (l : DocStatus) :
  rw_sent (Inc resp l) = rw_sent resp.
Proof. reflexivity. Qed.

Lemma Inc_documents (resp : ResponseWriter) (l : DocStatus) :
  rw_documents (Inc resp l) = rw_documents resp ++ [l].
Proof. reflexivity. Qed.

Lemma WriteHeader_body (resp : ResponseWriter) (c : Z) :
  rw_body (WriteHeader resp c) = rw_body resp.
Proof. unfold WriteHeader. now destruct (rw_sent resp). Qed.

Lemma WriteHeader_documents (resp : ResponseWriter) (c : Z) :
  rw_documents (WriteHeader resp c) = rw_documents resp.
Proof. unfold WriteHeader. now destruct (rw_sent resp). Qed.

Lemma WriteHeader_sent_fresh (resp : ResponseWriter) (c : Z) :
  rw_sent resp = None -> rw_sent (WriteHeader resp c) = Some (c, rw_header resp).
Proof. unfold WriteHeader. now intros ->. Qed.

Lemma WriteHeader_sent_done (resp : ResponseWriter) (c : Z) (x : Z * Header) :
  rw_sent resp = Some x -> WriteHeader resp c = resp.
Proof. unfold WriteHeader. now intros ->. Qed.

Lemma WriteChunk_body (resp : ResponseWriter) (c : Chunk) :
  rw_body (WriteChunk resp c) = rw_body resp ++ [c].
Proof. unfold WriteChunk. cbn [rw_body]. now rewrite WriteHeader_body. Qed.

Lemma WriteChunk_documents (resp : ResponseWriter) (c : Chunk) :
  rw_documents (WriteChunk resp c) = rw_documents resp.
Proof. unfold WriteChunk. cbn [rw_documents]. apply WriteHeader_documents. Qed.

Lemma WriteChunk_sent_fresh (resp : ResponseWriter) (c : Chunk) :
  rw_sent resp = None -> rw_sent (WriteChunk resp c) = Some (200%Z, rw_header resp).
Proof. intros H. unfold WriteChunk. cbn [rw_sent]. now apply WriteHeader_sent_fresh. Qed.

Lemma WriteChunk_sent_done (resp : ResponseWriter) (c : Chunk) (x : Z * Header) :
  rw_sent resp = Some x -> rw_sent (WriteChunk resp c) = Some x.
Proof.
  intros H. unfold WriteChunk. cbn [rw_sent].
  now rewrite (WriteHeader_sent_done _ _ _ H).
Qed.

Lemma Write_body (resp : ResponseWriter) (b : string) :
  rw_body (Write resp b) = rw_body resp ++ [Raw b].
Proof. apply WriteChunk_body. Qed.

Lemma Write_sent (resp : ResponseWriter) (b : string) (x : Z * Header) :
  rw_sent resp = Some x -> rw_sent (Write resp b) = Some x.
Proof. apply WriteChunk_sent_done. Qed.

Lemma Write_documents (resp : ResponseWriter) (b : string) :
  rw_documents (Write resp b) = rw_documents resp.
Proof. apply WriteChunk_documents. Qed.

Lemma LogAndRespond_body (e : HTTPError) (resp : ResponseWriter) :
  rw_body (LogAndRespond e resp) = rw_body resp ++ [Raw (ExternalMsg e)].
Proof. unfold LogAndRespond. now rewrite Write_body, WriteHeader_body. Qed.

Lemma LogAndRespond_documents (e : HTTPError) (resp : ResponseWriter) :
  rw_documents (LogAndRespond e resp) = rw_documents resp.
Proof. unfold LogAndRespond. now rewrite Write_documents, WriteHeader_documents. Qed.

Lemma LogAndRespond_sent_fresh (e : HTTPError) (resp : ResponseWriter) :
  rw_sent resp = None ->
  rw_sent (LogAndRespond e resp) = Some (ErrStatusCode e, rw_header resp).
Proof.
  intros H. unfold LogAndRespond.
  apply Write_sent, WriteHeader_sent_fresh, H.
Qed.

Lemma LogAndRespond_sent_done (e : HTTPError) (resp : ResponseWriter) (x : Z * Header) :
  rw_sent resp = Some x -> rw_sent (LogAndRespond e resp) = Some x.
Proof.
  intros H. unfold LogAndRespond.
  rewrite (WriteHeader_sent_done _ _ _ H). now apply Write_sent.
Qed.

Create Rewrite HintDb writer.

#[local] Hint Rewrite withHeader_body withHeader_sent withHeader_documents
  withHeader_header Inc_body Inc_sent Inc_documents WriteHeader_body
  WriteHeader_documents WriteChunk_body WriteChunk_documents Write_body
  Write_documents LogAndRespond_body LogAndRespond_documents : writer.

(** Unfolds nothing but the pattern matches on constructors, then moves the
    projections of the writer inwards. *)
Ltac writer := cbv beta iota zeta; cbn [unread readErr]; autorewrite with writer.

Lemma bodyBytes_app (cs ds : list Chunk) (a b : string) :
  bodyBytes cs = Some a -> bodyBytes ds = Some b ->
  bodyBytes (cs ++ ds) = Some (a +:+ b).
Proof.
  revert a. induction cs as [|c cs IH]; intros a; simpl.
  - intros [= <-] ->. reflexivity.
  - destruct c as [x|]; [|discriminate].
    destruct (bodyBytes cs) as [a'|]; [|discriminate].
    simpl. intros [= <-] Hb. rewrite (IH a' eq_refl Hb). simpl.
    now rewrite append_assoc.
Qed.

Lemma bodyBytes_snoc (cs : list Chunk) (x a : string) :
  bodyBytes cs = Some a -> bodyBytes (cs ++ [Raw x]) = Some (a +:+ x).
Proof.
  intros H. rewrite (bodyBytes_app cs [Raw x] a (x +:+ "") H eq_refl).
  now rewrite append_nil_r.
Qed.

Lemma exchangeOf_raw (resp : ResponseWriter) (b : string) :
  bodyBytes (rw_body resp) = Some b -> exchangeOf resp = None.
Proof.
  unfold exchangeOf. destruct (rw_body resp) as [|[x|e] [|c cs]]; simpl; congruence.
Qed.

(** What a proxied response is: the upstream status and headers (over
    those already set), the body bytes, and the counter. *)
Lemma proxyImpl_clean (resp : ResponseWriter) (header : Header) (statusCode : Z)
    (prefix : option string) (rest : string) :
  rw_sent resp = None -> rw_body resp = [] ->
  let out := proxyImpl resp header statusCode prefix
               (Some {| unread := rest; readErr := false |}) in
  rw_sent out = Some (statusCode, header ∪ rw_header resp) /\
  bodyBytes (rw_body out) = Some (default "" prefix +:+ rest) /\
  rw_documents out = rw_documents resp ++ [proxied_unsigned].
Proof.
  intros Hs Hb. unfold proxyImpl, io_Copy.
  destruct prefix as [p|], rest as [|c rest]; writer; rewrite Hb;
    (split; [|split; [cbn; now rewrite ?append_nil_r | reflexivity]]).
  - apply Write_sent, WriteHeader_sent_fresh, Hs.
  - apply Write_sent, Write_sent, WriteHeader_sent_fresh, Hs.
  - apply WriteHeader_sent_fresh, Hs.
  - apply Write_sent, WriteHeader_sent_fresh, Hs.
Qed.

Lemma proxyConsumed_clean (resp : ResponseWriter) (f : consumedFetchResp) :
  rw_sent resp = None -> rw_body resp = [] ->
  rw_sent (proxyConsumed resp f) = Some (cStatusCode f, cHeader f ∪ rw_header resp) /\
  bodyBytes (rw_body (proxyConsumed resp f)) = Some (body f) /\
  rw_documents (proxyConsumed resp f) = rw_documents resp ++ [proxied_unsigned].
Proof.
  intros Hs Hb. unfold proxyConsumed, proxyImpl. writer. rewrite Hb.
  split; [|split; [cbn; now rewrite append_nil_r | reflexivity]].
  apply Write_sent, WriteHeader_sent_fresh, Hs.
Qed.

(** Proxying writes raw bytes only. *)
Lemma proxyImpl_raw (resp : ResponseWriter) (header : Header) (statusCode : Z)
    (prefix : option string) (suffix : option Reader) (b : string) :
  bodyBytes (rw_body resp) = Some b ->
  exists b', bodyBytes (rw_body (proxyImpl resp header statusCode prefix suffix)) = Some b'.
Proof.
  intros Hb. unfold proxyImpl, io_Copy.
  destruct prefix as [p|], suffix as [[[|c rest] []]|]; writer;
    try match goal with
        | |- context [if ?c then _ else _] => destruct c
        end; writer;
    eexists; repeat apply bodyBytes_snoc; exact Hb.
Qed.

(** ** The paths through [serveSignedExchange] *)

Lemma MiEncodePayload_inv (this : Signer) (e e' : Exchange) (n : Z) :
  MiEncodePayload this e n = Ok e' ->
  exists digest,
    ResponseHeaders e' =
      Header_Add (Header_Add (ResponseHeaders e) "Content-Encoding" "mi-sha256-03")
        "Digest" digest /\
    Signature e' = Signature e.
Proof.
  unfold MiEncodePayload. destruct (mice_Encode this e n) as [[encoded digest]|];
    [|discriminate].
  intros [= <-]. now exists digest.
Qed.

Lemma AddSignatureHeader_inv (this : Signer) (e e' : Exchange) (s : sx_Signer) :
  AddSignatureHeader this e s = Ok e' ->
  ResponseHeaders e' = ResponseHeaders e /\ Signature e' = Some s.
Proof.
  unfold AddSignatureHeader. destruct (sign_error this s e); [discriminate|].
  now intros [= <-].
Qed.

(** [serveSignedExchange] either writes a signed exchange, all steps having
    succeeded, or proxies the consumed response, whose body and status are
    those fetched. *)
Lemma serveSignedExchange_cases (this : Signer) (resp : ResponseWriter)
    (fetchResp : consumedFetchResp) (params : SXGParams) :
  (exists metadata e,
     signedSteps this fetchResp params metadata e /\
     serveSignedExchange this resp fetchResp params = writeSignedExchange resp params e)
  \/
  (exists h,
     serveSignedExchange this resp fetchResp params =
       proxyConsumed resp (withCHeader fetchResp h) /\
     (forall metadata e, ~ signedSteps this fetchResp params metadata e) /\
     proxiedHeader this (cHeader fetchResp) h).
Proof.
  unfold serveSignedExchange.
  fold (transformerRequest this fetchResp params).
  destruct (transformer_Process this (transformerRequest this fetchResp params))
    as [[transformed metadata]|m] eqn:Ht.
  2:{ right. exists (cHeader fetchResp). split; [now destruct fetchResp|].
      split; [|now left].
      intros md e ((? & ? & ? & ? & ? & H & _) & _). congruence. }
  destruct (formatLinkHeader this (Preloads metadata)) as [linkHeader [err|]] eqn:Hl.
  { right. exists (cHeader fetchResp). split; [now destruct fetchResp|].
    split; [|now left].
    intros md e ((? & ? & ? & ? & ? & H1 & H2 & _) & _).
    rewrite Ht in H1. injection H1 as <- <-. congruence. }
  cbn [cStatusCode cHeader withCHeader body].
  destruct (MiEncodePayload this _ miRecordSize) as [e0|m] eqn:Hm.
  2:{ right. eexists. split; [reflexivity|]. split; [|right; left; now eexists _, _].
      intros md e ((? & ? & ? & ? & ? & H1 & H2 & H3 & _) & _).
      rewrite Ht in H1. injection H1 as <- <-.
      rewrite Hl in H2. injection H2 as <-. congruence. }
  assert (Hh : proxiedHeader this (cHeader fetchResp) (ResponseHeaders e0)).
  { destruct (MiEncodePayload_inv _ _ _ _ Hm) as (digest & Hd & _).
    right; right. now exists linkHeader, transformed, digest. }
  destruct (genCertURL this (certHandler_GetLatestCert this) (signURL params))
    as [certURL|m] eqn:Hc.
  2:{ right. eexists. split; [reflexivity|]. split; [|exact Hh].
      intros md e ((? & ? & ? & ? & ? & _ & _ & _ & H & _) & _). congruence. }
  destruct (url_Parse this ValidityMapPath) as [validityHRef|m] eqn:Hv.
  2:{ right. eexists. split; [reflexivity|]. split; [|exact Hh].
      intros md e ((? & ? & ? & ? & ? & _ & _ & _ & _ & H & _) & _). congruence. }
  destruct (validityWindow (time_Now this) metadata) as [date expires] eqn:Hw.
  destruct (time_Now this <? expires)%Z eqn:Hexp; cbn [negb].
  2:{ right. eexists. split; [reflexivity|]. split; [|exact Hh].
      intros md e ((? & ? & ? & ? & ? & H1 & _) & H).
      rewrite Ht in H1. injection H1 as <- <-. rewrite Hw in H. cbn in H. congruence. }
  destruct (AddSignatureHeader this e0 _) as [e|m] eqn:Ha.
  2:{ right. eexists. split; [reflexivity|]. split; [|exact Hh].
      intros md e ((? & ? & ? & ? & ? & H1 & H2 & H3 & H4 & H5 & H & _) & _).
      rewrite Ht in H1. injection H1 as <- <-.
      rewrite Hl in H2. injection H2 as <-.
      rewrite Hm in H3. injection H3 as <-.
      rewrite Hc in H4. injection H4 as <-.
      rewrite Hv in H5. injection H5 as <-.
      rewrite Hw in H. cbn in H. congruence. }
  destruct (write_error this e) as [m|] eqn:Hwr.
  { right. eexists. split; [reflexivity|]. split; [|exact Hh].
    intros md e' ((? & ? & ? & ? & ? & H1 & H2 & H3 & H4 & H5 & H & H') & _).
    rewrite Ht in H1. injection H1 as <- <-.
    rewrite Hl in H2. injection H2 as <-.
    rewrite Hm in H3. injection H3 as <-.
    rewrite Hc in H4. injection H4 as <-.
    rewrite Hv in H5. injection H5 as <-.
    rewrite Hw in H. cbn in H. congruence. }
  left. exists metadata, e. split; [|reflexivity]. split.
  - exists transformed, linkHeader, e0, certURL, validityHRef.
    rewrite Hw. cbn. auto 10.
  - now rewrite Hw.
Qed.

(** The steps determine the metadata and the exchange. *)
Lemma packaged_functional (this : Signer) (f : consumedFetchResp) (params : SXGParams)
    (md md' : Metadata) (e e' : Exchange) :
  packaged this f params md e -> packaged this f params md' e' -> md = md' /\ e = e'.
Proof.
  intros (t & l & e0 & c & v & H1 & H2 & H3 & H4 & H5 & H6 & _)
         (t' & l' & e0' & c' & v' & H1' & H2' & H3' & H4' & H5' & H6' & _).
  rewrite H1 in H1'. injection H1' as <- <-.
  rewrite H2 in H2'. injection H2' as <-.
  rewrite H3 in H3'. injection H3' as <-.
  rewrite H4 in H4'. injection H4' as <-.
  rewrite H5 in H5'. injection H5' as <-.
  rewrite H6 in H6'. injection H6' as <-. auto.
Qed.

Lemma writeSignedExchange_clean (resp : ResponseWriter) (params : SXGParams) (e : Exchange) :
  rw_sent resp = None -> rw_body resp = [] ->
  let out := writeSignedExchange resp params e in
  exchangeOf out = Some e /\
  rw_documents out = rw_documents resp ++ [signed] /\
  exists h, rw_sent out = Some (200%Z, h) /\
            h !! "Content-Type" = Some [SxgContentType] /\
            forall k, k <> "Content-Type" -> k <> "Cache-Control" ->
                      k <> "X-Content-Type-Options" -> k <> "Amp-Cache-Transform" ->
                      h !! k = rw_header resp !! k.
Proof.
  intros Hs Hb. cbv zeta. unfold writeSignedExchange.
  set (resp0 := if String.eqb (ampCacheTransformHeader params) "" then resp else _).
  assert (H0 : rw_sent resp0 = None /\ rw_body resp0 = [] /\
               rw_documents resp0 = rw_documents resp /\
               forall k, k <> "Amp-Cache-Transform" ->
                         rw_header resp0 !! k = rw_header resp !! k).
  { subst resp0. destruct (String.eqb _ _); autorewrite with writer; [now auto|].
    repeat split; auto. intros k Hk. unfold Header_Set.
    change (CanonicalHeaderKey "AMP-Cache-Transform") with "Amp-Cache-Transform".
    now rewrite lookup_insert_ne by congruence. }
  destruct H0 as (Hs0 & Hb0 & Hd0 & Hh0). clearbody resp0.
  unfold exchangeOf. autorewrite with writer. rewrite Hb0, Hd0. cbn [app].
  split; [reflexivity|]. split; [reflexivity|].
  eexists. split.
  - rewrite WriteChunk_sent_fresh; [reflexivity|].
    now autorewrite with writer.
  - autorewrite with writer. unfold Header_Set.
    change (CanonicalHeaderKey "Content-Type") with "Content-Type".
    change (CanonicalHeaderKey "Cache-Control") with "Cache-Control".
    change (CanonicalHeaderKey "X-Content-Type-Options") with "X-Content-Type-Options".
    split.
    + rewrite !lookup_insert_ne by discriminate. now rewrite lookup_insert_eq.
    + intros k H1 H2 H3 H4. rewrite !lookup_insert_ne by congruence. now apply Hh0.
Qed.

(** ** Reading the body under the cap *)

Lemma take_drop_string (n : nat) (s : string) :
  take_string n s +:+ drop_string n s = s.
Proof.
  revert s. induction n as [|n IH]; intros [|c s]; try reflexivity.
  cbn [take_string drop_string]. now rewrite append_cons, IH.
Qed.

Lemma take_string_length (n : nat) (s : string) :
  (n <= String.length s)%nat -> String.length (take_string n s) = n.
Proof.
  revert s. induction n as [|n IH]; intros [|c s] H; try reflexivity.
  - simpl in H. lia.
  - simpl in *. rewrite IH; lia.
Qed.

Lemma maxSignableBodyLength_eq : maxSignableBodyLength = 4194304%Z.
Proof. reflexivity. Qed.

Lemma maxSignableBodyLength_pos : (0 <= maxSignableBodyLength)%Z.
Proof. now rewrite maxSignableBodyLength_eq. Qed.

#[local] Opaque maxSignableBodyLength.

Lemma consumeAndSign_capped (this : Signer) (resp : ResponseWriter) (fetchResp : Response)
    (params : SXGParams) :
  (maxSignableBodyLength <= Z.of_nat (String.length (unread (Body fetchResp))))%Z ->
  consumeAndSign this resp fetchResp params =
  proxyPartiallyConsumed resp
    (withBody fetchResp
       {| unread := drop_string (Z.to_nat maxSignableBodyLength) (unread (Body fetchResp));
          readErr := readErr (Body fetchResp) |})
    (take_string (Z.to_nat maxSignableBodyLength) (unread (Body fetchResp))).
Proof.
  intros H. unfold consumeAndSign, ReadAllLimited.
  destruct (Z.leb_spec maxSignableBodyLength
              (Z.of_nat (String.length (unread (Body fetchResp))))) as [_|Hlt];
    [|lia].
  cbv beta iota zeta.
  rewrite take_string_length.
  2:{ pose proof maxSignableBodyLength_pos. lia. }
  rewrite Z2Nat.id by apply maxSignableBodyLength_pos.
  now rewrite Z.eqb_refl.
Qed.

Lemma consumeAndSign_whole (this : Signer) (resp : ResponseWriter) (fetchResp : Response)
    (params : SXGParams) :
  (Z.of_nat (String.length (unread (Body fetchResp))) < maxSignableBodyLength)%Z ->
  consumeAndSign this resp fetchResp params =
  if readErr (Body fetchResp)
  then LogAndRespond (NewHTTPError StatusBadGateway "Error reading body: ") resp
  else serveSignedExchange this resp (consumed fetchResp) params.
Proof.
  intros H. unfold consumeAndSign, ReadAllLimited.
  destruct (Z.leb_spec maxSignableBodyLength
              (Z.of_nat (String.length (unread (Body fetchResp))))) as [Hle|_];
    [lia|].
  cbv beta iota zeta. destruct (readErr (Body fetchResp)); [reflexivity|].
  destruct (Z.eqb_spec (Z.of_nat (String.length (unread (Body fetchResp))))
              maxSignableBodyLength) as [Heq|_]; [lia|].
  reflexivity.
Qed.

(** [consumeAndSign] signs only a body that was read whole, without error,
    and is shorter than the cap. *)
Lemma consumeAndSign_signed (this : Signer) (resp : ResponseWriter) (fetchResp : Response)
    (params : SXGParams) (e : Exchange) :
  rw_sent resp = None -> rw_body resp = [] ->
  exchangeOf (consumeAndSign this resp fetchResp params) = Some e ->
  (Z.of_nat (String.length (unread (Body fetchResp))) < maxSignableBodyLength)%Z /\
  readErr (Body fetchResp) = false /\
  exists metadata, signedSteps this (consumed fetchResp) params metadata e.
Proof.
  intros Hs Hb He.
  destruct (Z.lt_ge_cases (Z.of_nat (String.length (unread (Body fetchResp))))
              maxSignableBodyLength) as [Hlt|Hge].
  - rewrite (consumeAndSign_whole _ _ _ _ Hlt) in He.
    destruct (readErr (Body fetchResp)).
    + rewrite (exchangeOf_raw _ ("" +:+ "Error reading body: ")) in He; [discriminate|].
      rewrite LogAndRespond_body. apply bodyBytes_snoc. now rewrite Hb.
    + split; [exact Hlt|]. split; [reflexivity|].
      destruct (serveSignedExchange_cases this resp (consumed fetchResp) params)
        as [(md & e' & Hsteps & Heq)|(h & Heq & _ & _)]; rewrite Heq in He.
      * destruct (writeSignedExchange_clean resp params e' Hs Hb) as (He' & _).
        rewrite He' in He. injection He as <-. now exists md.
      * destruct (proxyConsumed_clean resp (withCHeader (consumed fetchResp) h) Hs Hb)
          as (_ & Hbytes & _).
        now rewrite (exchangeOf_raw _ _ Hbytes) in He.
  - rewrite (consumeAndSign_capped _ _ _ _ Hge) in He.
    destruct (proxyImpl_raw resp (RespHeader fetchResp) (StatusCode fetchResp)
                (Some (take_string (Z.to_nat maxSignableBodyLength) (unread (Body fetchResp))))
                (Some {| unread := drop_string (Z.to_nat maxSignableBodyLength)
                                     (unread (Body fetchResp));
                         readErr := readErr (Body fetchResp) |}) "")
      as (b' & Hb'); [now rewrite Hb|].
    unfold proxyPartiallyConsumed in He. cbn [withBody RespHeader StatusCode Body] in He.
    now rewrite (exchangeOf_raw _ _ Hb') in He.
Qed.

(** ** The paths through [ServeHTTP] *)

Lemma varyResponse_fresh (resp : ResponseWriter) :
  rw_sent resp = None -> rw_body resp = [] ->
  rw_sent (varyResponse resp) = None /\ rw_body (varyResponse resp) = [].
Proof. now intros Hs Hb. Qed.

Lemma exchangeOf_LogAndRespond (e : HTTPError) (resp : ResponseWriter) :
  rw_body resp = [] -> exchangeOf (LogAndRespond e resp) = None.
Proof.
  intros Hb. apply (exchangeOf_raw _ ("" +:+ ExternalMsg e)).
  rewrite LogAndRespond_body. apply bodyBytes_snoc. now rewrite Hb.
Qed.

Lemma exchangeOf_proxyUnconsumed (resp : ResponseWriter) (fetchResp : Response) :
  rw_body resp = [] -> exchangeOf (proxyUnconsumed resp fetchResp) = None.
Proof.
  intros Hb.
  destruct (proxyImpl_raw resp (RespHeader fetchResp) (StatusCode fetchResp) None
              (Some (Body fetchResp)) "") as (b & H); [now rewrite Hb|].
  apply (exchangeOf_raw _ _ H).
Qed.

(** A request that passes the gates is handed to [consumeAndSign]. *)
Lemma ServeHTTP_admitted (this : Signer) (resp : ResponseWriter) (req : Request)
    (fetchResp : Response) (params : SXGParams) :
  admitted this req fetchResp params ->
  ServeHTTP this resp req = consumeAndSign this (varyResponse resp) fetchResp params.
Proof.
  intros (fetchReq & eos & (form & fetch & sign & fetchURL & Hf & Hfs & Hp & Hfetch & Hsp & Hn)
          & Hst & Hv & Hsf & Hvar).
  unfold ServeHTTP. fold (varyResponse resp).
  rewrite Hf, Hfs, Hp, Hfetch, Hsp, Hn, Hst, Hv, Hsf, Hvar.
  cbn [Z.eqb Pos.eqb]. now destruct params.
Qed.

(** A [304] that gets as far as the switch on the status is answered with
    the copied headers and no body. *)
Lemma ServeHTTP_not_modified (this : Signer) (resp : ResponseWriter) (req fetchReq : Request)
    (fetchResp : Response) (signURL : URL) (eos : bool) (act : string) (tv : Z) :
  reachesDispatch this req fetchReq fetchResp signURL eos act tv ->
  StatusCode fetchResp = 304%Z ->
  ServeHTTP this resp req =
  WriteHeader
    (withHeader (varyResponse resp)
       (fold_left (copyNotModifiedHeader (RespHeader fetchResp)) statusNotModifiedHeaders
          (rw_header (varyResponse resp))))
    StatusNotModified.
Proof.
  intros (form & fetch & sign & fetchURL & Hf & Hfs & Hp & Hfetch & Hsp & Hn) Hst.
  unfold ServeHTTP. fold (varyResponse resp).
  rewrite Hf, Hfs, Hp, Hfetch, Hsp, Hn, Hst. reflexivity.
Qed.

(** Only an admitted response that [consumeAndSign] signs gives a signed
    exchange. *)
Lemma ServeHTTP_signed (this : Signer) (resp : ResponseWriter) (req : Request) (e : Exchange) :
  rw_sent resp = None -> rw_body resp = [] ->
  exchangeOf (ServeHTTP this resp req) = Some e ->
  exists fetchResp params,
    admitted this req fetchResp params /\
    exchangeOf (consumeAndSign this (varyResponse resp) fetchResp params) = Some e.
Proof.
  intros Hs Hb.
  destruct (varyResponse_fresh resp Hs Hb) as [Hs' Hb'].
  unfold ServeHTTP. fold (varyResponse resp).
  destruct (ParsedForm req) as [form|] eqn:Hf;
    [|now rewrite exchangeOf_LogAndRespond].
  destruct (fetchAndSign req form) as [err|[fetch sign]] eqn:Hfs;
    [now rewrite exchangeOf_LogAndRespond|].
  destruct (parseURLs this fetch sign) as [err|[[fetchURL sURL] eos]] eqn:Hp;
    [now rewrite exchangeOf_LogAndRespond|].
  destruct (fetchURLAndMeasure this fetchURL req) as [err|[fetchReq fetchResp]] eqn:Hfetch;
    [now rewrite exchangeOf_LogAndRespond|].
  destruct (shouldPackage this) eqn:Hsp;
    [now rewrite exchangeOf_proxyUnconsumed|].
  destruct (negotiate this req) as [[act tv]|] eqn:Hn;
    [|now rewrite exchangeOf_proxyUnconsumed].
  destruct (Z.eqb_spec (StatusCode fetchResp) 200) as [Hst|Hst].
  - destruct (validateFetch this fetchReq fetchResp) eqn:Hv;
      [now rewrite exchangeOf_proxyUnconsumed|].
    destruct (eos && hasStatefulHeader (RespHeader fetchResp)) eqn:Hsf;
      [now rewrite exchangeOf_proxyUnconsumed|].
    destruct (hasVariants (RespHeader fetchResp)) eqn:Hvar;
      [now rewrite exchangeOf_proxyUnconsumed|].
    intros He. eexists fetchResp, _. split; [|exact He].
    exists fetchReq, eos. cbn [signURL ampCacheTransformHeader transformVersion].
    repeat split; auto. now exists form, fetch, sign, fetchURL.
  - destruct (StatusCode fetchResp =? 304)%Z;
      [|now rewrite exchangeOf_proxyUnconsumed].
    unfold exchangeOf. autorewrite with writer. now rewrite Hb'.
Qed.

(** ** Header maps *)

Lemma Header_Set_ne (h : Header) (key value k : string) :
  k <> CanonicalHeaderKey key -> Header_Set h key value !! k = h !! k.
Proof. intros H. unfold Header_Set. now rewrite lookup_insert_ne by congruence. Qed.

Lemma Header_Add_ne (h : Header) (key value k : string) :
  k <> CanonicalHeaderKey key -> Header_Add h key value !! k = h !! k.
Proof. intros H. unfold Header_Add. cbv zeta. now rewrite lookup_insert_ne by congruence. Qed.

Lemma Header_Del_ne (h : Header) (key k : string) :
  k <> CanonicalHeaderKey key -> Header_Del h key !! k = h !! k.
Proof. intros H. unfold Header_Del. now rewrite lookup_delete_ne by congruence. Qed.

Lemma Header_Del_eq (h : Header) (key : string) :
  Header_Del h key !! CanonicalHeaderKey key = None.
Proof. unfold Header_Del. apply lookup_delete_eq. Qed.

Lemma fold_Header_Del_None (names : list string) (h : Header) (k : string) :
  h !! k = None \/ In k (map CanonicalHeaderKey names) ->
  fold_left Header_Del names h !! k = None.
Proof.
  revert h. induction names as [|n names IH]; intros h; cbn [fold_left map].
  - now intros [H|[]].
  - intros H. apply IH. unfold Header_Del.
    destruct H as [H|[<-|H]]; [left | left | now right].
    + apply lookup_delete_None. now right.
    + apply lookup_delete_eq.
Qed.

Lemma fold_Header_Del_in (names : list string) (h : Header) (name : string) :
  In name names -> fold_left Header_Del names h !! CanonicalHeaderKey name = None.
Proof. intros H. apply fold_Header_Del_None. right. now apply in_map. Qed.

Lemma fold_Header_Del_Some (names : list string) (h : Header) (k : string) (v : list string) :
  fold_left Header_Del names h !! k = Some v -> h !! k = Some v.
Proof.
  revert h. induction names as [|n names IH]; intros h; cbn [fold_left]; [auto|].
  intros H. apply IH in H. unfold Header_Del in H.
  apply lookup_delete_Some in H. tauto.
Qed.

Lemma valid_lowerByte (c : ascii) :
  validHeaderFieldByte (lowerByte c) = validHeaderFieldByte c.
Proof. destruct c as [[] [] [] [] [] [] [] []]; reflexivity. Qed.

Lemma canonical_lowerByte (upper : bool) (c : ascii) :
  (if upper then upperByte (lowerByte c) else lowerByte (lowerByte c)) =
  (if upper then upperByte c else lowerByte c).
Proof. destruct upper, c as [[] [] [] [] [] [] [] []]; reflexivity. Qed.

Lemma forall_valid_lower (s : string) :
  forall_string validHeaderFieldByte (map_string lowerByte s) =
  forall_string validHeaderFieldByte s.
Proof.
  induction s as [|c s IH]; [reflexivity|].
  cbn [map_string forall_string]. now rewrite valid_lowerByte, IH.
Qed.

Lemma canonicalLoop_lower (upper : bool) (s : string) :
  canonicalLoop upper (map_string lowerByte s) = canonicalLoop upper s.
Proof.
  revert upper. induction s as [|c s IH]; intros upper; [reflexivity|].
  cbn [map_string canonicalLoop]. now rewrite canonical_lowerByte, IH.
Qed.

(** The canonical form depends on the name up to case only. *)
Lemma CanonicalHeaderKey_fold (a b : string) :
  sameHeaderName a b -> forall_string validHeaderFieldByte b = true ->
  CanonicalHeaderKey a = CanonicalHeaderKey b.
Proof.
  intros Hab Hb. unfold CanonicalHeaderKey.
  rewrite <- (forall_valid_lower a), Hab, forall_valid_lower, Hb.
  now rewrite <- (canonicalLoop_lower true a), Hab, canonicalLoop_lower.
Qed.

Lemma canonicalKeys_spec (h : Header) : canonicalKeys h = true -> keysCanonical h.
Proof.
  unfold canonicalKeys. intros H k v Hk.
  rewrite forallb_forall in H.
  apply String.eqb_eq. apply (H (k, v)).
  apply list_elem_of_In. now apply elem_of_map_to_list.
Qed.

Lemma Header_Set_canonical (h : Header) (key value : string) :
  CanonicalHeaderKey (CanonicalHeaderKey key) = CanonicalHeaderKey key ->
  keysCanonical h -> keysCanonical (Header_Set h key value).
Proof.
  intros Hk Hh k v. unfold Header_Set. rewrite lookup_insert.
  case_decide as E; [now intros _; subst k | apply Hh].
Qed.

Lemma Header_Add_canonical (h : Header) (key value : string) :
  CanonicalHeaderKey (CanonicalHeaderKey key) = CanonicalHeaderKey key ->
  keysCanonical h -> keysCanonical (Header_Add h key value).
Proof.
  intros Hk Hh k v. unfold Header_Add. cbv zeta. rewrite lookup_insert.
  case_decide as E; [now intros _; subst k | apply Hh].
Qed.

Lemma Header_Del_canonical (h : Header) (key : string) :
  keysCanonical h -> keysCanonical (Header_Del h key).
Proof.
  intros Hh k v H. unfold Header_Del in H. apply lookup_delete_Some in H.
  now apply (Hh k v).
Qed.

Lemma stateful_not_written (name : string) :
  In name statefulResponseHeaders ->
  forall_string validHeaderFieldByte name = true /\
  forall w, In w writtenInnerHeaders -> CanonicalHeaderKey name <> CanonicalHeaderKey w.
Proof.
  intros H.
  repeat (destruct H as [<-|H];
          [split; [reflexivity|];
           intros w Hw;
           repeat (destruct Hw as [<-|Hw]; [vm_compute; discriminate|]);
           destruct Hw |]).
  destruct H.
Qed.

(** After the mutations no stateful header is left under its canonical
    key. *)
Lemma mutateFetchedHeader_stateful (this : Signer) (h : Header)
    (linkHeader transformed name : string) :
  In name statefulResponseHeaders ->
  mutateFetchedHeader this h linkHeader transformed !! CanonicalHeaderKey name = None.
Proof.
  intros Hin. destruct (stateful_not_written name Hin) as [_ Hw].
  unfold mutateFetchedHeader. cbv zeta.
  rewrite !Header_Set_ne by (apply Hw; cbn; tauto).
  destruct (String.eqb linkHeader "").
  - rewrite Header_Del_ne by (apply Hw; cbn; tauto). now apply fold_Header_Del_in.
  - rewrite Header_Set_ne by (apply Hw; cbn; tauto). now apply fold_Header_Del_in.
Qed.

Lemma mutateFetchedHeader_canonical (this : Signer) (h : Header)
    (linkHeader transformed : string) :
  keysCanonical h -> keysCanonical (mutateFetchedHeader this h linkHeader transformed).
Proof.
  intros Hh. unfold mutateFetchedHeader. cbv zeta.
  repeat (apply Header_Set_canonical; [reflexivity|]).
  assert (Hd : keysCanonical (fold_left Header_Del statefulResponseHeaders h)).
  { intros k v Hk. apply fold_Header_Del_Some in Hk. now apply (Hh k v). }
  destruct (String.eqb linkHeader "").
  - now apply Header_Del_canonical.
  - now apply Header_Set_canonical.
Qed.

(** The inner response headers of an exchange that was signed. *)
Lemma signedSteps_headers (this : Signer) (f : consumedFetchResp) (params : SXGParams)
    (metadata : Metadata) (e : Exchange) :
  signedSteps this f params metadata e ->
  exists linkHeader transformed digest,
    ResponseHeaders e =
      Header_Add
        (Header_Add (mutateFetchedHeader this (cHeader f) linkHeader transformed)
           "Content-Encoding" "mi-sha256-03")
        "Digest" digest.
Proof.
  intros ((transformed & linkHeader & e0 & certURL & validityHRef &
           _ & _ & Hm & _ & _ & Ha & _) & _).
  apply MiEncodePayload_inv in Hm as (digest & Hh & _).
  apply AddSignatureHeader_inv in Ha as (Hh' & _).
  exists linkHeader, transformed, digest. now rewrite Hh', Hh.
Qed.

(** ** The scenarios pass the gates *)

Lemma example_fetch (upstream : Response) (preloads : list Metadata_Preload) (m : Z)
    (u : URL) :
  fetchURLAndMeasure (exampleSigner upstream preloads m) u (exampleRequest signForm ∅)
  = inr (exampleFetchRequest, exampleFetched upstream).
Proof. vm_compute. reflexivity. Qed.

Lemma exampleFetched_id :
  exampleFetched plainUpstream = plainUpstream /\
  exampleFetched cookieUpstream = cookieUpstream /\
  exampleFetched notModifiedUpstream = notModifiedUpstream.
Proof. repeat split; vm_compute; reflexivity. Qed.

Lemma example_reachesDispatch (upstream : Response) (preloads : list Metadata_Preload) (m : Z) :
  reachesDispatch (exampleSigner upstream preloads m) (exampleRequest signForm ∅)
    exampleFetchRequest (exampleFetched upstream) (exampleURL "/doc.html") false "google" 5.
Proof.
  exists signForm, "", "/doc.html", (exampleURL "/doc.html").
  split; [reflexivity|].
  split; [vm_compute; reflexivity|].
  split; [reflexivity|].
  split; [apply example_fetch|].
  split; [reflexivity|].
  vm_compute. reflexivity.
Qed.

Lemma example_admitted (upstream : Response) (preloads : list Metadata_Preload) (m : Z) :
  StatusCode upstream = 200%Z ->
  hasVariants (RespHeader (exampleFetched upstream)) = false ->
  admitted (exampleSigner upstream preloads m) (exampleRequest signForm ∅)
    (exampleFetched upstream) exampleParams.
Proof.
  intros Hst Hvar. exists exampleFetchRequest, false.
  split; [apply example_reachesDispatch|].
  split; [exact Hst|]. split; [reflexivity|]. split; [reflexivity | exact Hvar].
Qed.

(** ** C1: no stateful header in a signed exchange *)

(** C1.  Whenever the handler answers with a signed exchange, the inner
    response headers of that exchange hold none of the thirteen stateful
    headers, whatever the upstream response carried: there is no entry
    under the canonical key of any of them, so [Get] and [GetJoined] give
    the empty string; and when the fetched header map has canonical keys,
    as the maps built by the HTTP client have, there is no entry under any
    key that equals one of the names up to case. *)
Theorem signed_exchange_has_no_stateful_header (this : Signer) (req : Request) (e : Exchange) :
  exchangeOf (ServeHTTP this newResponseWriter req) = Some e ->
  statefulResponseHeaders = statefulHeadersOfSection6 /\
  length statefulResponseHeaders = 13%nat /\
  (forall name, In name statefulResponseHeaders ->
     ResponseHeaders e !! CanonicalHeaderKey name = None /\
     Header_Get (ResponseHeaders e) name = "" /\
     GetJoined (ResponseHeaders e) name = "") /\
  ((forall u fetchReq fetchResp,
      fetchURLAndMeasure this u req = inr (fetchReq, fetchResp) ->
      canonicalKeys (RespHeader fetchResp) = true) ->
   forall k name, In name statefulResponseHeaders -> sameHeaderName k name ->
     ResponseHeaders e !! k = None).
Proof.
  intros He.
  apply ServeHTTP_signed in He as (fetchResp & params & Hadm & He); [|reflexivity..].
  apply consumeAndSign_signed in He as (_ & _ & md & Hsteps); [|reflexivity..].
  destruct (signedSteps_headers _ _ _ _ _ Hsteps) as (link & tr & digest & Hh).
  assert (H1 : forall name, In name statefulResponseHeaders ->
                 ResponseHeaders e !! CanonicalHeaderKey name = None).
  { intros name Hin. destruct (stateful_not_written name Hin) as [_ Hw].
    rewrite Hh, !Header_Add_ne by (apply Hw; cbn; tauto).
    now apply mutateFetchedHeader_stateful. }
  split; [reflexivity|]. split; [reflexivity|].
  split.
  - intros name Hin. split; [now apply H1|].
    unfold Header_Get, GetJoined. now rewrite (H1 name Hin).
  - intros Hcanon k name Hin Hsame.
    destruct (ResponseHeaders e !! k) as [v|] eqn:E; [exfalso | reflexivity].
    assert (Hk : keysCanonical (ResponseHeaders e)).
    { rewrite Hh. do 2 (apply Header_Add_canonical; [reflexivity|]).
      apply mutateFetchedHeader_canonical, canonicalKeys_spec.
      destruct Hadm as (fetchReq & eos & (form & fetch & sign & fetchURL & Hd) & _).
      apply (Hcanon fetchURL fetchReq). tauto. }
    destruct (stateful_not_written name Hin) as [Hvalid _].
    rewrite <- (Hk k v E), (CanonicalHeaderKey_fold k name Hsame Hvalid) in E.
    rewrite (H1 name Hin) in E. discriminate.
Qed.

Lemma signed_exchange_has_no_stateful_header_witness :
  exchangeOf happyResponse = Some happyExchange /\
  (forall name, In name statefulResponseHeaders ->
     ResponseHeaders happyExchange !! CanonicalHeaderKey name = None /\
     Header_Get (ResponseHeaders happyExchange) name = "" /\
     GetJoined (ResponseHeaders happyExchange) name = "") /\
  (forall k name, In name statefulResponseHeaders -> sameHeaderName k name ->
     ResponseHeaders happyExchange !! k = None).
Proof.
  assert (He : exchangeOf happyResponse = Some happyExchange) by (vm_compute; reflexivity).
  split; [exact He|].
  destruct (signed_exchange_has_no_stateful_header
              (exampleSigner cookieUpstream [] 90000) (exampleRequest signForm ∅)
              happyExchange He) as (_ & _ & H1 & H2).
  split; [exact H1|].
  apply H2. intros u fetchReq fetchResp H. rewrite example_fetch in H.
  injection H as _ <-. vm_compute. reflexivity.
Defined.

(** ** C2: the validity window *)

Lemma wrap64_small (x : Z) : (- 2 ^ 63 <= x < 2 ^ 63)%Z -> wrap64 x = x.
Proof. intros H. unfold wrap64. rewrite Z.mod_small; lia. Qed.

(** Whatever the metadata, the window starts a day before the clock and is
    at most seven days long. *)
Lemma validityWindow_bound (now : Z) (metadata : Metadata) :
  fst (validityWindow now metadata) = (now - 24 * Hour)%Z /\
  (snd (validityWindow now metadata) - fst (validityWindow now metadata)
     <= 7 * 24 * 3600 * Second)%Z.
Proof.
  unfold validityWindow, Hour, Second. cbn [fst snd].
  destruct (Z.ltb_spec (wrap64 (MaxAgeSecs metadata * 1000000000)) (7 * 24 * (3600 * 1000000000)));
    lia.
Qed.

(** With a maximum age in the range of its type the multiplication does
    not wrap, and the window is as long as the smaller of seven days and
    that age. *)
Lemma validityWindow_spec (now : Z) (metadata : Metadata) :
  int32 (MaxAgeSecs metadata) ->
  validityWindow now metadata =
  ((now - 24 * Hour)%Z,
   (now - 24 * Hour + Z.min (7 * 24 * Hour) (MaxAgeSecs metadata * Second))%Z).
Proof.
  unfold int32, validityWindow, Hour, Second. intros H.
  rewrite wrap64_small by lia.
  destruct (Z.ltb_spec (MaxAgeSecs metadata * 1000000000) (7 * 24 * (3600 * 1000000000)));
    f_equal; lia.
Qed.

Lemma packaged_signature (this : Signer) (f : consumedFetchResp) (params : SXGParams)
    (metadata : Metadata) (e : Exchange) :
  packaged this f params metadata e ->
  exists s, Signature e = Some s /\
            Date s = fst (validityWindow (time_Now this) metadata) /\
            Expires s = snd (validityWindow (time_Now this) metadata).
Proof.
  intros (t & l & e0 & c & v & _ & _ & _ & _ & _ & Ha & _).
  apply AddSignatureHeader_inv in Ha as (_ & Hs).
  eexists. split; [exact Hs|]. split; reflexivity.
Qed.

Lemma packaged_metadata (this : Signer) (f : consumedFetchResp) (params : SXGParams)
    (metadata md : Metadata) (transformed : string) (e : Exchange) :
  transformer_Process this (transformerRequest this f params) = Ok (transformed, metadata) ->
  packaged this f params md e -> md = metadata.
Proof.
  intros Ht (t & l & e0 & c & v & Ht' & _). rewrite Ht in Ht'. congruence.
Qed.

(** C2.  Let the transformer report a maximum age within the range of its
    type.  Every signed exchange [serveSignedExchange] serializes has a
    signature with [date = now - 24h] and
    [expires = date + min(7 days, max_age_secs seconds)], so that
    [expires - date] is at most [7*24*3600] seconds, and [expires] is after
    [now].  When the computed [expires] is not after [now], no exchange is
    written: the response is the consumed upstream response, proxied
    unsigned with its status and body. *)
Theorem signature_validity_window (this : Signer) (resp : ResponseWriter)
    (fetchResp : consumedFetchResp) (params : SXGParams)
    (transformed : string) (metadata : Metadata) :
  rw_sent resp = None -> rw_body resp = [] ->
  transformer_Process this (transformerRequest this fetchResp params)
    = Ok (transformed, metadata) ->
  int32 (MaxAgeSecs metadata) ->
  let now := time_Now this in
  let date := (now - 24 * Hour)%Z in
  let expires := (date + Z.min (7 * 24 * Hour) (MaxAgeSecs metadata * Second))%Z in
  let out := serveSignedExchange this resp fetchResp params in
  (forall e, exchangeOf out = Some e ->
     exists s, Signature e = Some s /\
               Date s = date /\ Expires s = expires /\
               (Expires s - Date s <= 7 * 24 * 3600 * Second)%Z /\
               (now < Expires s)%Z) /\
  ((expires <= now)%Z ->
     exchangeOf out = None /\
     bodyBytes (rw_body out) = Some (body fetchResp) /\
     (exists h, rw_sent out = Some (cStatusCode fetchResp, h ∪ rw_header resp) /\
                proxiedHeader this (cHeader fetchResp) h) /\
     rw_documents out = rw_documents resp ++ [proxied_unsigned]).
Proof.
  intros Hs Hb Ht Hm. cbv zeta.
  pose proof (validityWindow_spec (time_Now this) metadata Hm) as Hw.
  pose proof (validityWindow_bound (time_Now this) metadata) as [_ Hbound].
  destruct (serveSignedExchange_cases this resp fetchResp params)
    as [(md & e' & [Hp Hlt] & Heq)|(h & Heq & Hno & Hh)]; rewrite Heq.
  - destruct (writeSignedExchange_clean resp params e' Hs Hb) as (He' & _).
    assert (md = metadata) by exact (packaged_metadata _ _ _ _ _ _ _ Ht Hp). subst md.
    rewrite Hw in Hlt, Hbound. cbn [fst snd] in Hlt, Hbound.
    apply Z.ltb_lt in Hlt. split; [|lia].
    intros e He. rewrite He' in He. injection He as <-.
    destruct (packaged_signature _ _ _ _ _ Hp) as (s & Hsig & Hd & He).
    rewrite Hw in Hd, He. cbn [fst snd] in Hd, He.
    exists s. rewrite Hd, He. repeat split; auto.
  - destruct (proxyConsumed_clean resp (withCHeader fetchResp h) Hs Hb)
      as (Hsent & Hbytes & Hdocs).
    split.
    + intros e He. now rewrite (exchangeOf_raw _ _ Hbytes) in He.
    + intros _. split; [exact (exchangeOf_raw _ _ Hbytes)|].
      split; [exact Hbytes|]. split; [|exact Hdocs]. exists h. now split.
Qed.

Lemma signature_validity_window_witness :
  let this := exampleSigner cookieUpstream [] 90000 in
  let out := serveSignedExchange this (varyResponse newResponseWriter)
               (consumed cookieUpstream) exampleParams in
  exchangeOf out = Some happyExchange /\
  exists s, Signature happyExchange = Some s /\
            Date s = (1700000000 * Second - 24 * Hour)%Z /\
            Expires s = (1700000000 * Second - 24 * Hour + 90000 * Second)%Z /\
            (Expires s - Date s <= 7 * 24 * 3600 * Second)%Z /\
            (1700000000 * Second < Expires s)%Z.
Proof.
  cbv zeta.
  assert (He : exchangeOf
                 (serveSignedExchange (exampleSigner cookieUpstream [] 90000)
                    (varyResponse newResponseWriter) (consumed cookieUpstream) exampleParams)
               = Some happyExchange) by (vm_compute; reflexivity).
  split; [exact He|].
  assert (Hm : int32 (MaxAgeSecs {| Preloads := []; MaxAgeSecs := 90000 |}))
    by (unfold int32; cbn; lia).
  exact (proj1 (signature_validity_window (exampleSigner cookieUpstream [] 90000)
                  (varyResponse newResponseWriter) (consumed cookieUpstream) exampleParams
                  exampleBody {| Preloads := []; MaxAgeSecs := 90000 |}
                  eq_refl eq_refl eq_refl Hm) happyExchange He).
Defined.

(** ** C3: a body that reaches the cap is proxied *)

Lemma repeat_string_length (c : ascii) (n : nat) :
  String.length (repeat_string c n) = n.
Proof. induction n as [|n IH]; [reflexivity|]. cbn [repeat_string String.length]. now rewrite IH. Qed.

(** C3.  When the fetched body has [maxSignableBodyLength] bytes (4 MiB) or
    more and streams without error, [consumeAndSign] proxies the response
    unsigned: the client gets the upstream status and headers and the whole
    body, the prefix read under the cap followed by the rest of the stream.
    A body of exactly 4 MiB is among these: it is not signed. *)
Theorem oversized_body_is_proxied (this : Signer) (resp : ResponseWriter)
    (fetchResp : Response) (params : SXGParams) (data : string) :
  rw_sent resp = None -> rw_body resp = [] ->
  Body fetchResp = {| unread := data; readErr := false |} ->
  (maxSignableBodyLength <= Z.of_nat (String.length data))%Z ->
  let out := consumeAndSign this resp fetchResp params in
  maxSignableBodyLength = (4 * 1024 * 1024)%Z /\
  rw_sent out = Some (StatusCode fetchResp, RespHeader fetchResp ∪ rw_header resp) /\
  bodyBytes (rw_body out) = Some data /\
  rw_body out =
    Raw (take_string (Z.to_nat maxSignableBodyLength) data) ::
    match drop_string (Z.to_nat maxSignableBodyLength) data with
    | "" => []
    | rest => [Raw rest]
    end /\
  exchangeOf out = None /\
  rw_documents out = rw_documents resp ++ [proxied_unsigned].
Proof.
  intros Hs Hb Hbody Hlen. cbv zeta.
  split; [apply maxSignableBodyLength_eq|].
  rewrite consumeAndSign_capped by (now rewrite Hbody).
  rewrite Hbody. cbn [unread readErr].
  unfold proxyPartiallyConsumed. cbn [withBody RespHeader StatusCode Body].
  destruct (proxyImpl_clean resp (RespHeader fetchResp) (StatusCode fetchResp)
              (Some (take_string (Z.to_nat maxSignableBodyLength) data))
              (drop_string (Z.to_nat maxSignableBodyLength) data) Hs Hb)
    as (Hsent & Hbytes & Hdocs).
  cbv beta iota delta [default from_option id] in Hbytes.
  rewrite take_drop_string in Hbytes.
  split; [exact Hsent|]. split; [exact Hbytes|].
  split; [|split; [exact (exchangeOf_raw _ _ Hbytes) | exact Hdocs]].
  unfold proxyImpl, io_Copy.
  destruct (drop_string (Z.to_nat maxSignableBodyLength) data); writer;
    now rewrite Hb.
Qed.

(** The same from the handler's side: once a body of 4 MiB or more is
    fetched with a status other than [304], every gate and [consumeAndSign]
    alike end in the proxy, and the client gets the upstream status, the
    upstream headers over the handler's [Vary], and the whole body. *)
Lemma oversized_body_through_ServeHTTP (this : Signer) (req fetchReq : Request)
    (fetchResp : Response) (form : gmap string (list string)) (fetch sign : string)
    (fetchURL sURL : URL) (eos : bool) (data : string) :
  ParsedForm req = Some form ->
  fetchAndSign req form = inr (fetch, sign) ->
  parseURLs this fetch sign = inr (fetchURL, sURL, eos) ->
  fetchURLAndMeasure this fetchURL req = inr (fetchReq, fetchResp) ->
  Body fetchResp = {| unread := data; readErr := false |} ->
  (maxSignableBodyLength <= Z.of_nat (String.length data))%Z ->
  StatusCode fetchResp <> 304%Z ->
  let out := ServeHTTP this newResponseWriter req in
  rw_sent out =
    Some (StatusCode fetchResp,
          RespHeader fetchResp ∪ rw_header (varyResponse newResponseWriter)) /\
  bodyBytes (rw_body out) = Some data /\
  rw_documents out = [proxied_unsigned].
Proof.
  intros Hf Hfs Hp Hfetch Hbody Hlen Hst. cbv zeta.
  unfold ServeHTTP. fold (varyResponse newResponseWriter).
  rewrite Hf, Hfs, Hp, Hfetch.
  assert (Hu : let out := proxyUnconsumed (varyResponse newResponseWriter) fetchResp in
               rw_sent out =
                 Some (StatusCode fetchResp,
                       RespHeader fetchResp ∪ rw_header (varyResponse newResponseWriter)) /\
               bodyBytes (rw_body out) = Some data /\
               rw_documents out = [proxied_unsigned]).
  { unfold proxyUnconsumed. rewrite Hbody.
    exact (proxyImpl_clean (varyResponse newResponseWriter) (RespHeader fetchResp)
             (StatusCode fetchResp) None data eq_refl eq_refl). }
  cbv zeta in Hu.
  destruct (shouldPackage this); [exact Hu|].
  destruct (negotiate this req) as [[act tv]|]; [|exact Hu].
  destruct (StatusCode fetchResp =? 200)%Z.
  - destruct (validateFetch this fetchReq fetchResp); [exact Hu|].
    destruct (eos && hasStatefulHeader (RespHeader fetchResp)); [exact Hu|].
    destruct (hasVariants (RespHeader fetchResp)); [exact Hu|].
    rewrite consumeAndSign_capped by (now rewrite Hbody).
    rewrite Hbody. cbn [unread readErr].
    unfold proxyPartiallyConsumed. cbn [withBody RespHeader StatusCode Body].
    destruct (proxyImpl_clean (varyResponse newResponseWriter) (RespHeader fetchResp)
                (StatusCode fetchResp)
                (Some (take_string (Z.to_nat maxSignableBodyLength) data))
                (drop_string (Z.to_nat maxSignableBodyLength) data) eq_refl eq_refl)
      as (Hsent & Hbytes & Hdocs).
    cbv beta iota delta [default from_option id] in Hbytes.
    rewrite take_drop_string in Hbytes. auto.
  - destruct (Z.eqb_spec (StatusCode fetchResp) 304); [contradiction | exact Hu].
Qed.

Lemma oversized_body_is_proxied_witness :
  let out := consumeAndSign (exampleSigner cappedUpstream [] 90000)
               (varyResponse newResponseWriter) cappedUpstream exampleParams in
  Z.of_nat (String.length cappedBody) = maxSignableBodyLength /\
  bodyBytes (rw_body out) = Some cappedBody /\
  exchangeOf out = None /\
  rw_documents out = [proxied_unsigned].
Proof.
  cbv zeta.
  assert (Hlen : Z.of_nat (String.length cappedBody) = maxSignableBodyLength).
  { unfold cappedBody. rewrite repeat_string_length.
    apply Z2Nat.id, maxSignableBodyLength_pos. }
  split; [exact Hlen|].
  destruct (oversized_body_is_proxied (exampleSigner cappedUpstream [] 90000)
              (varyResponse newResponseWriter) cappedUpstream exampleParams cappedBody
              eq_refl eq_refl eq_refl (Z.eq_le_incl _ _ (eq_sym Hlen)))
    as (_ & _ & Hbytes & _ & He & Hdocs).
  auto.
Defined.

(** ** C4: the happy path and the maximum age *)

(** With a maximum age of an hour everything succeeds up to the validity
    check, where the expiry is 23 hours in the past: the response is
    proxied, with the mutated headers, and is no signed exchange. *)
Lemma happy_sign_3600_counterexample :
  admitted hourSigner (exampleRequest signForm ∅) plainUpstream exampleParams /\
  transformer_Process hourSigner
    (transformerRequest hourSigner (consumed plainUpstream) exampleParams)
    = Ok (exampleBody, {| Preloads := []; MaxAgeSecs := 3600 |}) /\
  bodyBytes (rw_body hourResponse) = Some exampleBody /\
  rw_documents hourResponse = [proxied_unsigned] /\
  ~ signedFor hourResponse 3600.
Proof.
  split.
  { unfold hourSigner. rewrite <- (proj1 exampleFetched_id) at 2.
    apply example_admitted; vm_compute; reflexivity. }
  split; [vm_compute; reflexivity|].
  split; [vm_compute; reflexivity|].
  split; [vm_compute; reflexivity|].
  intros (e & s & h & He & _).
  assert (Hn : exchangeOf hourResponse = None) by (vm_compute; reflexivity).
  rewrite Hn in He. discriminate.
Qed.

(** C4, amended.  Take an upstream [200] that passes every admission gate,
    whose body is read whole under the cap and whose packaging steps
    succeed, the transformer reporting a maximum age of [m] seconds.  When
    [86400 < m <= 604800] the handler answers [200] with the
    signed-exchange content type, and the signature has
    [expires - date = m] seconds.  When [m <= 86400], as for [m = 3600],
    the expiry is not after the clock: no exchange is written and the
    response is proxied unsigned, with status [200] and the fetched body. *)
Theorem happy_sign_max_age (this : Signer) (req : Request) (fetchResp : Response)
    (params : SXGParams) (metadata : Metadata) (e : Exchange) (m : Z) :
  admitted this req fetchResp params ->
  readErr (Body fetchResp) = false ->
  (Z.of_nat (String.length (unread (Body fetchResp))) < maxSignableBodyLength)%Z ->
  packaged this (consumed fetchResp) params metadata e ->
  MaxAgeSecs metadata = m ->
  int32 m ->
  let out := ServeHTTP this newResponseWriter req in
  ((86400 < m <= 604800)%Z -> signedFor out m /\ exchangeOf out = Some e) /\
  ((m <= 86400)%Z ->
     exchangeOf out = None /\
     sentStatus out = Some 200%Z /\
     bodyBytes (rw_body out) = Some (unread (Body fetchResp)) /\
     rw_documents out = [proxied_unsigned]).
Proof.
  intros Hadm Herr Hlen Hp Hm Hi. cbv zeta.
  rewrite (ServeHTTP_admitted _ _ _ _ _ Hadm), (consumeAndSign_whole _ _ _ _ Hlen), Herr.
  rewrite <- Hm in Hi.
  pose proof (validityWindow_spec (time_Now this) metadata Hi) as Hw.
  assert (Hst : StatusCode fetchResp = 200%Z) by (destruct Hadm as (? & ? & _ & H & _); exact H).
  destruct (serveSignedExchange_cases this (varyResponse newResponseWriter)
              (consumed fetchResp) params)
    as [(md & e' & [Hp' Hlt] & Heq)|(h & Heq & Hno & _)]; rewrite Heq.
  - destruct (packaged_functional _ _ _ _ _ _ _ Hp Hp') as [<- <-].
    rewrite Hw in Hlt. cbn [snd] in Hlt. apply Z.ltb_lt in Hlt.
    split; [|unfold Hour, Second in Hlt; lia].
    intros Hrange.
    destruct (writeSignedExchange_clean (varyResponse newResponseWriter) params e
                eq_refl eq_refl) as (He & _ & h & Hsent & Hct & _).
    split; [|exact He].
    destruct (packaged_signature _ _ _ _ _ Hp) as (s & Hsig & Hd & Hexp).
    exists e, s, h. repeat split; auto.
    rewrite Hd, Hexp, Hw. cbn [fst snd]. unfold Hour, Second. lia.
  - split.
    + intros Hrange. exfalso. apply (Hno metadata e). split; [exact Hp|].
      rewrite Hw. cbn [snd]. apply Z.ltb_lt. unfold Hour, Second. lia.
    + intros _.
      destruct (proxyConsumed_clean (varyResponse newResponseWriter)
                  (withCHeader (consumed fetchResp) h) eq_refl eq_refl)
        as (Hsent & Hbytes & Hdocs).
      split; [exact (exchangeOf_raw _ _ Hbytes)|].
      split; [|split; [exact Hbytes | exact Hdocs]].
      unfold sentStatus. rewrite Hsent. cbn. now rewrite Hst.
Qed.

Lemma happy_sign_max_age_witness :
  signedFor happyResponse 90000 /\ exchangeOf happyResponse = Some happyExchange.
Proof.
  assert (Hi : int32 90000) by (unfold int32; lia).
  apply (proj1 (happy_sign_max_age (exampleSigner cookieUpstream [] 90000)
                  (exampleRequest signForm ∅) cookieUpstream exampleParams
                  {| Preloads := []; MaxAgeSecs := 90000 |} happyExchange 90000
                  ltac:(rewrite <- (proj1 (proj2 exampleFetched_id)) at 2;
                        apply example_admitted; vm_compute; reflexivity)
                  eq_refl
                  ltac:(vm_compute; reflexivity)
                  ltac:(exists exampleBody, "",
                          (default happyExchange
                             (match MiEncodePayload (exampleSigner cookieUpstream [] 90000)
                                      (NewExchange SxgVersion "https://example.com/doc.html"
                                         "GET" ∅ 200
                                         (mutateFetchedHeader
                                            (exampleSigner cookieUpstream [] 90000)
                                            (RespHeader cookieUpstream) "" exampleBody)
                                         exampleBody) miRecordSize with
                              | Ok e0 => Some e0
                              | Err _ => None
                              end)),
                          (exampleURL "/amppkg/cert/certificate"),
                          (exampleURL "/amppkg/validity");
                        repeat (split; [vm_compute; reflexivity|]);
                        vm_compute; reflexivity)
                  eq_refl Hi)).
  lia.
Defined.

(** ** C6: the [304] pass-through *)

Lemma GetJoined_canonical (h : Header) (a b : string) :
  CanonicalHeaderKey a = CanonicalHeaderKey b -> GetJoined h a = GetJoined h b.
Proof. unfold GetJoined. now intros ->. Qed.

Lemma copyNotModifiedHeader_ne (fetched h : Header) (name k : string) :
  k <> CanonicalHeaderKey name -> copyNotModifiedHeader fetched h name !! k = h !! k.
Proof.
  intros H. unfold copyNotModifiedHeader. cbv zeta.
  destruct (String.eqb _ _); [reflexivity | now apply Header_Set_ne].
Qed.

Lemma copyNotModifiedHeader_eq (fetched h : Header) (name : string) :
  copyNotModifiedHeader fetched h name !! CanonicalHeaderKey name =
  if String.eqb (GetJoined fetched name) "" then h !! CanonicalHeaderKey name
  else Some [GetJoined fetched name].
Proof.
  unfold copyNotModifiedHeader. cbv zeta.
  destruct (String.eqb _ _); [reflexivity|].
  unfold Header_Set. apply lookup_insert_eq.
Qed.

Lemma fold_copy_other (fetched : Header) (names : list string) (h : Header) (k : string) :
  ~ In k (map CanonicalHeaderKey names) ->
  fold_left (copyNotModifiedHeader fetched) names h !! k = h !! k.
Proof.
  revert h. induction names as [|n names IH]; intros h Hk; cbn [fold_left]; [reflexivity|].
  cbn [map In] in Hk. rewrite IH by tauto.
  apply copyNotModifiedHeader_ne. intros ->. tauto.
Qed.

Lemma fold_copy_listed (fetched : Header) (names : list string) (h : Header) (name : string) :
  List.NoDup (map CanonicalHeaderKey names) -> In name names ->
  fold_left (copyNotModifiedHeader fetched) names h !! CanonicalHeaderKey name =
  if String.eqb (GetJoined fetched name) "" then h !! CanonicalHeaderKey name
  else Some [GetJoined fetched name].
Proof.
  revert h. induction names as [|n names IH]; intros h Hnd Hin; [destruct Hin|].
  cbn [map] in Hnd. apply List.NoDup_cons_iff in Hnd as [Hn Hnd].
  cbn [fold_left].
  destruct (decide (CanonicalHeaderKey name = CanonicalHeaderKey n)) as [Heq|Hne].
  - rewrite fold_copy_other by (now rewrite Heq).
    rewrite Heq, copyNotModifiedHeader_eq.
    now rewrite (GetJoined_canonical fetched n name).
  - destruct Hin as [->|Hin]; [congruence|].
    rewrite (IH _ Hnd Hin). now rewrite copyNotModifiedHeader_ne.
Qed.

Lemma statusNotModifiedHeaders_NoDup :
  List.NoDup (map CanonicalHeaderKey statusNotModifiedHeaders).
Proof.
  vm_compute.
  repeat (apply List.NoDup_cons; [cbn; intuition discriminate|]).
  apply List.NoDup_nil.
Qed.

(** A [304] whose upstream response has no [Vary] header is answered with a
    [Vary] header all the same: the downstream headers are not the listed
    upstream headers only. *)
Lemma not_modified_exact_counterexample :
  reachesDispatch (exampleSigner notModifiedUpstream [] 90000) (exampleRequest signForm ∅)
    exampleFetchRequest notModifiedUpstream (exampleURL "/doc.html") false "google" 5 /\
  StatusCode notModifiedUpstream = 304%Z /\
  RespHeader notModifiedUpstream !! "Vary" = None /\
  sentStatus notModifiedResponse = Some StatusNotModified /\
  sentHeader notModifiedResponse !! "Vary" = Some ["Accept, AMP-Cache-Transform"] /\
  ~ exactlyListedHeaders (RespHeader notModifiedUpstream) notModifiedResponse.
Proof.
  assert (Hv : sentHeader notModifiedResponse !! "Vary" = Some ["Accept, AMP-Cache-Transform"])
    by (vm_compute; reflexivity).
  split.
  { rewrite <- (proj2 (proj2 exampleFetched_id)) at 2. apply example_reachesDispatch. }
  split; [reflexivity|]. split; [vm_compute; reflexivity|].
  split; [vm_compute; reflexivity|]. split; [exact Hv|].
  intros (h & Hsent & _ & Hall).
  unfold sentHeader in Hv. rewrite Hsent in Hv. cbn [fmap option_fmap option_map snd default from_option id] in Hv.
  rewrite (Hall "Vary") in Hv.
  assert (Hup : (if inList "Vary" (map CanonicalHeaderKey statusNotModifiedHeaders)
                 then RespHeader notModifiedUpstream !! "Vary" else None) = None)
    by (vm_compute; reflexivity).
  rewrite Hup in Hv. discriminate.
Qed.

(** C6, amended.  A [304] upstream response that gets as far as the switch
    on the status (the form and the URLs are accepted, the server is healthy
    and negotiation succeeds) is answered with a [304] without body.  Each of
    Cache-Control, Content-Location, Date, ETag and Expires is there, with
    the joined upstream value, exactly when that value is not empty; a
    [Vary] header is always there; no other header is. *)
Theorem not_modified_passthrough (this : Signer) (req fetchReq : Request)
    (fetchResp : Response) (sURL : URL) (eos : bool) (act : string) (tv : Z) :
  reachesDispatch this req fetchReq fetchResp sURL eos act tv ->
  StatusCode fetchResp = 304%Z ->
  let out := ServeHTTP this newResponseWriter req in
  exists h,
    rw_sent out = Some (304%Z, h) /\
    rw_body out = [] /\
    is_Some (h !! "Vary") /\
    (forall name,
       In name ["Cache-Control"; "Content-Location"; "Date"; "ETag"; "Expires"] ->
       h !! CanonicalHeaderKey name =
       if String.eqb (GetJoined (RespHeader fetchResp) name) "" then None
       else Some [GetJoined (RespHeader fetchResp) name]) /\
    (forall k, ~ In k (map CanonicalHeaderKey statusNotModifiedHeaders) -> h !! k = None).
Proof.
  intros Hd Hst. cbv zeta.
  rewrite (ServeHTTP_not_modified _ _ _ _ _ _ _ _ _ Hd Hst).
  eexists. split; [apply WriteHeader_sent_fresh; reflexivity|].
  autorewrite with writer. split; [reflexivity|].
  assert (H0 : forall k, k <> "Vary" ->
                 Header_Add (rw_header newResponseWriter) "Vary"
                   "Accept, AMP-Cache-Transform" !! k = None).
  { intros k Hk. rewrite Header_Add_ne by exact Hk. apply lookup_empty. }
  split; [|split].
  - pose proof (fold_copy_listed (RespHeader fetchResp) statusNotModifiedHeaders
                  (rw_header (varyResponse newResponseWriter)) "Vary"
                  statusNotModifiedHeaders_NoDup) as Hv.
    change (CanonicalHeaderKey "Vary") with "Vary" in Hv.
    rewrite Hv by (cbn; tauto).
    destruct (String.eqb _ _); [|now eexists].
    now eexists.
  - intros name Hin.
    rewrite (fold_copy_listed _ _ _ name statusNotModifiedHeaders_NoDup)
      by (cbn in *; tauto).
    destruct (String.eqb _ _); [|reflexivity].
    apply H0.
    repeat (destruct Hin as [<-|Hin]; [vm_compute; discriminate|]). destruct Hin.
  - intros k Hk. rewrite fold_copy_other by exact Hk.
    apply H0. intros ->. apply Hk. vm_compute. tauto.
Qed.

Lemma not_modified_passthrough_witness :
  exists h,
    rw_sent notModifiedResponse = Some (304%Z, h) /\
    rw_body notModifiedResponse = [] /\
    is_Some (h !! "Vary") /\
    h !! "Etag" = Some ["abc"] /\
    h !! "Cache-Control" = Some ["max-age=60"] /\
    h !! "Date" = None /\
    h !! "X-Extra" = None.
Proof.
  destruct (not_modified_passthrough (exampleSigner notModifiedUpstream [] 90000)
              (exampleRequest signForm ∅) exampleFetchRequest
              (exampleFetched notModifiedUpstream)
              (exampleURL "/doc.html") false "google" 5
              (example_reachesDispatch notModifiedUpstream [] 90000) eq_refl)
    as (h & Hsent & Hbody & Hvary & Hlisted & Hother).
  rewrite (proj2 (proj2 exampleFetched_id)) in Hlisted.
  exists h. split; [exact Hsent|]. split; [exact Hbody|]. split; [exact Hvary|].
  split; [exact (Hlisted "ETag" (or_intror (or_intror (or_intror (or_introl eq_refl)))))|].
  split; [exact (Hlisted "Cache-Control" (or_introl eq_refl))|].
  split; [exact (Hlisted "Date" (or_intror (or_intror (or_introl eq_refl))))|].
  apply Hother. vm_compute. intuition discriminate.
Defined.

(** ** C5 and C10: the rewritten policy *)

(** C5.  For every input, the directives of the rewritten policy are the
    kept input directives, in order and as trimmed, followed by the five
    fixed directives [default-src], [report-uri], [script-src], [style-src]
    and [object-src] with their fixed values.  A token is kept exactly when
    it has a first field whose lower-cased form is one of the seven
    pass-through names, so the match ignores case and a token without a
    field is skipped.  Every directive of the output has a name, which is
    one of the seven pass-through names or the name of the fixed directive
    that it is. *)
Theorem csp_rewrite_directives (low : string -> string) (fetched : string) :
  let out := MutateFetchedContentSecurityPolicy low fetched in
  Split out ";" =
    map TrimSpace (List.filter (isPreserved low) (Split fetched ";")) ++ fixedDirectives /\
  Split cspSuffix ";" = fixedDirectives /\
  cspSuffix = cspSuffixOfSection6 /\
  out = endEach (keptDirectives low fetched) +:+ cspSuffix /\
  (forall tok,
     isPreserved low tok =
     match Fields (TrimSpace tok) with
     | [] => false
     | part :: _ => inList (ToLower low part) preservedDirectives
     end) /\
  (forall part, isASCII part = true -> ToLower low part = map_string lowerByte part) /\
  (forall d, In d (Split out ";") ->
     exists name,
       directiveName low d = Some name /\
       ((In name preservedDirectives /\ In d (keptDirectives low fetched)) \/
        (In name fixedDirectiveNames /\ In d fixedDirectives))).
Proof.
  cbv zeta. split; [apply Split_Mutate|]. split; [vm_compute; reflexivity|].
  split; [vm_compute; reflexivity|].
  split; [apply Mutate_eq|]. split; [|split].
  - intros tok. unfold isPreserved, directiveName.
    now destruct (Fields (TrimSpace tok)).
  - intros part H. unfold ToLower. now rewrite H.
  - intros d Hd. rewrite Split_Mutate in Hd. apply in_app_or in Hd as [Hd|Hd].
    + destruct (keptDirectives_elem low fetched d Hd) as (tok & _ & Hp & ->).
      rewrite directiveName_TrimSpace. unfold isPreserved in Hp.
      destruct (directiveName low tok) as [name|]; [|discriminate].
      exists name. split; [reflexivity|]. left. split; [|exact Hd].
      unfold inList in Hp. apply existsb_exists in Hp as (x & Hx & Heq).
      apply String.eqb_eq in Heq. now subst.
    + destruct (fixedDirectives_names low d Hd) as (name & Hn & Hin & _).
      exists name. split; [exact Hn|]. right. now split.
Qed.

(** C10.  Rewriting a rewritten policy changes nothing: the kept
    directives are kept again as they are, and the fixed directives are
    dropped and appended again. *)
Theorem Mutate_idempotent (low : string -> string) (fetched : string) :
  MutateFetchedContentSecurityPolicy low
    (MutateFetchedContentSecurityPolicy low fetched) =
  MutateFetchedContentSecurityPolicy low fetched.
Proof.
  rewrite (Mutate_eq low (MutateFetchedContentSecurityPolicy low fetched)).
  rewrite keptDirectives_Mutate. symmetry. apply Mutate_eq.
Qed.

(** ** Ranging over Go maps

    [statefulResponseHeaders] and [statusNotModifiedHeaders] are Go maps, and
    the order in which a [range] visits their keys is not fixed.  The three
    loops over them give the same result for every order. *)

Lemma fold_Header_Del_other (names : list string) (h : Header) (k : string) :
  ~ In k (map CanonicalHeaderKey names) ->
  fold_left Header_Del names h !! k = h !! k.
Proof.
  revert h. induction names as [|n names IH]; intros h Hk; cbn [fold_left]; [reflexivity|].
  cbn [map In] in Hk. rewrite IH by tauto.
  apply Header_Del_ne. intros ->. tauto.
Qed.

Lemma Header_Del_any_order (names names' : list string) (h : Header) :
  Permutation names names' ->
  fold_left Header_Del names' h = fold_left Header_Del names h.
Proof.
  intros Hp. apply map_eq. intros k.
  destruct (In_dec string_dec k (map CanonicalHeaderKey names)) as [Hin|Hout].
  - rewrite !fold_Header_Del_None; [reflexivity | now right |].
    right. now apply (Permutation_in _ (Permutation_map CanonicalHeaderKey Hp)).
  - rewrite !fold_Header_Del_other; [reflexivity | exact Hout |].
    intros Hin. apply Hout.
    now apply (Permutation_in _ (Permutation_sym (Permutation_map CanonicalHeaderKey Hp))).
Qed.

Lemma copyNotModifiedHeader_any_order (fetched : Header) (names names' : list string)
    (h : Header) :
  Permutation names names' -> List.NoDup (map CanonicalHeaderKey names) ->
  fold_left (copyNotModifiedHeader fetched) names' h =
  fold_left (copyNotModifiedHeader fetched) names h.
Proof.
  intros Hp Hnd. apply map_eq. intros k.
  assert (Hnd' : List.NoDup (map CanonicalHeaderKey names'))
    by exact (Permutation_NoDup (Permutation_map CanonicalHeaderKey Hp) Hnd).
  destruct (In_dec string_dec k (map CanonicalHeaderKey names)) as [Hin|Hout].
  - apply in_map_iff in Hin as (name & <- & Hin).
    rewrite (fold_copy_listed _ _ _ _ Hnd Hin).
    now rewrite (fold_copy_listed _ _ _ _ Hnd' (Permutation_in _ Hp Hin)).
  - rewrite !fold_copy_other; [reflexivity | exact Hout |].
    intros Hin. apply Hout.
    now apply (Permutation_in _ (Permutation_sym (Permutation_map CanonicalHeaderKey Hp))).
Qed.

Lemma stateful_check_any_order (h : Header) (names : list string) :
  Permutation statefulResponseHeaders names ->
  existsb (fun header => negb (String.eqb (GetJoined h header) "")) names =
  hasStatefulHeader h.
Proof.
  intros Hp. unfold hasStatefulHeader. apply eq_true_iff_eq.
  rewrite !existsb_exists. split; intros (x & Hx & H); exists x; split; auto.
  - now apply (Permutation_in _ (Permutation_sym Hp)).
  - now apply (Permutation_in _ Hp).
Qed.

(** ** C7: the [Vary] header of the outer response *)

Lemma proxyImpl_sent (resp : ResponseWriter) (header : Header) (statusCode : Z)
    (prefix : option string) (suffix : option Reader) :
  rw_sent resp = None ->
  rw_sent (proxyImpl resp header statusCode prefix suffix) =
  Some (statusCode, header ∪ rw_header resp).
Proof.
  intros Hs. unfold proxyImpl, io_Copy.
  assert (H0 : rw_sent (WriteHeader (withHeader resp (header ∪ rw_header resp)) statusCode)
               = Some (statusCode, header ∪ rw_header resp))
    by (now apply WriteHeader_sent_fresh).
  destruct prefix as [p|], suffix as [[[|c rest] []]|]; writer;
    try match goal with
        | |- context [if ?c then _ else _] => destruct c
        end; writer;
    repeat first [ exact H0
                 | apply LogAndRespond_sent_done
                 | apply Write_sent ].
Qed.

Lemma mutateFetchedHeader_other (this : Signer) (h : Header)
    (linkHeader transformed k : string) :
  ~ In k (map CanonicalHeaderKey writtenInnerHeaders) -> h !! k = None ->
  mutateFetchedHeader this h linkHeader transformed !! k = None.
Proof.
  intros Hk Hh. unfold mutateFetchedHeader. cbv zeta.
  rewrite !Header_Set_ne by (intros ->; apply Hk; cbn; tauto).
  destruct (String.eqb linkHeader "").
  - rewrite Header_Del_ne by (intros ->; apply Hk; cbn; tauto).
    apply fold_Header_Del_None. now left.
  - rewrite Header_Set_ne by (intros ->; apply Hk; cbn; tauto).
    apply fold_Header_Del_None. now left.
Qed.

Lemma proxiedHeader_other (this : Signer) (fetched h : Header) (k : string) :
  proxiedHeader this fetched h ->
  ~ In k (map CanonicalHeaderKey writtenInnerHeaders) -> fetched !! k = None ->
  h !! k = None.
Proof.
  intros [->|[(l & t & ->)|(l & t & d & ->)]] Hk Hf.
  - exact Hf.
  - now apply mutateFetchedHeader_other.
  - rewrite !Header_Add_ne by (intros ->; apply Hk; cbn; tauto).
    now apply mutateFetchedHeader_other.
Qed.

(** Where the upstream response has no [Vary] header of its own, every
    path of the handler sends a response whose [Vary] header is the one
    added first. *)
Lemma vary_kept_without_upstream_vary (this : Signer) (req : Request) :
  (forall u fetchReq fetchResp,
     fetchURLAndMeasure this u req = inr (fetchReq, fetchResp) ->
     RespHeader fetchResp !! "Vary" = None) ->
  exists status h,
    rw_sent (ServeHTTP this newResponseWriter req) = Some (status, h) /\
    h !! "Vary" = Some ["Accept, AMP-Cache-Transform"].
Proof.
  intros Hup.
  assert (Hv : rw_header (varyResponse newResponseWriter) !! "Vary"
               = Some ["Accept, AMP-Cache-Transform"]) by reflexivity.
  assert (Hs : rw_sent (varyResponse newResponseWriter) = None) by reflexivity.
  assert (Hb : rw_body (varyResponse newResponseWriter) = []) by reflexivity.
  assert (Hnw : ~ In "Vary" (map CanonicalHeaderKey writtenInnerHeaders))
    by (vm_compute; intuition discriminate).
  unfold ServeHTTP. fold (varyResponse newResponseWriter).
  generalize dependent (varyResponse newResponseWriter). intros resp Hv Hs Hb.
  assert (Herr : forall e, exists status h,
            rw_sent (LogAndRespond e resp) = Some (status, h) /\
            h !! "Vary" = Some ["Accept, AMP-Cache-Transform"]).
  { intros e. eexists _, _. split; [now apply LogAndRespond_sent_fresh | exact Hv]. }
  assert (Hproxy : forall header st prefix suffix, header !! "Vary" = None ->
            exists status h,
              rw_sent (proxyImpl resp header st prefix suffix) = Some (status, h) /\
              h !! "Vary" = Some ["Accept, AMP-Cache-Transform"]).
  { intros header st prefix suffix Hh. eexists _, _.
    split; [now apply proxyImpl_sent|]. now rewrite lookup_union_r. }
  destruct (ParsedForm req) as [form|]; [|apply Herr].
  destruct (fetchAndSign req form) as [err|[fetch sign]]; [apply Herr|].
  destruct (parseURLs this fetch sign) as [err|[[fetchURL sURL] eos]]; [apply Herr|].
  destruct (fetchURLAndMeasure this fetchURL req) as [err|[fetchReq fetchResp]] eqn:Hfetch;
    [apply Herr|].
  pose proof (Hup _ _ _ Hfetch) as Hnone.
  destruct (shouldPackage this); [now apply Hproxy|].
  destruct (negotiate this req) as [[act tv]|]; [|now apply Hproxy].
  destruct (StatusCode fetchResp =? 200)%Z.
  - destruct (validateFetch this fetchReq fetchResp); [now apply Hproxy|].
    destruct (eos && hasStatefulHeader (RespHeader fetchResp)); [now apply Hproxy|].
    destruct (hasVariants (RespHeader fetchResp)); [now apply Hproxy|].
    set (params := {| signURL := sURL; ampCacheTransformHeader := act;
                      transformVersion := tv |}).
    destruct (Z.lt_ge_cases (Z.of_nat (String.length (unread (Body fetchResp))))
                maxSignableBodyLength) as [Hlt|Hge].
    + rewrite (consumeAndSign_whole _ _ _ _ Hlt).
      destruct (readErr (Body fetchResp)); [apply Herr|].
      destruct (serveSignedExchange_cases this resp (consumed fetchResp) params)
        as [(md & e & _ & ->)|(h & -> & _ & Hh)].
      * destruct (writeSignedExchange_clean resp params e Hs Hb)
          as (_ & _ & h & Hsent & _ & Hother).
        exists 200%Z, h. split; [exact Hsent|].
        rewrite Hother by discriminate. exact Hv.
      * apply Hproxy. cbn [withCHeader cHeader].
        now apply (proxiedHeader_other this (RespHeader fetchResp)).
    + rewrite (consumeAndSign_capped _ _ _ _ Hge). now apply Hproxy.
  - destruct (StatusCode fetchResp =? 304)%Z; [|now apply Hproxy].
    eexists _, _. split; [now apply WriteHeader_sent_fresh|].
    autorewrite with writer.
    pose proof (fold_copy_listed (RespHeader fetchResp) statusNotModifiedHeaders
                  (rw_header resp) "Vary" statusNotModifiedHeaders_NoDup) as Hl.
    change (CanonicalHeaderKey "Vary") with "Vary" in Hl.
    rewrite Hl by (cbn; tauto).
    unfold GetJoined. change (CanonicalHeaderKey "Vary") with "Vary".
    rewrite Hnone. exact Hv.
Qed.

(** C7.  The handler adds [Vary: Accept, AMP-Cache-Transform] first, but an
    upstream [Vary] header replaces it on the [304] path (through [Set]) and
    on the proxy path (through the copy of the upstream headers): the outer
    response then has the upstream value only. *)
Theorem vary_replaced_by_upstream :
  let notModified := ServeHTTP (exampleSigner varyNotModifiedUpstream [] 90000)
                       newResponseWriter (exampleRequest signForm ∅) in
  let notFound := ServeHTTP (exampleSigner varyNotFoundUpstream [] 90000)
                    newResponseWriter (exampleRequest signForm ∅) in
  (sentStatus notModified = Some 304%Z /\
   sentHeader notModified !! "Vary" = Some ["Accept-Encoding"]) /\
  (sentStatus notFound = Some 404%Z /\
   rw_documents notFound = [proxied_unsigned] /\
   sentHeader notFound !! "Vary" = Some ["Accept-Encoding"]) /\
  (sentStatus happyResponse = Some 200%Z /\
   sentHeader happyResponse !! "Vary" = Some ["Accept, AMP-Cache-Transform"]).
Proof. cbv zeta. repeat split; vm_compute; reflexivity. Qed.

(** ** C8: the sign URL as a path parameter *)

(** With the sign URL in the path, two [fetch] form values are not
    refused: the handler goes on and answers with a signed exchange. *)
Lemma path_sign_two_fetch_counterexample :
  let out := ServeHTTP (exampleSigner cookieUpstream [] 90000) newResponseWriter
               pathSignRequest in
  Params pathSignRequest !! "signURL" = Some "/doc.html" /\
  (fun form => formLen form "fetch") <$> ParsedForm pathSignRequest = Some 2%nat /\
  sentStatus out = Some 200%Z /\
  sentStatus out <> Some StatusBadRequest /\
  rw_documents out = [signed].
Proof.
  cbv zeta. split; [vm_compute; reflexivity|]. split; [vm_compute; reflexivity|].
  assert (H : sentStatus (ServeHTTP (exampleSigner cookieUpstream [] 90000)
                            newResponseWriter pathSignRequest) = Some 200%Z)
    by (vm_compute; reflexivity).
  split; [exact H|]. split; [|vm_compute; reflexivity].
  rewrite H. discriminate.
Qed.

(** C8, amended.  When routing supplies a non-empty sign URL as a path
    parameter, the form is not looked at: [sign] is the path parameter and
    [fetch] is empty, however many [fetch] or [sign] values the form has.
    Without the path parameter, a form with more than one [fetch] value is
    answered with [400]. *)
Theorem sign_path_parameter (this : Signer) (req : Request)
    (form : gmap string (list string)) :
  ParsedForm req = Some form ->
  let inPathSignURL := default "" (Params req !! "signURL") in
  (inPathSignURL <> "" -> fetchAndSign req form = inr ("", inPathSignURL)) /\
  (inPathSignURL = "" -> (1 < formLen form "fetch")%nat ->
     fetchAndSign req form = inl (NewHTTPError StatusBadRequest "More than 1 fetch param") /\
     exists h, rw_sent (ServeHTTP this newResponseWriter req) = Some (StatusBadRequest, h)).
Proof.
  intros Hf. cbv zeta. split.
  - intros Hp. unfold fetchAndSign. cbv zeta.
    destruct (String.eqb_spec (default "" (Params req !! "signURL")) ""); [contradiction|].
    reflexivity.
  - intros Hp Hlen.
    assert (Hfs : fetchAndSign req form =
                  inl (NewHTTPError StatusBadRequest "More than 1 fetch param")).
    { unfold fetchAndSign. cbv zeta. rewrite Hp. cbn [String.eqb negb].
      apply Nat.ltb_lt in Hlen. now rewrite Hlen. }
    split; [exact Hfs|].
    unfold ServeHTTP. rewrite Hf, Hfs.
    eexists. apply LogAndRespond_sent_fresh. reflexivity.
Qed.

Lemma sign_path_parameter_witness :
  fetchAndSign pathSignRequest
    {[ "fetch" := ["/a.html"; "/b.html"]; "sign" := ["/ignored.html"] ]}
  = inr ("", "/doc.html") /\
  exists h, rw_sent (ServeHTTP (exampleSigner cookieUpstream [] 90000) newResponseWriter
                       twoFetchRequest) = Some (StatusBadRequest, h).
Proof.
  split.
  - apply (proj1 (sign_path_parameter (exampleSigner cookieUpstream [] 90000)
                    pathSignRequest _ eq_refl)).
    vm_compute. discriminate.
  - apply (proj2 (sign_path_parameter (exampleSigner cookieUpstream [] 90000)
                    twoFetchRequest _ eq_refl)).
    + vm_compute. reflexivity.
    + vm_compute. lia.
Defined.

(** ** C9: the Link header *)

Lemma formatAttributes_spec (this : Signer) (attrs : list Metadata_Preload_Attribute)
    (value : string) :
  formatAttributes this attrs value =
  option_map (String.append value) (quotedAttributes this attrs).
Proof.
  revert value. induction attrs as [|attr r IH]; intros value; cbn [formatAttributes quotedAttributes].
  - cbn. now rewrite append_nil_r.
  - destruct (util_QuotedString this (Val attr)) as [q|]; [|reflexivity].
    rewrite IH. destruct (quotedAttributes this r) as [rest|]; [|reflexivity].
    cbn. now rewrite !append_assoc.
Qed.

Lemma quotedAttributes_None (this : Signer) (attrs : list Metadata_Preload_Attribute) :
  quotedAttributes this attrs = None <->
  exists attr msg, In attr attrs /\ util_QuotedString this (Val attr) = Err msg.
Proof.
  induction attrs as [|attr r IH]; cbn [quotedAttributes].
  - split; [discriminate | intros (? & ? & [] & _)].
  - destruct (util_QuotedString this (Val attr)) as [q|msg] eqn:E.
    + destruct (quotedAttributes this r) as [rest|].
      * split; [discriminate|]. intros (a & m & [<-|Hin] & Ha); [congruence|].
        exfalso. assert (Some rest = None) by (apply IH; now exists a, m).
        discriminate.
      * split; [|reflexivity]. intros _.
        destruct (proj1 IH eq_refl) as (a & m & Hin & Ha).
        exists a, m. split; [now right | exact Ha].
    + split; [|reflexivity]. intros _. exists attr, msg. split; [now left | exact E].
Qed.

Lemma formatLinkLoop_spec (this : Signer) (preloads : list Metadata_Preload)
    (values : list string) :
  (forall p, In p preloads -> wellFormedPreload this p = true) ->
  formatLinkLoop this preloads values = Ok (values ++ omap (linkValue this) preloads).
Proof.
  revert values. induction preloads as [|p r IH]; intros values Hwf.
  - cbn. now rewrite app_nil_r.
  - pose proof (Hwf p (or_introl eq_refl)) as Hp.
    unfold wellFormedPreload in Hp. cbn [formatLinkLoop omap list_omap].
    unfold linkValue.
    destruct (url_Parse this (Url p)) as [u|]; [|discriminate].
    cbv zeta. destruct (String.eqb (As p) ""); [discriminate|].
    rewrite formatAttributes_spec.
    destruct (quotedAttributes this (Attributes p)) as [attrs|]; cbn [option_map].
    + rewrite IH by (intros; apply Hwf; now right).
      now rewrite <- app_assoc.
    + apply IH. intros; apply Hwf; now right.
Qed.

Lemma formatLinkLoop_fails (this : Signer) (preloads : list Metadata_Preload)
    (values : list string) (p : Metadata_Preload) :
  In p preloads -> wellFormedPreload this p = false ->
  exists msg, formatLinkLoop this preloads values = Err msg.
Proof.
  revert values. induction preloads as [|q r IH]; intros values Hin Hp; [destruct Hin|].
  cbn [formatLinkLoop].
  destruct (url_Parse this (Url q)) as [u|] eqn:Eu; [|now eexists].
  cbv zeta. destruct (String.eqb (As q) "") eqn:Ea; [now eexists|].
  assert (Hr : In p r).
  { destruct Hin as [->|Hin]; [|exact Hin].
    unfold wellFormedPreload in Hp. rewrite Eu, Ea in Hp. discriminate. }
  destruct (formatAttributes this (Attributes q) _); now apply IH.
Qed.

(** C9.  [formatLinkHeader] returns an error and the empty string as soon
    as one record has a URL that does not parse or an empty [as].  When
    every record passes these two checks the call succeeds: its value is
    the values of the records joined by commas, where a record with an
    attribute value that has no quoted-string form contributes nothing and
    every other record is serialized. *)
Theorem formatLinkHeader_errors (this : Signer) (preloads : list Metadata_Preload) :
  (forall p, In p preloads ->
     (exists msg, url_Parse this (Url p) = Err msg) \/ As p = "" ->
     exists msg, formatLinkHeader this preloads = ("", Some msg)) /\
  ((forall p, In p preloads -> wellFormedPreload this p = true) ->
     formatLinkHeader this preloads = (Join (omap (linkValue this) preloads) ",", None) /\
     forall p, In p preloads ->
       (quotablePreload this p = false -> linkValue this p = None) /\
       (quotablePreload this p = true -> exists v, linkValue this p = Some v)).
Proof.
  split.
  - intros p Hin Hbad.
    assert (Hwf : wellFormedPreload this p = false).
    { unfold wellFormedPreload. destruct Hbad as [[msg Hm]|Ha].
      - now rewrite Hm.
      - rewrite Ha. now destruct (url_Parse this (Url p)). }
    destruct (formatLinkLoop_fails this preloads [] p Hin Hwf) as (msg & Hm).
    exists msg. unfold formatLinkHeader. now rewrite Hm.
  - intros Hwf. split.
    + unfold formatLinkHeader. now rewrite (formatLinkLoop_spec this preloads [] Hwf).
    + intros p Hin. pose proof (Hwf p Hin) as Hp.
      unfold wellFormedPreload in Hp. unfold linkValue, quotablePreload.
      destruct (url_Parse this (Url p)) as [u|]; [|discriminate]. cbv zeta.
      split.
      * intros Hq.
        destruct (quotedAttributes this (Attributes p)) as [a|] eqn:E; [|reflexivity].
        exfalso.
        assert (Hall : forallb (fun attr => match util_QuotedString this (Val attr) with
                                            | Ok _ => true | Err _ => false end)
                         (Attributes p) = true).
        { apply forallb_forall. intros attr Ha.
          destruct (util_QuotedString this (Val attr)) as [q|msg] eqn:Eq; [reflexivity|].
          assert (quotedAttributes this (Attributes p) = None)
            by (apply quotedAttributes_None; now exists attr, msg).
          congruence. }
        congruence.
      * intros Hq.
        destruct (quotedAttributes this (Attributes p)) as [a|] eqn:E; [now eexists|].
        apply quotedAttributes_None in E as (attr & msg & Ha & Hm).
        rewrite forallb_forall in Hq. specialize (Hq attr Ha).
        rewrite Hm in Hq. discriminate.
Qed.

Lemma formatLinkHeader_errors_witness :
  let this := exampleSigner plainUpstream [] 90000 in
  (exists msg, formatLinkHeader this [scriptPreload; missingAsPreload; stylePreload]
               = ("", Some msg)) /\
  formatLinkHeader this [scriptPreload; unquotablePreload; stylePreload] =
    ("<https://example.comhttps://cdn.example/v0.js?a=b>;rel=preload;as=script," +:+
     "<https://example.comhttps://cdn.example/s.css>;rel=preload;as=style;media=" +:+
     String quoteByte ("print" +:+ String quoteByte ""), None) /\
  linkValue this unquotablePreload = None.
Proof.
  cbv zeta. split; [|split].
  - apply (proj1 (formatLinkHeader_errors (exampleSigner plainUpstream [] 90000)
                    [scriptPreload; missingAsPreload; stylePreload]) missingAsPreload).
    + cbn. tauto.
    + right. reflexivity.
  - destruct (proj2 (formatLinkHeader_errors (exampleSigner plainUpstream [] 90000)
                       [scriptPreload; unquotablePreload; stylePreload])) as [H _].
    + intros p [<-|[<-|[<-|[]]]]; vm_compute; reflexivity.
    + rewrite H. vm_compute. reflexivity.
  - destruct (proj2 (formatLinkHeader_errors (exampleSigner plainUpstream [] 90000)
                       [scriptPreload; unquotablePreload; stylePreload])) as [_ H].
    + intros p [<-|[<-|[<-|[]]]]; vm_compute; reflexivity.
    + apply (H unquotablePreload); [cbn; tauto | vm_compute; reflexivity].
Defined.

(** * More of the handler *)

(** ** [GetJoined] and the header methods *)

Lemma append_eq_nil (a b : string) : a +:+ b = "" -> a = "" /\ b = "".
Proof. destruct a; [now rewrite append_nil_l | rewrite append_cons; discriminate]. Qed.

Lemma Join_snoc (l : list string) (sep x : string) :
  Join (l ++ [x]) sep =
  match l with
  | [] => x
  | _ => (Join l sep +:+ sep) +:+ x
  end.
Proof.
  induction l as [|a l IH]; [reflexivity|].
  destruct l as [|b l].
  - cbn. now rewrite append_assoc.
  - change ((a :: b :: l) ++ [x]) with (a :: ((b :: l) ++ [x])).
    change (Join (a :: (b :: l) ++ [x]) sep)
      with (a +:+ sep +:+ Join ((b :: l) ++ [x]) sep).
    rewrite IH.
    change (Join (a :: b :: l) sep) with (a +:+ sep +:+ Join (b :: l) sep).
    now rewrite !append_assoc.
Qed.

(** [GetJoined] gives the empty string exactly when the header is absent,
    has no value, has the empty string as its only value, or, for
    [Set-Cookie], has the empty string as its first value.  Every caller
    tests its result against the empty string, and so treats these alike. *)
Theorem GetJoined_empty_iff (h : Header) (name : string) :
  GetJoined h name = "" <->
  match h !! CanonicalHeaderKey name with
  | None | Some [] => True
  | Some [v] => v = ""
  | Some (v :: _ :: _) => CanonicalHeaderKey name = "Set-Cookie" /\ v = ""
  end.
Proof.
  unfold GetJoined.
  destruct (h !! CanonicalHeaderKey name) as [[|v [|w r]]|]; cbn [length Nat.ltb Nat.leb].
  - now destruct (_ && _).
  - rewrite andb_true_r. now destruct (String.eqb _ _).
  - rewrite andb_true_r.
    destruct (String.eqb_spec (CanonicalHeaderKey name) "Set-Cookie") as [Hc|Hc].
    + tauto.
    + split; [|tauto]. intros H.
      change (Join (v :: w :: r) ", ") with (v +:+ ", " +:+ Join (w :: r) ", ") in H.
      apply append_eq_nil in H as [_ H]. discriminate.
  - tauto.
Qed.

(** [GetJoined] reads back what [Set] wrote, under every spelling of the
    name, and reads nothing after [Del]; the other headers are read as
    before. *)
Theorem GetJoined_Header_Set (h : Header) (key value name : string) :
  GetJoined (Header_Set h key value) name =
    (if String.eqb (CanonicalHeaderKey name) (CanonicalHeaderKey key) then value
     else GetJoined h name) /\
  GetJoined (Header_Del h key) name =
    (if String.eqb (CanonicalHeaderKey name) (CanonicalHeaderKey key) then ""
     else GetJoined h name).
Proof.
  unfold GetJoined, Header_Set, Header_Del.
  destruct (String.eqb_spec (CanonicalHeaderKey name) (CanonicalHeaderKey key)) as [->|Hne].
  - rewrite lookup_insert_eq, lookup_delete_eq. split; [|reflexivity].
    now destruct (_ && _).
  - rewrite lookup_insert_ne, lookup_delete_ne by congruence. now split.
Qed.

(** After [Add], [GetJoined] gives the earlier values and the new one joined
    by a comma and a space; for [Set-Cookie] it still gives the first value
    only. *)
Theorem GetJoined_Header_Add (h : Header) (key value name : string) :
  GetJoined (Header_Add h key value) name =
  if String.eqb (CanonicalHeaderKey name) (CanonicalHeaderKey key) then
    match h !! CanonicalHeaderKey key with
    | None | Some [] => value
    | Some (v :: _) =>
        if String.eqb (CanonicalHeaderKey key) "Set-Cookie" then v
        else (GetJoined h key +:+ ", ") +:+ value
    end
  else GetJoined h name.
Proof.
  unfold GetJoined, Header_Add. cbv zeta.
  destruct (String.eqb_spec (CanonicalHeaderKey name) (CanonicalHeaderKey key)) as [->|Hne].
  - rewrite lookup_insert_eq.
    destruct (h !! CanonicalHeaderKey key) as [[|v r]|];
      cbv beta iota delta [default from_option id]; cbn [app length Nat.ltb Nat.leb].
    + now destruct (_ && _).
    + rewrite !andb_true_r.
      destruct (String.eqb (CanonicalHeaderKey key) "Set-Cookie"); [reflexivity|].
      exact (Join_snoc (v :: r) ", " value).
    + now destruct (_ && _).
  - now rewrite lookup_insert_ne by congruence.
Qed.

(** ** The request [fetchURL] sends upstream *)

Lemma fetchURL_stages (this : Signer) (fetch : URL) (serveHTTPReq : Request) :
  fetchURL this fetch serveHTTPReq =
  match http_NewRequest this "GET" (URL_String this fetch) with
  | Err _ => inl (NewHTTPError StatusInternalServerError "Error building request: ")
  | Ok req =>
      match client_Do this (outboundRequest this serveHTTPReq req) with
      | Err _ => inl (NewHTTPError StatusBadGateway "Error fetching: ")
      | Ok resp =>
          inr (outboundRequest this serveHTTPReq req,
               withRespHeader resp (util_RemoveHopByHopHeaders this (RespHeader resp)))
      end
  end.
Proof. reflexivity. Qed.

Lemma fetchURL_inr (this : Signer) (fetch : URL) (r fetchReq : Request)
    (fetchResp : Response) :
  fetchURL this fetch r = inr (fetchReq, fetchResp) ->
  exists req0 resp,
    http_NewRequest this "GET" (URL_String this fetch) = Ok req0 /\
    fetchReq = outboundRequest this r req0 /\
    client_Do this fetchReq = Ok resp /\
    fetchResp = withRespHeader resp (util_RemoveHopByHopHeaders this (RespHeader resp)).
Proof.
  rewrite fetchURL_stages.
  destruct (http_NewRequest this "GET" (URL_String this fetch)) as [req0|]; [|discriminate].
  destruct (client_Do this (outboundRequest this r req0)) as [resp|] eqn:E; [|discriminate].
  intros [= <- <-]. now exists req0, resp.
Qed.

Lemma forwardHeader_other (r req : Request) (header k : string) :
  k <> CanonicalHeaderKey header ->
  ReqHeader (forwardHeader r req header) !! k = ReqHeader req !! k.
Proof.
  intros Hk. unfold forwardHeader.
  destruct (String.eqb _ "Host"); [reflexivity|]. cbv zeta.
  destruct (String.eqb _ ""); [reflexivity|].
  cbn [withReqHeader ReqHeader]. now apply Header_Set_ne.
Qed.

Lemma forwardHeader_fold_other (r : Request) (l : list string) (req : Request) (k : string) :
  ~ In k (map CanonicalHeaderKey l) ->
  ReqHeader (fold_left (forwardHeader r) l req) !! k = ReqHeader req !! k.
Proof.
  revert req. induction l as [|a l IH]; intros req Hk; cbn [fold_left]; [reflexivity|].
  cbn [map In] in Hk. rewrite IH by tauto.
  apply forwardHeader_other. intros ->. tauto.
Qed.

(** The loop over the forwarded names, read at one header. *)
Lemma forwardHeader_fold (r : Request) (l : list string) (req : Request) (name : string) :
  CanonicalHeaderKey name <> "Host" ->
  ReqHeader (fold_left (forwardHeader r) l req) !! CanonicalHeaderKey name =
  if existsb (fun header => String.eqb (CanonicalHeaderKey header) (CanonicalHeaderKey name)) l
     && negb (String.eqb (GetJoined (ReqHeader r) name) "")
  then Some [GetJoined (ReqHeader r) name]
  else ReqHeader req !! CanonicalHeaderKey name.
Proof.
  intros Hhost. revert req.
  induction l as [|a l IH]; intros req; cbn [fold_left existsb]; [reflexivity|].
  rewrite IH.
  destruct (String.eqb_spec (CanonicalHeaderKey a) (CanonicalHeaderKey name)) as [Ha|Ha].
  - cbn [orb]. unfold forwardHeader. rewrite Ha.
    destruct (String.eqb_spec (CanonicalHeaderKey name) "Host"); [contradiction|].
    cbv zeta. rewrite (GetJoined_canonical (ReqHeader r) a name Ha).
    destruct (String.eqb (GetJoined (ReqHeader r) name) "") eqn:E; cbn [negb].
    + now rewrite !andb_false_r.
    + rewrite !andb_true_r. cbn [withReqHeader ReqHeader]. unfold Header_Set.
      rewrite Ha, lookup_insert_eq. now destruct (existsb _ l).
  - cbn [orb]. rewrite forwardHeader_other by congruence. reflexivity.
Qed.

Lemma forwardHeader_fold_host (r : Request) (l : list string) (req : Request) :
  ReqHost (fold_left (forwardHeader r) l req) =
  if existsb (fun header => String.eqb (CanonicalHeaderKey header) "Host") l
  then ReqHost r else ReqHost req.
Proof.
  revert req. induction l as [|a l IH]; intros req; cbn [fold_left existsb]; [reflexivity|].
  rewrite IH. unfold forwardHeader.
  destruct (String.eqb (CanonicalHeaderKey a) "Host"); cbn [orb].
  - now destruct (existsb _ l).
  - cbv zeta. now destruct (String.eqb _ "").
Qed.

Lemma forwardConditional_other (r req : Request) (header k : string) :
  k <> CanonicalHeaderKey header ->
  ReqHeader (forwardConditional r req header) !! k = ReqHeader req !! k.
Proof.
  intros Hk. unfold forwardConditional. cbv zeta.
  destruct (String.eqb _ ""); [reflexivity|].
  cbn [withReqHeader ReqHeader]. now apply Header_Set_ne.
Qed.

Lemma forwardConditional_fold_other (r : Request) (l : list string) (req : Request)
    (k : string) :
  ~ In k (map CanonicalHeaderKey l) ->
  ReqHeader (fold_left (forwardConditional r) l req) !! k = ReqHeader req !! k.
Proof.
  revert req. induction l as [|a l IH]; intros req Hk; cbn [fold_left]; [reflexivity|].
  cbn [map In] in Hk. rewrite IH by tauto.
  apply forwardConditional_other. intros ->. tauto.
Qed.

Lemma forwardConditional_fold (r : Request) (l : list string) (req : Request) (name : string) :
  ReqHeader (fold_left (forwardConditional r) l req) !! CanonicalHeaderKey name =
  if existsb (fun header => String.eqb (CanonicalHeaderKey header) (CanonicalHeaderKey name)) l
     && negb (String.eqb (GetJoined (ReqHeader r) name) "")
  then Some [GetJoined (ReqHeader r) name]
  else ReqHeader req !! CanonicalHeaderKey name.
Proof.
  revert req.
  induction l as [|a l IH]; intros req; cbn [fold_left existsb]; [reflexivity|].
  rewrite IH.
  destruct (String.eqb_spec (CanonicalHeaderKey a) (CanonicalHeaderKey name)) as [Ha|Ha].
  - cbn [orb]. unfold forwardConditional.
    cbv zeta. rewrite (GetJoined_canonical (ReqHeader r) a name Ha).
    destruct (String.eqb (GetJoined (ReqHeader r) name) "") eqn:E; cbn [negb].
    + now rewrite !andb_false_r.
    + rewrite !andb_true_r. cbn [withReqHeader ReqHeader]. unfold Header_Set.
      rewrite Ha, lookup_insert_eq. now destruct (existsb _ l).
  - cbn [orb]. rewrite forwardConditional_other by congruence. reflexivity.
Qed.

Lemma fold_left_ReqHost (r : Request) (l : list string) (req : Request) :
  ReqHost (fold_left (forwardConditional r) l req) = ReqHost req.
Proof.
  revert req. induction l as [|a l IH]; intros req; cbn [fold_left]; [reflexivity|].
  rewrite IH. unfold forwardConditional. cbv zeta. now destruct (String.eqb _ "").
Qed.

Lemma existsb_canonical_In (l : list string) (k : string) :
  existsb (fun header => String.eqb (CanonicalHeaderKey header) k) l = true <->
  In k (map CanonicalHeaderKey l).
Proof.
  rewrite existsb_exists, in_map_iff. split.
  - intros (x & Hx & H). apply String.eqb_eq in H. now exists x.
  - intros (x & H & Hx). exists x. split; [exact Hx|]. now apply String.eqb_eq.
Qed.

Lemma withVia_other (r req : Request) (k : string) :
  k <> "Via" -> ReqHeader (withVia r req) !! k = ReqHeader req !! k.
Proof.
  intros Hk. unfold withVia. destruct (protocolMatch _); [|reflexivity].
  cbv zeta. cbn [withReqHeader ReqHeader]. now apply Header_Set_ne.
Qed.

Lemma withForwardedHost_other (this : Signer) (r req : Request) (k : string) :
  k <> "Forwarded" -> k <> "X-Forwarded-Host" ->
  ReqHeader (withForwardedHost this r req) !! k = ReqHeader req !! k.
Proof.
  intros H1 H2. unfold withForwardedHost.
  destruct (util_QuotedString this (ReqHost r)); [|reflexivity].
  cbv zeta. cbn [withReqHeader ReqHeader].
  now rewrite !Header_Set_ne.
Qed.

Lemma conditional_not_own (k : string) :
  In k ownRequestHeaders -> ~ In k (map CanonicalHeaderKey ConditionalRequestHeaders).
Proof.
  intros H. repeat (destruct H as [<-|H]; [vm_compute; intuition discriminate|]).
  destruct H.
Qed.

(** A header that is neither set by [fetchURL] itself, nor named by
    [forwardedRequestHeaders], nor a conditional request header, is not
    sent upstream, whatever the inbound request has under it: the outbound
    request has under that key what [http.NewRequest] put there. *)
Theorem fetchURL_forwards_nothing_else (this : Signer) (fetch : URL) (r fetchReq : Request)
    (fetchResp : Response) (k : string) :
  fetchURL this fetch r = inr (fetchReq, fetchResp) ->
  ~ In k ownRequestHeaders ->
  ~ In k (map CanonicalHeaderKey (forwardedRequestHeaders this)) ->
  ~ In k (map CanonicalHeaderKey ConditionalRequestHeaders) ->
  exists req0,
    http_NewRequest this "GET" (URL_String this fetch) = Ok req0 /\
    ReqHeader fetchReq !! k = ReqHeader req0 !! k.
Proof.
  intros Hf Hown Hfw Hc.
  apply fetchURL_inr in Hf as (req0 & resp & Hn & -> & _ & _).
  exists req0. split; [exact Hn|].
  unfold outboundRequest, withConditionalHeaders, withForwardedHeaders, withUserAgent.
  rewrite forwardConditional_fold_other by exact Hc.
  rewrite withForwardedHost_other by (intros ->; apply Hown; cbn; tauto).
  rewrite withVia_other by (intros ->; apply Hown; cbn; tauto).
  rewrite forwardHeader_fold_other by exact Hfw.
  cbn [withReqHeader ReqHeader]. apply Header_Set_ne.
  intros ->. apply Hown. cbn. tauto.
Qed.

Lemma fetchURL_forwards_nothing_else_witness :
  fetchURL forwardingSigner (exampleURL "/doc.html") tracedRequest
    = inr (tracedFetchRequest, plainUpstream) /\
  ReqHeader tracedRequest !! "Cookie" = Some ["id=7"] /\
  ReqHeader tracedFetchRequest !! "Cookie" = None.
Proof.
  assert (Hf : fetchURL forwardingSigner (exampleURL "/doc.html") tracedRequest
               = inr (tracedFetchRequest, plainUpstream)) by (vm_compute; reflexivity).
  split; [exact Hf|]. split; [vm_compute; reflexivity|].
  destruct (fetchURL_forwards_nothing_else forwardingSigner (exampleURL "/doc.html")
              tracedRequest tracedFetchRequest plainUpstream "Cookie" Hf)
    as (req0 & Hn & Hk).
  - vm_compute. intuition discriminate.
  - vm_compute. intuition discriminate.
  - vm_compute. intuition discriminate.
  - rewrite Hk. injection Hn as <-. reflexivity.
Defined.

(** A header named by [forwardedRequestHeaders] that the inbound request
    has with a non-empty joined value is sent upstream as one value, the
    joined one, under the canonical form of the name; [Host], [Via],
    [Forwarded] and [X-Forwarded-Host] are dealt with apart. *)
Theorem fetchURL_forwards_listed (this : Signer) (fetch : URL) (r fetchReq : Request)
    (fetchResp : Response) (header : string) :
  fetchURL this fetch r = inr (fetchReq, fetchResp) ->
  In header (forwardedRequestHeaders this) ->
  ~ In (CanonicalHeaderKey header) ["Host"; "Via"; "Forwarded"; "X-Forwarded-Host"] ->
  GetJoined (ReqHeader r) header <> "" ->
  ReqHeader fetchReq !! CanonicalHeaderKey header = Some [GetJoined (ReqHeader r) header].
Proof.
  intros Hf Hin Hk Hv.
  apply fetchURL_inr in Hf as (req0 & resp & _ & -> & _ & _).
  unfold outboundRequest, withConditionalHeaders, withForwardedHeaders.
  rewrite forwardConditional_fold.
  apply String.eqb_neq in Hv. rewrite Hv. cbn [negb]. rewrite andb_true_r.
  destruct (existsb _ ConditionalRequestHeaders); [reflexivity|].
  rewrite withForwardedHost_other by (intros E; apply Hk; rewrite E; cbn; tauto).
  rewrite withVia_other by (intros E; apply Hk; rewrite E; cbn; tauto).
  rewrite forwardHeader_fold by (intros E; apply Hk; rewrite E; cbn; tauto).
  rewrite Hv. cbn [negb]. rewrite andb_true_r.
  assert (He : existsb (fun header0 => String.eqb (CanonicalHeaderKey header0)
                                         (CanonicalHeaderKey header))
                 (forwardedRequestHeaders this) = true).
  { apply existsb_canonical_In. now apply in_map. }
  now rewrite He.
Qed.

Lemma fetchURL_forwards_listed_witness :
  ReqHeader tracedFetchRequest !! "X-Trace" = Some ["a, b"].
Proof.
  apply (fetchURL_forwards_listed forwardingSigner (exampleURL "/doc.html") tracedRequest
           tracedFetchRequest plainUpstream "x-trace").
  - vm_compute. reflexivity.
  - cbn. tauto.
  - vm_compute. intuition discriminate.
  - vm_compute. discriminate.
Defined.

(** The outbound [User-Agent] is the fixed mobile user agent, unless
    [User-Agent] is a forwarded name and the inbound request has one: then
    it is the inbound one. *)
Theorem fetchURL_user_agent (this : Signer) (fetch : URL) (r fetchReq : Request)
    (fetchResp : Response) :
  fetchURL this fetch r = inr (fetchReq, fetchResp) ->
  ReqHeader fetchReq !! "User-Agent" =
  Some [if forwards this "User-Agent" &&
           negb (String.eqb (GetJoined (ReqHeader r) "User-Agent") "")
        then GetJoined (ReqHeader r) "User-Agent" else userAgent].
Proof.
  intros Hf.
  apply fetchURL_inr in Hf as (req0 & resp & _ & -> & _ & _).
  unfold outboundRequest, withConditionalHeaders, withForwardedHeaders, withUserAgent.
  rewrite forwardConditional_fold_other by (apply conditional_not_own; cbn; tauto).
  rewrite withForwardedHost_other by discriminate.
  rewrite withVia_other by discriminate.
  pose proof (forwardHeader_fold r (forwardedRequestHeaders this)
                (withReqHeader req0 (Header_Set (ReqHeader req0) "User-Agent" userAgent))
                "User-Agent") as H.
  change (CanonicalHeaderKey "User-Agent") with "User-Agent" in H.
  rewrite H by discriminate. unfold forwards.
  destruct (_ && _); [reflexivity|].
  cbn [withReqHeader ReqHeader]. unfold Header_Set.
  change (CanonicalHeaderKey "User-Agent") with "User-Agent".
  now rewrite lookup_insert_eq.
Qed.

Lemma fetchURL_user_agent_witness :
  ReqHeader tracedFetchRequest !! "User-Agent" = Some [userAgent].
Proof.
  exact (fetchURL_user_agent forwardingSigner (exampleURL "/doc.html") tracedRequest
           tracedFetchRequest plainUpstream ltac:(vm_compute; reflexivity)).
Defined.

(** The outbound [Via].  When the inbound protocol is made of token
    characters and slashes, [Via] is the protocol without its [HTTP/]
    prefix followed by [amppkg]; the inbound [Via] comes before it, after a
    comma, only when [Via] is a forwarded name.  When the protocol is not
    of that form, nothing is appended. *)
Theorem fetchURL_via (this : Signer) (fetch : URL) (r fetchReq req0 : Request)
    (fetchResp : Response) :
  fetchURL this fetch r = inr (fetchReq, fetchResp) ->
  http_NewRequest this "GET" (URL_String this fetch) = Ok req0 ->
  ReqHeader req0 !! "Via" = None ->
  let via := (TrimPrefix (Proto r) "HTTP/" +:+ " ") +:+ "amppkg" in
  let upstreamVia := if forwards this "Via" then GetJoined (ReqHeader r) "Via" else "" in
  ReqHeader fetchReq !! "Via" =
  if protocolMatch (Proto r)
  then Some [if String.eqb upstreamVia "" then via else (upstreamVia +:+ ", ") +:+ via]
  else if String.eqb upstreamVia "" then None else Some [upstreamVia].
Proof.
  intros Hf Hn Hnone. cbv zeta.
  apply fetchURL_inr in Hf as (req0' & resp & Hn' & -> & _ & _).
  rewrite Hn in Hn'. injection Hn' as <-.
  unfold outboundRequest, withConditionalHeaders.
  rewrite forwardConditional_fold_other by (apply conditional_not_own; cbn; tauto).
  rewrite withForwardedHost_other by discriminate.
  set (req1 := withForwardedHeaders this r (withUserAgent req0)).
  assert (H1 : ReqHeader req1 !! "Via" =
               if forwards this "Via" && negb (String.eqb (GetJoined (ReqHeader r) "Via") "")
               then Some [GetJoined (ReqHeader r) "Via"] else None).
  { subst req1. unfold withForwardedHeaders, withUserAgent.
    pose proof (forwardHeader_fold r (forwardedRequestHeaders this)
                  (withReqHeader req0 (Header_Set (ReqHeader req0) "User-Agent" userAgent))
                  "Via") as H.
    change (CanonicalHeaderKey "Via") with "Via" in H.
    rewrite H by discriminate. unfold forwards.
    destruct (_ && _); [reflexivity|].
    cbn [withReqHeader ReqHeader]. rewrite Header_Set_ne by discriminate. exact Hnone. }
  assert (H2 : GetJoined (ReqHeader req1) "Via" =
               if forwards this "Via" then GetJoined (ReqHeader r) "Via" else "").
  { unfold GetJoined at 1. change (CanonicalHeaderKey "Via") with "Via". rewrite H1.
    destruct (forwards this "Via"); cbn [andb]; [|reflexivity].
    destruct (String.eqb_spec (GetJoined (ReqHeader r) "Via") "") as [E|E]; cbn [negb].
    - now rewrite E.
    - reflexivity. }
  clearbody req1. unfold withVia. rewrite H2.
  destruct (protocolMatch (Proto r)).
  - cbv zeta. cbn [withReqHeader ReqHeader]. unfold Header_Set.
    change (CanonicalHeaderKey "Via") with "Via". now rewrite lookup_insert_eq.
  - rewrite H1. destruct (forwards this "Via"); cbn [andb]; [|reflexivity].
    now destruct (String.eqb _ "").
Qed.

Lemma fetchURL_via_witness :
  ReqHeader tracedFetchRequest !! "Via" = Some ["1.0 edge, 2.0 amppkg"].
Proof.
  exact (fetchURL_via forwardingSigner (exampleURL "/doc.html") tracedRequest
           tracedFetchRequest _ plainUpstream
           ltac:(vm_compute; reflexivity) eq_refl ltac:(vm_compute; reflexivity)).
Defined.

(** When the inbound host has a quoted-string form, the outbound request
    has [Forwarded: host=] with that form, and an [X-Forwarded-Host] that
    is the inbound host, after the first inbound [X-Forwarded-Host] value
    and a comma when that value is not empty.  Both replace what the
    forwarded names may have copied. *)
Theorem fetchURL_forwarded_host (this : Signer) (fetch : URL) (r fetchReq : Request)
    (fetchResp : Response) (quotedHost : string) :
  fetchURL this fetch r = inr (fetchReq, fetchResp) ->
  util_QuotedString this (ReqHost r) = Ok quotedHost ->
  let oldXFH := Header_Get (ReqHeader r) "X-Forwarded-Host" in
  ReqHeader fetchReq !! "Forwarded" = Some ["host=" +:+ quotedHost] /\
  ReqHeader fetchReq !! "X-Forwarded-Host" =
    Some [if String.eqb oldXFH "" then ReqHost r else (oldXFH +:+ ",") +:+ ReqHost r].
Proof.
  intros Hf Hq. cbv zeta.
  apply fetchURL_inr in Hf as (req0 & resp & _ & -> & _ & _).
  unfold outboundRequest, withConditionalHeaders.
  rewrite !forwardConditional_fold_other by (apply conditional_not_own; cbn; tauto).
  unfold withForwardedHost. rewrite Hq. cbv zeta. cbn [withReqHeader ReqHeader].
  unfold Header_Set.
  change (CanonicalHeaderKey "Forwarded") with "Forwarded".
  change (CanonicalHeaderKey "X-Forwarded-Host") with "X-Forwarded-Host".
  split.
  - rewrite lookup_insert_ne by discriminate. now rewrite lookup_insert_eq.
  - now rewrite lookup_insert_eq.
Qed.

Lemma fetchURL_forwarded_host_witness :
  ReqHeader tracedFetchRequest !! "Forwarded" =
    Some ["host=" +:+ String quoteByte ("packager.example" +:+ String quoteByte "")] /\
  ReqHeader tracedFetchRequest !! "X-Forwarded-Host" =
    Some ["front.example,packager.example"].
Proof.
  exact (fetchURL_forwarded_host forwardingSigner (exampleURL "/doc.html") tracedRequest
           tracedFetchRequest plainUpstream _
           ltac:(vm_compute; reflexivity) eq_refl).
Defined.

(** A conditional request header that the inbound request has with a
    non-empty joined value is sent upstream with that value, whether or not
    it is a forwarded name. *)
Theorem fetchURL_conditional (this : Signer) (fetch : URL) (r fetchReq : Request)
    (fetchResp : Response) (header : string) :
  fetchURL this fetch r = inr (fetchReq, fetchResp) ->
  In header ConditionalRequestHeaders ->
  GetJoined (ReqHeader r) header <> "" ->
  ReqHeader fetchReq !! CanonicalHeaderKey header = Some [GetJoined (ReqHeader r) header].
Proof.
  intros Hf Hin Hv.
  apply fetchURL_inr in Hf as (req0 & resp & _ & -> & _ & _).
  unfold outboundRequest, withConditionalHeaders.
  rewrite forwardConditional_fold.
  apply String.eqb_neq in Hv. rewrite Hv. cbn [negb]. rewrite andb_true_r.
  assert (He : existsb (fun header0 => String.eqb (CanonicalHeaderKey header0)
                                         (CanonicalHeaderKey header))
                 ConditionalRequestHeaders = true).
  { apply existsb_canonical_In. now apply in_map. }
  now rewrite He.
Qed.

Lemma fetchURL_conditional_witness :
  ReqHeader tracedFetchRequest !! "If-None-Match" = Some ["W/abc"].
Proof.
  apply (fetchURL_conditional forwardingSigner (exampleURL "/doc.html") tracedRequest
           tracedFetchRequest plainUpstream "If-None-Match").
  - vm_compute. reflexivity.
  - cbn. tauto.
  - vm_compute. discriminate.
Defined.

(** The outbound request is addressed to the inbound host exactly when
    [Host] is a forwarded name, in any spelling; otherwise its host is the
    one [http.NewRequest] took from the URL. *)
Theorem fetchURL_host (this : Signer) (fetch : URL) (r fetchReq req0 : Request)
    (fetchResp : Response) :
  fetchURL this fetch r = inr (fetchReq, fetchResp) ->
  http_NewRequest this "GET" (URL_String this fetch) = Ok req0 ->
  ReqHost fetchReq = if forwards this "Host" then ReqHost r else ReqHost req0.
Proof.
  intros Hf Hn.
  apply fetchURL_inr in Hf as (req0' & resp & Hn' & -> & _ & _).
  rewrite Hn in Hn'. injection Hn' as <-.
  unfold outboundRequest, withConditionalHeaders.
  rewrite fold_left_ReqHost.
  assert (H : forall q, ReqHost (withForwardedHost this r (withVia r q)) = ReqHost q).
  { intros q. unfold withForwardedHost, withVia.
    destruct (util_QuotedString this (ReqHost r)), (protocolMatch (Proto r)); reflexivity. }
  rewrite H. unfold withForwardedHeaders. rewrite forwardHeader_fold_host.
  reflexivity.
Qed.

Lemma fetchURL_host_witness :
  ReqHost tracedFetchRequest = "packager.example".
Proof.
  exact (fetchURL_host forwardingSigner (exampleURL "/doc.html") tracedRequest
           tracedFetchRequest _ plainUpstream ltac:(vm_compute; reflexivity) eq_refl).
Defined.

(** ** The policy of a concatenation *)

Lemma Split_nonempty (s : string) (sep : ascii) : Split s sep <> [].
Proof.
  destruct s as [|c s]; cbn; [discriminate|].
  destruct (Ascii.eqb c sep); [discriminate|].
  destruct (Split s sep); discriminate.
Qed.

Lemma Split_app (sep : ascii) (s t : string) :
  Split (s +:+ String sep t) sep = Split s sep ++ Split t sep.
Proof.
  induction s as [|c s IH].
  - rewrite append_nil_l. cbn. now rewrite Ascii.eqb_refl.
  - rewrite append_cons. cbn [Split]. rewrite IH.
    destruct (Ascii.eqb c sep); [reflexivity|].
    pose proof (Split_nonempty s sep) as Hne.
    destruct (Split s sep) as [|u us]; [contradiction | reflexivity].
Qed.

Lemma endEach_app (xs ys : list string) :
  endEach (xs ++ ys) = endEach xs +:+ endEach ys.
Proof.
  induction xs as [|x xs IH]; [reflexivity|].
  cbn [app endEach]. now rewrite IH, !append_assoc.
Qed.

(** The rewritten policy of [a], a semicolon and [b] is the directives kept
    from [a] followed by the rewritten policy of [b]: directives are judged
    one by one, in order, and the fixed directives are written once, at the
    end. *)
Theorem Mutate_concat (low : string -> string) (a b : string) :
  MutateFetchedContentSecurityPolicy low ((a +:+ ";") +:+ b) =
  endEach (keptDirectives low a) +:+ MutateFetchedContentSecurityPolicy low b.
Proof.
  rewrite !Mutate_eq, <- append_assoc, <- endEach_app. f_equal. f_equal.
  unfold keptDirectives.
  rewrite append_assoc, append_cons, append_nil_l, Split_app.
  now rewrite List.filter_app, List.map_app.
Qed.

(** ** The Link header of a concatenation *)

Lemma formatLinkLoop_values (this : Signer) (preloads : list Metadata_Preload)
    (values : list string) :
  formatLinkLoop this preloads values =
  match formatLinkLoop this preloads [] with
  | Ok v => Ok (values ++ v)
  | Err e => Err e
  end.
Proof.
  revert values. induction preloads as [|p r IH]; intros values; cbn [formatLinkLoop].
  - now rewrite app_nil_r.
  - destruct (url_Parse this (Url p)) as [u|]; [|reflexivity].
    cbv zeta. destruct (String.eqb (As p) ""); [reflexivity|].
    destruct (formatAttributes this (Attributes p) _) as [value|].
    + rewrite (IH (values ++ [value])), (IH ([] ++ [value])).
      destruct (formatLinkLoop this r []); [|reflexivity].
      now rewrite <- app_assoc.
    + apply IH.
Qed.

Lemma formatLinkLoop_app (this : Signer) (a b : list Metadata_Preload) (values : list string) :
  formatLinkLoop this (a ++ b) values =
  match formatLinkLoop this a values with
  | Ok v => formatLinkLoop this b v
  | Err e => Err e
  end.
Proof.
  revert values. induction a as [|p r IH]; intros values; cbn [app formatLinkLoop].
  - reflexivity.
  - destruct (url_Parse this (Url p)) as [u|]; [|reflexivity].
    cbv zeta. destruct (String.eqb (As p) ""); [reflexivity|].
    destruct (formatAttributes this (Attributes p) _); apply IH.
Qed.

Lemma formatLinkLoop_nonempty (this : Signer) (preloads : list Metadata_Preload)
    (values v : list string) :
  formatLinkLoop this preloads values = Ok v ->
  (forall x, In x values -> x <> "") -> forall x, In x v -> x <> "".
Proof.
  revert values. induction preloads as [|p r IH]; intros values; cbn [formatLinkLoop].
  - now intros [= <-].
  - destruct (url_Parse this (Url p)) as [u|]; [|discriminate].
    cbv zeta. destruct (String.eqb (As p) ""); [discriminate|].
    rewrite formatAttributes_spec.
    destruct (quotedAttributes this (Attributes p)) as [attrs|]; cbn [option_map].
    + intros H Hv. apply (IH _ H). intros x Hx.
      apply in_app_or in Hx as [Hx|[<-|[]]]; [now apply Hv|].
      rewrite !append_assoc, append_cons. discriminate.
    + intros H Hv. now apply (IH _ H).
Qed.

Lemma Join_app (xs ys : list string) (sep : string) :
  Join (xs ++ ys) sep =
  match xs, ys with
  | [], _ => Join ys sep
  | _, [] => Join xs sep
  | _, _ => (Join xs sep +:+ sep) +:+ Join ys sep
  end.
Proof.
  induction xs as [|x xs IH]; [reflexivity|].
  destruct ys as [|y ys]; [now rewrite app_nil_r|].
  destruct xs as [|x' xs].
  - cbn. now rewrite append_assoc.
  - change ((x :: x' :: xs) ++ y :: ys) with (x :: ((x' :: xs) ++ y :: ys)).
    change (Join (x :: (x' :: xs) ++ y :: ys) sep)
      with (x +:+ sep +:+ Join ((x' :: xs) ++ y :: ys) sep).
    rewrite IH.
    change (Join (x :: x' :: xs) sep) with (x +:+ sep +:+ Join (x' :: xs) sep).
    now rewrite !append_assoc.
Qed.

Lemma Join_empty (l : list string) (sep : string) :
  (forall x, In x l -> x <> "") -> Join l sep = "" -> l = [].
Proof.
  destruct l as [|x [|y l]]; intros Hne H; [reflexivity | |].
  - exfalso. apply (Hne x); [now left | exact H].
  - exfalso. apply (Hne x); [now left|].
    change (Join (x :: y :: l) sep) with (x +:+ sep +:+ Join (y :: l) sep) in H.
    now apply append_eq_nil in H as [H _].
Qed.

(** The records are judged one by one, from the left.  An error in [a] is
    the error for [a ++ b], whatever [b] holds; an error in [b] is the
    error when [a] has none; and when neither has one, the value for
    [a ++ b] is the values for [a] and for [b] with a comma between them,
    or the one of them that is not empty. *)
Theorem formatLinkHeader_app (this : Signer) (a b : list Metadata_Preload) :
  match formatLinkHeader this a, formatLinkHeader this b with
  | (_, Some e), _ => formatLinkHeader this (a ++ b) = ("", Some e)
  | (_, None), (_, Some e) => formatLinkHeader this (a ++ b) = ("", Some e)
  | (va, None), (vb, None) =>
      formatLinkHeader this (a ++ b) =
      (if String.eqb va "" then vb
       else if String.eqb vb "" then va
       else (va +:+ ",") +:+ vb, None)
  end.
Proof.
  unfold formatLinkHeader. rewrite formatLinkLoop_app.
  destruct (formatLinkLoop this a []) as [va|ea] eqn:Ea; [|reflexivity].
  rewrite (formatLinkLoop_values this b va).
  destruct (formatLinkLoop this b []) as [vb|eb] eqn:Eb; [|reflexivity].
  pose proof (formatLinkLoop_nonempty this a [] va Ea ltac:(intros x [])) as Ha.
  pose proof (formatLinkLoop_nonempty this b [] vb Eb ltac:(intros x [])) as Hb.
  f_equal. rewrite Join_app.
  destruct va as [|x va].
  - reflexivity.
  - destruct (String.eqb_spec (Join (x :: va) ",") "") as [E|E].
    + now apply Join_empty in E.
    + destruct vb as [|y vb]; [reflexivity|].
      destruct (String.eqb_spec (Join (y :: vb) ",") "") as [E'|E']; [|reflexivity].
      now apply Join_empty in E'.
Qed.

(** ** Responses proxied as they were fetched *)

Lemma proxyImpl_documents (resp : ResponseWriter) (header : Header) (statusCode : Z)
    (prefix : option string) (suffix : option Reader) :
  rw_documents (proxyImpl resp header statusCode prefix suffix) =
  rw_documents resp ++ [proxied_unsigned].
Proof.
  unfold proxyImpl, io_Copy.
  destruct prefix as [p|], suffix as [[[|c rest] []]|]; writer;
    try match goal with
        | |- context [if ?c then _ else _] => destruct c
        end; writer; reflexivity.
Qed.

Lemma proxyUnconsumed_verbatim (resp : ResponseWriter) (fetchResp : Response) :
  rw_sent resp = None -> rw_body resp = [] -> readErr (Body fetchResp) = false ->
  proxiedVerbatim resp (proxyUnconsumed resp fetchResp) fetchResp.
Proof.
  intros Hs Hb He. unfold proxyUnconsumed.
  destruct fetchResp as [st h [data err]]. cbn [Body readErr unread StatusCode RespHeader] in *.
  subst err.
  destruct (proxyImpl_clean resp h st None data Hs Hb) as (H1 & H2 & H3).
  split; [exact H1|]. split; [exact H2|]. split; [exact H3|].
  exact (exchangeOf_raw _ _ H2).
Qed.

Lemma negotiate_refused (this : Signer) (req : Request) :
  (requireHeaders this = true /\
   (fst (ShouldSendSXG this (GetJoined (ReqHeader req) "AMP-Cache-Transform")) = "" \/
    CanSatisfy this (GetJoined (ReqHeader req) "Accept") = false)) \/
  (requireHeaders this = false /\ exists msg, SelectVersion this = Err msg) ->
  negotiate this req = None.
Proof.
  unfold negotiate. intros [[Hr H]|[Hr [msg H]]]; rewrite Hr.
  - cbv zeta.
    destruct (ShouldSendSXG this (GetJoined (ReqHeader req) "AMP-Cache-Transform"))
      as [act tv]. cbn [fst] in H.
    destruct (String.eqb_spec act ""); [reflexivity|].
    destruct H as [H|H]; [contradiction|]. now rewrite H.
  - now rewrite H.
Qed.

Lemma negotiate_Some (this : Signer) (req : Request) (act : string) (tv : Z) :
  negotiate this req = Some (act, tv) ->
  if requireHeaders this
  then act = fst (ShouldSendSXG this (GetJoined (ReqHeader req) "AMP-Cache-Transform")) /\
       act <> ""
  else act = "".
Proof.
  unfold negotiate. destruct (requireHeaders this).
  - cbv zeta.
    destruct (ShouldSendSXG this (GetJoined (ReqHeader req) "AMP-Cache-Transform"))
      as [act' tv']. cbn [fst].
    destruct (String.eqb_spec act' ""); [discriminate|].
    destruct (true && negb _); [discriminate|]. now intros [= <- _].
  - destruct (SelectVersion this); [|discriminate]. cbn [andb]. now intros [= <- _].
Qed.

Lemma hasStatefulHeader_true (h : Header) :
  hasStatefulHeader h = true <->
  exists header, In header statefulResponseHeaders /\ GetJoined h header <> "".
Proof.
  unfold hasStatefulHeader. rewrite existsb_exists.
  split; intros (x & Hx & H); exists x; (split; [exact Hx|]).
  - apply negb_true_iff in H. now apply String.eqb_neq.
  - apply negb_true_iff. now apply String.eqb_neq.
Qed.

Lemma hasVariants_true (h : Header) :
  hasVariants h = true <->
  exists header, In header ["Variants"; "Variant-Key"; "Variants-04"; "Variant-Key-04"] /\
                 Header_Get h header <> "".
Proof.
  unfold hasVariants. rewrite !orb_true_iff, !negb_true_iff, !String.eqb_neq.
  split.
  - intros [[[H|H]|H]|H]; eexists; (split; [|exact H]); cbn; tauto.
  - intros (x & [<-|[<-|[<-|[<-|[]]]]] & H); tauto.
Qed.

Lemma ServeHTTP_fetched_refused (this : Signer) (resp : ResponseWriter) (req fetchReq : Request)
    (fetchResp : Response) (sURL : URL) (eos : bool) :
  fetched this req fetchReq fetchResp sURL eos ->
  shouldPackage this <> None \/ negotiate this req = None ->
  ServeHTTP this resp req = proxyUnconsumed (varyResponse resp) fetchResp.
Proof.
  intros (form & fetch & sign & u & Hf & Hfs & Hp & Hfetch) H.
  unfold ServeHTTP. fold (varyResponse resp). rewrite Hf, Hfs, Hp, Hfetch.
  destruct (shouldPackage this); [reflexivity|].
  destruct H as [H|H]; [contradiction|]. now rewrite H.
Qed.

Lemma ServeHTTP_dispatch_refused (this : Signer) (resp : ResponseWriter)
    (req fetchReq : Request) (fetchResp : Response) (sURL : URL) (eos : bool)
    (act : string) (tv : Z) :
  reachesDispatch this req fetchReq fetchResp sURL eos act tv ->
  (StatusCode fetchResp = 200%Z /\
   (validateFetch this fetchReq fetchResp <> None \/
    eos && hasStatefulHeader (RespHeader fetchResp) = true \/
    hasVariants (RespHeader fetchResp) = true)) \/
  (StatusCode fetchResp <> 200%Z /\ StatusCode fetchResp <> 304%Z) ->
  ServeHTTP this resp req = proxyUnconsumed (varyResponse resp) fetchResp.
Proof.
  intros (form & fetch & sign & u & Hf & Hfs & Hp & Hfetch & Hsp & Hn) H.
  unfold ServeHTTP. fold (varyResponse resp). rewrite Hf, Hfs, Hp, Hfetch, Hsp, Hn.
  destruct H as [[Hst H]|[H2 H3]].
  - rewrite Hst. cbn [Z.eqb Pos.eqb].
    destruct (validateFetch this fetchReq fetchResp); [reflexivity|].
    destruct (eos && hasStatefulHeader (RespHeader fetchResp)); [reflexivity|].
    destruct (hasVariants (RespHeader fetchResp)); [reflexivity|].
    destruct H as [H|[H|H]]; [contradiction | discriminate..].
  - destruct (Z.eqb_spec (StatusCode fetchResp) 200); [contradiction|].
    destruct (Z.eqb_spec (StatusCode fetchResp) 304); [contradiction|].
    reflexivity.
Qed.

(** When the health check fails or content negotiation does not succeed,
    whatever the upstream status, [200] and [304] included, the client gets
    the upstream response as it was fetched: its status, its headers over
    the handler's [Vary], its whole body; it counts as one unsigned
    document. *)
Theorem refused_request_is_proxied_verbatim (this : Signer) (req fetchReq : Request)
    (fetchResp : Response) (sURL : URL) (eos : bool) :
  fetched this req fetchReq fetchResp sURL eos ->
  readErr (Body fetchResp) = false ->
  refusedBeforeDispatch this req ->
  proxiedVerbatim (varyResponse newResponseWriter)
    (ServeHTTP this newResponseWriter req) fetchResp.
Proof.
  intros Hf He Hr.
  rewrite (ServeHTTP_fetched_refused _ _ _ _ _ _ _ Hf).
  - now apply proxyUnconsumed_verbatim.
  - destruct Hr as [Hr|Hr]; [now left | right; now apply negotiate_refused].
Qed.

Lemma refused_request_is_proxied_verbatim_witness :
  let out := ServeHTTP unhealthySigner newResponseWriter (exampleRequest signForm ∅) in
  sentStatus out = Some 304%Z /\
  proxiedVerbatim (varyResponse newResponseWriter) out notModifiedUpstream.
Proof.
  cbv zeta. split; [vm_compute; reflexivity|].
  apply (refused_request_is_proxied_verbatim unhealthySigner (exampleRequest signForm ∅)
           exampleFetchRequest notModifiedUpstream (exampleURL "/doc.html") false).
  - exists signForm, "", "/doc.html", (exampleURL "/doc.html").
    split; [reflexivity|]. split; [vm_compute; reflexivity|].
    split; [vm_compute; reflexivity|]. vm_compute. reflexivity.
  - reflexivity.
  - left. discriminate.
Defined.

(** An upstream [200] that fails the fetch validation, or that has a
    stateful header while the URL set asks for an error on them, or that
    has a [Variants] or [Variant-Key] header, is proxied as it was fetched:
    nothing is removed from it, the stateful headers neither. *)
Theorem refused_OK_is_proxied_verbatim (this : Signer) (req fetchReq : Request)
    (fetchResp : Response) (sURL : URL) (eos : bool) (act : string) (tv : Z) :
  reachesDispatch this req fetchReq fetchResp sURL eos act tv ->
  StatusCode fetchResp = 200%Z ->
  readErr (Body fetchResp) = false ->
  refusedOK this fetchReq fetchResp eos ->
  proxiedVerbatim (varyResponse newResponseWriter)
    (ServeHTTP this newResponseWriter req) fetchResp.
Proof.
  intros Hd Hst He Hr.
  rewrite (ServeHTTP_dispatch_refused _ _ _ _ _ _ _ _ _ Hd).
  - now apply proxyUnconsumed_verbatim.
  - left. split; [exact Hst|].
    destruct Hr as [Hr|[[-> Hr]|Hr]].
    + now left.
    + right; left. now apply hasStatefulHeader_true.
    + right; right. now apply hasVariants_true.
Qed.

Lemma refused_OK_is_proxied_verbatim_witness :
  let out := ServeHTTP strictSigner newResponseWriter (exampleRequest signForm ∅) in
  proxiedVerbatim (varyResponse newResponseWriter) out cookieUpstream /\
  sentHeader out !! "Set-Cookie" = Some ["session=1"].
Proof.
  cbv zeta. split; [|vm_compute; reflexivity].
  apply (refused_OK_is_proxied_verbatim strictSigner (exampleRequest signForm ∅)
           exampleFetchRequest cookieUpstream (exampleURL "/doc.html") true "google" 5).
  - exists signForm, "", "/doc.html", (exampleURL "/doc.html").
    split; [reflexivity|]. split; [vm_compute; reflexivity|].
    split; [vm_compute; reflexivity|]. split; [vm_compute; reflexivity|].
    split; [reflexivity|]. vm_compute. reflexivity.
  - reflexivity.
  - reflexivity.
  - right; left. split; [reflexivity|]. exists "Set-Cookie".
    split; [cbn; tauto|]. vm_compute. discriminate.
Defined.

(** An upstream status other than [200] and [304], a redirect or an error
    for instance, is proxied as it was fetched. *)
Theorem other_status_is_proxied_verbatim (this : Signer) (req fetchReq : Request)
    (fetchResp : Response) (sURL : URL) (eos : bool) (act : string) (tv : Z) :
  reachesDispatch this req fetchReq fetchResp sURL eos act tv ->
  StatusCode fetchResp <> 200%Z -> StatusCode fetchResp <> 304%Z ->
  readErr (Body fetchResp) = false ->
  proxiedVerbatim (varyResponse newResponseWriter)
    (ServeHTTP this newResponseWriter req) fetchResp.
Proof.
  intros Hd H2 H3 He.
  rewrite (ServeHTTP_dispatch_refused _ _ _ _ _ _ _ _ _ Hd).
  - now apply proxyUnconsumed_verbatim.
  - right. now split.
Qed.

Lemma other_status_is_proxied_verbatim_witness :
  let out := ServeHTTP (exampleSigner redirectUpstream [] 90000) newResponseWriter
               (exampleRequest signForm ∅) in
  proxiedVerbatim (varyResponse newResponseWriter) out (exampleFetched redirectUpstream) /\
  sentStatus out = Some 301%Z /\
  sentHeader out !! "Location" = Some ["https://example.com/new.html"].
Proof.
  cbv zeta. split; [|split; vm_compute; reflexivity].
  apply (other_status_is_proxied_verbatim (exampleSigner redirectUpstream [] 90000)
           (exampleRequest signForm ∅) exampleFetchRequest (exampleFetched redirectUpstream)
           (exampleURL "/doc.html") false "google" 5).
  - apply example_reachesDispatch.
  - discriminate.
  - discriminate.
  - reflexivity.
Defined.

(** ** Every path of the handler *)

Lemma fetchAndSign_inl (req : Request) (form : gmap string (list string)) (e : HTTPError) :
  fetchAndSign req form = inl e -> ErrStatusCode e = StatusBadRequest.
Proof.
  unfold fetchAndSign. cbv zeta.
  destruct (negb _); [discriminate|].
  destruct (1 <? formLen form "fetch")%nat; [now intros [= <-]|].
  destruct (negb _); [now intros [= <-] | discriminate].
Qed.

Lemma fetchURL_inl (this : Signer) (fetch : URL) (r : Request) (e : HTTPError) :
  fetchURL this fetch r = inl e ->
  (ErrStatusCode e = StatusInternalServerError /\
   exists msg, http_NewRequest this "GET" (URL_String this fetch) = Err msg) \/
  (ErrStatusCode e = StatusBadGateway /\
   exists req0 msg,
     http_NewRequest this "GET" (URL_String this fetch) = Ok req0 /\
     client_Do this (outboundRequest this r req0) = Err msg).
Proof.
  rewrite fetchURL_stages.
  destruct (http_NewRequest this "GET" (URL_String this fetch)) as [req0|msg].
  - destruct (client_Do this (outboundRequest this r req0)) as [resp|msg] eqn:E;
      [discriminate|].
    intros [= <-]. right. split; [reflexivity|]. now exists req0, msg.
  - intros [= <-]. left. split; [reflexivity|]. now exists msg.
Qed.

(** The handler ends in one of four ways: an error reply, the proxy, the
    [304] reply, or a signed exchange. *)
Lemma ServeHTTP_paths (this : Signer) (resp0 : ResponseWriter) (req : Request) :
  let resp := varyResponse resp0 in
  let out := ServeHTTP this resp0 req in
  (exists e, out = LogAndRespond e resp /\
     (ErrStatusCode e = StatusBadRequest \/ ErrStatusCode e = StatusInternalServerError \/
      ErrStatusCode e = StatusBadGateway \/
      exists fetch sign, parseURLs this fetch sign = inl e)) \/
  (exists u fetchReq fetchResp,
     fetchURLAndMeasure this u req = inr (fetchReq, fetchResp) /\
     ((exists header prefix suffix,
         out = proxyImpl resp header (StatusCode fetchResp) prefix suffix) \/
      (StatusCode fetchResp = 304%Z /\
       exists h, out = WriteHeader (withHeader resp h) StatusNotModified) \/
      (StatusCode fetchResp = 200%Z /\
       exists params e, out = writeSignedExchange resp params e))).
Proof.
  cbv zeta. unfold ServeHTTP. fold (varyResponse resp0).
  generalize (varyResponse resp0). intros resp.
  destruct (ParsedForm req) as [form|].
  2:{ left. eexists. split; [reflexivity|]. now left. }
  destruct (fetchAndSign req form) as [err|[fetch sign]] eqn:Hfs.
  { left. exists err. split; [reflexivity|]. left. exact (fetchAndSign_inl _ _ _ Hfs). }
  destruct (parseURLs this fetch sign) as [err|[[u sURL] eos]] eqn:Hp.
  { left. exists err. split; [reflexivity|]. right; right; right. now exists fetch, sign. }
  destruct (fetchURLAndMeasure this u req) as [err|[fetchReq fetchResp]] eqn:Hfetch.
  { left. exists err. split; [reflexivity|].
    destruct (fetchURL_inl _ _ _ _ Hfetch) as [[H _]|[H _]]; tauto. }
  assert (Hproxy : exists header prefix suffix,
            proxyUnconsumed resp fetchResp =
            proxyImpl resp header (StatusCode fetchResp) prefix suffix)
    by (now eexists _, _, _).
  destruct (shouldPackage this).
  { right. exists u, fetchReq, fetchResp. split; [exact Hfetch|]. now left. }
  destruct (negotiate this req) as [[act tv]|].
  2:{ right. exists u, fetchReq, fetchResp. split; [exact Hfetch|]. now left. }
  destruct (Z.eqb_spec (StatusCode fetchResp) 200) as [Hst|Hst].
  - destruct (validateFetch this fetchReq fetchResp).
    { right. exists u, fetchReq, fetchResp. split; [exact Hfetch|]. now left. }
    destruct (eos && hasStatefulHeader (RespHeader fetchResp)).
    { right. exists u, fetchReq, fetchResp. split; [exact Hfetch|]. now left. }
    destruct (hasVariants (RespHeader fetchResp)).
    { right. exists u, fetchReq, fetchResp. split; [exact Hfetch|]. now left. }
    set (params := {| signURL := sURL; ampCacheTransformHeader := act;
                      transformVersion := tv |}).
    destruct (Z.lt_ge_cases (Z.of_nat (String.length (unread (Body fetchResp))))
                maxSignableBodyLength) as [Hlt|Hge].
    + rewrite (consumeAndSign_whole _ _ _ _ Hlt).
      destruct (readErr (Body fetchResp)).
      { left. eexists. split; [reflexivity|]. right; right; now left. }
      right. exists u, fetchReq, fetchResp. split; [exact Hfetch|].
      destruct (serveSignedExchange_cases this resp (consumed fetchResp) params)
        as [(md & e & _ & ->)|(h & -> & _ & _)].
      * right; right. split; [exact Hst|]. now exists params, e.
      * left. now eexists _, _, _.
    + rewrite (consumeAndSign_capped _ _ _ _ Hge).
      right. exists u, fetchReq, fetchResp. split; [exact Hfetch|].
      left. now eexists _, _, _.
  - right. exists u, fetchReq, fetchResp. split; [exact Hfetch|].
    destruct (Z.eqb_spec (StatusCode fetchResp) 304) as [H3|H3].
    + right; left. split; [exact H3|]. now eexists.
    + now left.
Qed.

(** The handler always answers, and with a status that is [400], [500] or
    [502], the status of the error [parseURLs] returned, or the status of
    the upstream response. *)
Theorem ServeHTTP_answers (this : Signer) (req : Request) :
  exists status h,
    rw_sent (ServeHTTP this newResponseWriter req) = Some (status, h) /\
    (status = StatusBadRequest \/ status = StatusInternalServerError \/
     status = StatusBadGateway \/
     (exists fetch sign e, parseURLs this fetch sign = inl e /\ status = ErrStatusCode e) \/
     (exists u fetchReq fetchResp,
        fetchURLAndMeasure this u req = inr (fetchReq, fetchResp) /\
        status = StatusCode fetchResp)).
Proof.
  destruct (ServeHTTP_paths this newResponseWriter req)
    as [(e & -> & He)|(u & fetchReq & fetchResp & Hf & H)].
  - exists (ErrStatusCode e). eexists.
    split; [apply LogAndRespond_sent_fresh; reflexivity|].
    destruct He as [He|[He|[He|(fetch & sign & He)]]]; auto.
    right; right; right; left. now exists fetch, sign, e.
  - exists (StatusCode fetchResp).
    assert (Hlast : exists u fetchReq0 fetchResp0,
              fetchURLAndMeasure this u req = inr (fetchReq0, fetchResp0) /\
              StatusCode fetchResp = StatusCode fetchResp0)
      by (now exists u, fetchReq, fetchResp).
    destruct H as [(header & prefix & suffix & ->)|[(H3 & h & ->)|(H2 & params & e & ->)]].
    + eexists. split; [apply proxyImpl_sent; reflexivity | tauto].
    + eexists. split; [|tauto]. rewrite H3. apply WriteHeader_sent_fresh. reflexivity.
    + destruct (writeSignedExchange_clean (varyResponse newResponseWriter) params e
                  eq_refl eq_refl) as (_ & _ & h & Hsent & _).
      exists h. split; [|tauto]. now rewrite H2.
Qed.

(** A request is counted at most once as a document, as signed exactly when
    a signed exchange is written, which is sent with status [200]; the
    requests that are not counted are those answered with an error reply or
    with [304]. *)
Theorem documents_counted_once (this : Signer) (req : Request) :
  let out := ServeHTTP this newResponseWriter req in
  match exchangeOf out with
  | Some _ => rw_documents out = [signed] /\ sentStatus out = Some 200%Z
  | None => rw_documents out = [] \/ rw_documents out = [proxied_unsigned]
  end /\
  (rw_documents out = [] ->
   sentStatus out = Some 304%Z \/
   exists e, out = LogAndRespond e (varyResponse newResponseWriter)).
Proof.
  cbv zeta.
  destruct (ServeHTTP_paths this newResponseWriter req)
    as [(e & -> & _)|(u & fetchReq & fetchResp & _ &
         [(header & prefix & suffix & ->)|[(_ & h & ->)|(_ & params & e & ->)]])].
  - rewrite exchangeOf_LogAndRespond by reflexivity.
    rewrite LogAndRespond_documents. split; [now left|].
    intros _. right. now exists e.
  - destruct (proxyImpl_raw (varyResponse newResponseWriter) header (StatusCode fetchResp)
                prefix suffix "" eq_refl) as (b & Hb).
    rewrite (exchangeOf_raw _ _ Hb), proxyImpl_documents.
    split; [now right | discriminate].
  - unfold exchangeOf. autorewrite with writer.
    cbn [varyResponse withHeader rw_body newResponseWriter rw_documents].
    split; [now left|]. intros _. left. reflexivity.
  - destruct (writeSignedExchange_clean (varyResponse newResponseWriter) params e
                eq_refl eq_refl) as (He & Hd & h & Hsent & _).
    rewrite He, Hd. split; [|discriminate].
    split; [reflexivity|]. unfold sentStatus. now rewrite Hsent.
Qed.

(** ** Requests that are refused before any fetch *)

(** A request whose form cannot be parsed, or that has no sign URL in its
    path and not exactly one [sign] form value, is answered with [400]; no
    exchange is written and no document is counted. *)
Theorem bad_request_is_refused (this : Signer) (req : Request) :
  ParsedForm req = None \/
  (exists form, ParsedForm req = Some form /\
                default "" (Params req !! "signURL") = "" /\
                formLen form "sign" <> 1%nat) ->
  let out := ServeHTTP this newResponseWriter req in
  sentStatus out = Some StatusBadRequest /\
  exchangeOf out = None /\
  rw_documents out = [].
Proof.
  intros H. cbv zeta.
  assert (He : exists e, ErrStatusCode e = StatusBadRequest /\
                 ServeHTTP this newResponseWriter req =
                 LogAndRespond e (varyResponse newResponseWriter)).
  { unfold ServeHTTP. fold (varyResponse newResponseWriter).
    destruct H as [->|(form & -> & Hp & Hlen)]; [now eexists|].
    destruct (fetchAndSign req form) as [err|[fetch sign]] eqn:Hfs.
    - exists err. split; [exact (fetchAndSign_inl _ _ _ Hfs) | reflexivity].
    - exfalso. revert Hfs. unfold fetchAndSign. cbv zeta. rewrite Hp.
      cbn [String.eqb negb].
      destruct (1 <? formLen form "fetch")%nat; [discriminate|].
      apply Nat.eqb_neq in Hlen. rewrite Hlen. discriminate. }
  destruct He as (e & Hst & ->).
  split; [|split].
  - unfold sentStatus.
    rewrite (LogAndRespond_sent_fresh e (varyResponse newResponseWriter) eq_refl).
    cbn. now rewrite Hst.
  - now apply exchangeOf_LogAndRespond.
  - now rewrite LogAndRespond_documents.
Qed.

Lemma bad_request_is_refused_witness :
  let out := ServeHTTP (exampleSigner plainUpstream [] 90000) newResponseWriter
               noSignRequest in
  sentStatus out = Some StatusBadRequest /\ exchangeOf out = None /\ rw_documents out = [].
Proof.
  apply (bad_request_is_refused (exampleSigner plainUpstream [] 90000) noSignRequest).
  right. exists {[ "fetch" := ["/a.html"] ]}.
  split; [reflexivity|]. split; [reflexivity|]. vm_compute. discriminate.
Defined.

(** When the fetch fails the client gets the status of the failure: [500]
    when the upstream request could not be built, [502] when the client
    could not get a response.  No exchange is written and no document is
    counted. *)
Theorem fetch_failure_is_answered (this : Signer) (req : Request)
    (form : gmap string (list string)) (fetch sign : string) (u sURL : URL) (eos : bool)
    (e : HTTPError) :
  ParsedForm req = Some form ->
  fetchAndSign req form = inr (fetch, sign) ->
  parseURLs this fetch sign = inr (u, sURL, eos) ->
  fetchURLAndMeasure this u req = inl e ->
  let out := ServeHTTP this newResponseWriter req in
  sentStatus out = Some (ErrStatusCode e) /\
  ((ErrStatusCode e = StatusInternalServerError /\
    exists msg, http_NewRequest this "GET" (URL_String this u) = Err msg) \/
   (ErrStatusCode e = StatusBadGateway /\
    exists req0 msg,
      http_NewRequest this "GET" (URL_String this u) = Ok req0 /\
      client_Do this (outboundRequest this req req0) = Err msg)) /\
  exchangeOf out = None /\
  rw_documents out = [].
Proof.
  intros Hf Hfs Hp Hfetch. cbv zeta.
  unfold ServeHTTP. fold (varyResponse newResponseWriter).
  rewrite Hf, Hfs, Hp, Hfetch.
  split; [|split; [|split]].
  - unfold sentStatus.
    now rewrite (LogAndRespond_sent_fresh e (varyResponse newResponseWriter) eq_refl).
  - exact (fetchURL_inl _ _ _ _ Hfetch).
  - now apply exchangeOf_LogAndRespond.
  - now rewrite LogAndRespond_documents.
Qed.

Lemma fetch_failure_is_answered_witness :
  let out := ServeHTTP unreachableSigner newResponseWriter (exampleRequest signForm ∅) in
  sentStatus out = Some StatusBadGateway /\ exchangeOf out = None /\ rw_documents out = [].
Proof.
  destruct (fetch_failure_is_answered unreachableSigner (exampleRequest signForm ∅)
              signForm "" "/doc.html" (exampleURL "/doc.html") (exampleURL "/doc.html") false
              (NewHTTPError StatusBadGateway "Error fetching: "))
    as (H1 & _ & H2 & H3);
    [reflexivity | vm_compute; reflexivity | vm_compute; reflexivity
    | vm_compute; reflexivity |].
  cbv zeta. split; [exact H1|]. split; [exact H2 | exact H3].
Defined.

(** ** The signed exchange, inside and outside *)

Lemma admitted_signed (this : Signer) (req : Request) (fetchResp : Response)
    (params : SXGParams) (e : Exchange) :
  admitted this req fetchResp params ->
  exchangeOf (ServeHTTP this newResponseWriter req) = Some e ->
  exists metadata,
    signedSteps this (consumed fetchResp) params metadata e /\
    ServeHTTP this newResponseWriter req =
    writeSignedExchange (varyResponse newResponseWriter) params e.
Proof.
  intros Hadm He.
  rewrite (ServeHTTP_admitted _ _ _ _ _ Hadm) in He |- *.
  destruct (consumeAndSign_signed this (varyResponse newResponseWriter) fetchResp params e
              eq_refl eq_refl He) as (Hlt & Herr & md & Hsteps).
  exists md. split; [exact Hsteps|].
  rewrite (consumeAndSign_whole _ _ _ _ Hlt), Herr.
  destruct (serveSignedExchange_cases this (varyResponse newResponseWriter)
              (consumed fetchResp) params)
    as [(md' & e' & [Hp' _] & ->)|(h & _ & Hno & _)].
  - destruct Hsteps as [Hp _].
    now destruct (packaged_functional _ _ _ _ _ _ _ Hp Hp') as [_ <-].
  - now destruct (Hno md e).
Qed.

Lemma packaged_exchange (this : Signer) (f : consumedFetchResp) (params : SXGParams)
    (metadata : Metadata) (e : Exchange) :
  packaged this f params metadata e ->
  exists transformed linkHeader digest,
    transformer_Process this (transformerRequest this f params) = Ok (transformed, metadata) /\
    formatLinkHeader this (Preloads metadata) = (linkHeader, None) /\
    ResponseHeaders e =
      Header_Add
        (Header_Add (mutateFetchedHeader this (cHeader f) linkHeader transformed)
           "Content-Encoding" "mi-sha256-03")
        "Digest" digest /\
    ExVersion e = SxgVersion /\
    RequestURI e = URL_String this (signURL params) /\
    RequestMethod e = "GET" /\
    RequestHeaders e = ∅ /\
    ResponseStatus e = cStatusCode f.
Proof.
  intros (t & l & e0 & c & v & Ht & Hl & Hm & _ & _ & Ha & _).
  unfold MiEncodePayload in Hm.
  destruct (mice_Encode this _ miRecordSize) as [[encoded digest]|]; [|discriminate].
  injection Hm as <-.
  unfold AddSignatureHeader in Ha.
  destruct (sign_error this _ _); [discriminate|].
  injection Ha as <-.
  exists t, l, digest. cbn. auto 10.
Qed.

Lemma written_canonical :
  map CanonicalHeaderKey writtenInnerHeaders = writtenInnerHeaders.
Proof. vm_compute. reflexivity. Qed.

(** The header map after the mutations, read key by key. *)
Lemma mutateFetchedHeader_lookup (this : Signer) (h : Header) (linkHeader transformed : string) :
  let m := mutateFetchedHeader this h linkHeader transformed in
  m !! "Content-Security-Policy" =
    Some [MutateFetchedContentSecurityPolicy (strings_mapUnicodeToLower this)
            (Header_Get h "Content-Security-Policy")] /\
  m !! "X-Content-Type-Options" = Some ["nosniff"] /\
  m !! "Content-Length" = Some [Itoa (Z.of_nat (String.length transformed))] /\
  m !! "Link" = (if String.eqb linkHeader "" then None else Some [linkHeader]) /\
  (forall k, ~ In k (map CanonicalHeaderKey statefulResponseHeaders) ->
             ~ In k writtenInnerHeaders -> m !! k = h !! k).
Proof.
  cbv zeta. unfold mutateFetchedHeader. cbv zeta.
  set (h0 := fold_left Header_Del statefulResponseHeaders h).
  set (h1 := if String.eqb linkHeader "" then Header_Del h0 "Link"
             else Header_Set h0 "Link" linkHeader).
  assert (H1 : forall k, k <> "Link" -> h1 !! k = h0 !! k).
  { intros k Hk. subst h1. destruct (String.eqb linkHeader "").
    - now apply Header_Del_ne.
    - now apply Header_Set_ne. }
  assert (Hl : h1 !! "Link" = if String.eqb linkHeader "" then None else Some [linkHeader]).
  { subst h1. destruct (String.eqb linkHeader "").
    - exact (Header_Del_eq h0 "Link").
    - unfold Header_Set. exact (lookup_insert_eq h0 "Link" [linkHeader]). }
  assert (H0 : forall k, ~ In k (map CanonicalHeaderKey statefulResponseHeaders) ->
                         h0 !! k = h !! k)
    by (intros k Hk; now apply fold_Header_Del_other).
  clearbody h1. unfold Header_Set, Header_Get.
  change (CanonicalHeaderKey "Content-Security-Policy") with "Content-Security-Policy".
  change (CanonicalHeaderKey "X-Content-Type-Options") with "X-Content-Type-Options".
  change (CanonicalHeaderKey "Content-Length") with "Content-Length".
  split; [|split; [|split; [|split]]].
  - rewrite lookup_insert_eq. do 3 f_equal.
    rewrite !lookup_insert_ne by discriminate.
    rewrite H1 by discriminate. rewrite H0; [reflexivity|].
    vm_compute. intuition discriminate.
  - rewrite lookup_insert_ne by discriminate. now rewrite lookup_insert_eq.
  - rewrite !lookup_insert_ne by discriminate. now rewrite lookup_insert_eq.
  - rewrite !lookup_insert_ne by discriminate. exact Hl.
  - intros k Hs Hw. cbn [writtenInnerHeaders In] in Hw.
    rewrite !lookup_insert_ne by (intros E; subst k; tauto).
    rewrite H1 by (intros E; subst k; tauto). now apply H0.
Qed.

Lemma signed_inner_headers (this : Signer) (req : Request) (fetchResp : Response)
    (params : SXGParams) (e : Exchange) :
  admitted this req fetchResp params ->
  exchangeOf (ServeHTTP this newResponseWriter req) = Some e ->
  exists transformed metadata linkHeader digest,
    transformer_Process this (transformerRequest this (consumed fetchResp) params)
      = Ok (transformed, metadata) /\
    formatLinkHeader this (Preloads metadata) = (linkHeader, None) /\
    ResponseHeaders e =
      Header_Add
        (Header_Add (mutateFetchedHeader this (RespHeader fetchResp) linkHeader transformed)
           "Content-Encoding" "mi-sha256-03")
        "Digest" digest /\
    ExVersion e = SxgVersion /\
    RequestURI e = URL_String this (signURL params) /\
    RequestMethod e = "GET" /\
    RequestHeaders e = ∅ /\
    ResponseStatus e = 200%Z.
Proof.
  intros Hadm He.
  destruct (admitted_signed _ _ _ _ _ Hadm He) as (md & [Hp _] & _).
  destruct (packaged_exchange _ _ _ _ _ Hp)
    as (t & l & d & Ht & Hl & Hh & Hv & Hu & Hm & Hr & Hs).
  exists t, md, l, d. cbn [consumed cHeader cStatusCode] in Hh, Hs.
  destruct Hadm as (? & ? & _ & Hst & _). rewrite Hst in Hs. auto 10.
Qed.

(** The inner response of a signed exchange has one
    [Content-Security-Policy] value, the rewrite of the first value the
    upstream response had under that name (of the empty policy when it had
    none, which leaves the fixed directives), and
    [X-Content-Type-Options: nosniff]. *)
Theorem signed_exchange_policy (this : Signer) (req : Request) (fetchResp : Response)
    (params : SXGParams) (e : Exchange) :
  admitted this req fetchResp params ->
  exchangeOf (ServeHTTP this newResponseWriter req) = Some e ->
  ResponseHeaders e !! "Content-Security-Policy" =
    Some [MutateFetchedContentSecurityPolicy (strings_mapUnicodeToLower this)
            (Header_Get (RespHeader fetchResp) "Content-Security-Policy")] /\
  ResponseHeaders e !! "X-Content-Type-Options" = Some ["nosniff"].
Proof.
  intros Hadm He.
  destruct (signed_inner_headers _ _ _ _ _ Hadm He) as (t & md & l & d & _ & _ & -> & _).
  destruct (mutateFetchedHeader_lookup this (RespHeader fetchResp) l t)
    as (Hcsp & Hx & _).
  rewrite !Header_Add_ne by (vm_compute; discriminate). now split.
Qed.

Lemma linkUpstream_admitted :
  admitted (exampleSigner linkUpstream [stylePreload] 90000) (exampleRequest signForm ∅)
    linkUpstream exampleParams.
Proof.
  assert (H : exampleFetched linkUpstream = linkUpstream) by (vm_compute; reflexivity).
  rewrite <- H at 2. apply example_admitted; vm_compute; reflexivity.
Qed.

Lemma linkExchange_written : exchangeOf linkResponse = Some linkExchange.
Proof. vm_compute. reflexivity. Qed.

Lemma signed_exchange_policy_witness :
  Header_Get (RespHeader linkUpstream) "Content-Security-Policy" = "font-src https://f.example" /\
  ResponseHeaders linkExchange !! "Content-Security-Policy" =
    Some ["font-src https://f.example;" +:+ cspSuffix] /\
  ResponseHeaders linkExchange !! "X-Content-Type-Options" = Some ["nosniff"].
Proof.
  destruct (signed_exchange_policy _ _ _ _ _ linkUpstream_admitted linkExchange_written)
    as [H1 H2].
  split; [vm_compute; reflexivity|]. split; [|exact H2].
  rewrite H1. vm_compute. reflexivity.
Defined.

(** The [Link] header of the inner response is the one formatted from the
    transformer's preloads, or is absent when that value is empty: a [Link]
    header of the upstream response is never signed. *)
Theorem signed_exchange_link (this : Signer) (req : Request) (fetchResp : Response)
    (params : SXGParams) (e : Exchange) :
  admitted this req fetchResp params ->
  exchangeOf (ServeHTTP this newResponseWriter req) = Some e ->
  exists transformed metadata linkHeader,
    transformer_Process this (transformerRequest this (consumed fetchResp) params)
      = Ok (transformed, metadata) /\
    formatLinkHeader this (Preloads metadata) = (linkHeader, None) /\
    ResponseHeaders e !! "Link" =
      if String.eqb linkHeader "" then None else Some [linkHeader].
Proof.
  intros Hadm He.
  destruct (signed_inner_headers _ _ _ _ _ Hadm He)
    as (t & md & l & d & Ht & Hl & -> & _).
  destruct (mutateFetchedHeader_lookup this (RespHeader fetchResp) l t)
    as (_ & _ & _ & Hlink & _).
  exists t, md, l. split; [exact Ht|]. split; [exact Hl|].
  now rewrite !Header_Add_ne by (vm_compute; discriminate).
Qed.

Lemma signed_exchange_link_witness :
  RespHeader linkUpstream !! "Link" =
    Some ["<https://tracker.example/p.gif>;rel=preload;as=image"] /\
  ResponseHeaders linkExchange !! "Link" =
    Some ["<https://example.comhttps://cdn.example/s.css>;rel=preload;as=style;media=" +:+
          String quoteByte ("print" +:+ String quoteByte "")].
Proof.
  split; [vm_compute; reflexivity|].
  destruct (signed_exchange_link _ _ _ _ _ linkUpstream_admitted linkExchange_written)
    as (t & md & l & Ht & Hl & Hlink).
  rewrite Hlink. injection Ht as <- <-.
  cbn [Preloads] in Hl. revert Hl. vm_compute. now intros [= <-].
Defined.

(** The exchange is a [GET] of the sign URL without request headers, with
    status [200]; its [Content-Length] is the length of the transformed
    document, in decimal, as it was before the payload was encoded. *)
Theorem signed_exchange_request (this : Signer) (req : Request) (fetchResp : Response)
    (params : SXGParams) (e : Exchange) :
  admitted this req fetchResp params ->
  exchangeOf (ServeHTTP this newResponseWriter req) = Some e ->
  RequestURI e = URL_String this (signURL params) /\
  RequestMethod e = "GET" /\
  RequestHeaders e = ∅ /\
  ResponseStatus e = 200%Z /\
  exists transformed metadata,
    transformer_Process this (transformerRequest this (consumed fetchResp) params)
      = Ok (transformed, metadata) /\
    ResponseHeaders e !! "Content-Length" =
      Some [Itoa (Z.of_nat (String.length transformed))].
Proof.
  intros Hadm He.
  destruct (signed_inner_headers _ _ _ _ _ Hadm He)
    as (t & md & l & d & Ht & _ & Hh & _ & Hu & Hm & Hr & Hs).
  destruct (mutateFetchedHeader_lookup this (RespHeader fetchResp) l t)
    as (_ & _ & Hlen & _).
  split; [exact Hu|]. split; [exact Hm|]. split; [exact Hr|]. split; [exact Hs|].
  exists t, md. split; [exact Ht|].
  now rewrite Hh, !Header_Add_ne by (vm_compute; discriminate).
Qed.

Lemma signed_exchange_request_witness :
  RequestURI linkExchange = "https://example.com/doc.html" /\
  RequestMethod linkExchange = "GET" /\
  RequestHeaders linkExchange = ∅ /\
  ResponseStatus linkExchange = 200%Z /\
  ResponseHeaders linkExchange !! "Content-Length" = Some ["48"].
Proof.
  destruct (signed_exchange_request _ _ _ _ _ linkUpstream_admitted linkExchange_written)
    as (H1 & H2 & H3 & H4 & t & md & Ht & H5).
  split; [exact H1|]. split; [exact H2|]. split; [exact H3|]. split; [exact H4|].
  rewrite H5. injection Ht as <- _. vm_compute. reflexivity.
Defined.

(** A header of the upstream response that is neither stateful nor written
    by the signer is signed as it was fetched. *)
Theorem signed_exchange_keeps_other_headers (this : Signer) (req : Request)
    (fetchResp : Response) (params : SXGParams) (e : Exchange) (k : string) :
  admitted this req fetchResp params ->
  exchangeOf (ServeHTTP this newResponseWriter req) = Some e ->
  ~ In k (map CanonicalHeaderKey statefulResponseHeaders) ->
  ~ In k writtenInnerHeaders ->
  ResponseHeaders e !! k = RespHeader fetchResp !! k.
Proof.
  intros Hadm He Hs Hw.
  destruct (signed_inner_headers _ _ _ _ _ Hadm He) as (t & md & l & d & _ & _ & -> & _).
  destruct (mutateFetchedHeader_lookup this (RespHeader fetchResp) l t)
    as (_ & _ & _ & _ & Hother).
  cbn [writtenInnerHeaders In] in Hw.
  rewrite !Header_Add_ne.
  - now apply Hother.
  - change (CanonicalHeaderKey "Content-Encoding") with "Content-Encoding". intros ->. tauto.
  - change (CanonicalHeaderKey "Digest") with "Digest". intros ->. tauto.
Qed.

Lemma signed_exchange_keeps_other_headers_witness :
  ResponseHeaders linkExchange !! "Content-Type" = Some ["text/html"].
Proof.
  rewrite (signed_exchange_keeps_other_headers _ _ _ _ _ "Content-Type"
             linkUpstream_admitted linkExchange_written).
  - vm_compute. reflexivity.
  - vm_compute. intuition discriminate.
  - vm_compute. intuition discriminate.
Defined.

Lemma writeSignedExchange_sent (resp : ResponseWriter) (params : SXGParams) (e : Exchange) :
  rw_sent resp = None ->
  rw_sent (writeSignedExchange resp params e) =
  Some (200%Z,
        Header_Set
          (Header_Set
             (Header_Set
                (if String.eqb (ampCacheTransformHeader params) "" then rw_header resp
                 else Header_Set (rw_header resp) "AMP-Cache-Transform"
                        (ampCacheTransformHeader params))
                "Content-Type" SxgContentType)
             "Cache-Control" "no-transform, max-age=0")
          "X-Content-Type-Options" "nosniff").
Proof.
  intros Hs. unfold writeSignedExchange.
  destruct (String.eqb (ampCacheTransformHeader params) ""); cbv zeta;
    autorewrite with writer; rewrite WriteChunk_sent_fresh;
    autorewrite with writer; auto.
Qed.

(** The outer response of a signed exchange has status [200] and exactly
    these headers: the signed-exchange content type, a zero freshness
    lifetime, [nosniff], the handler's [Vary], and, when the negotiation
    headers are required, the [AMP-Cache-Transform] value chosen for the
    request.  No header of the upstream response is among them. *)
Theorem signed_response_outer_headers (this : Signer) (req : Request) (e : Exchange) :
  exchangeOf (ServeHTTP this newResponseWriter req) = Some e ->
  exists h,
    rw_sent (ServeHTTP this newResponseWriter req) = Some (200%Z, h) /\
    h !! "Content-Type" = Some [SxgContentType] /\
    h !! "Cache-Control" = Some ["no-transform, max-age=0"] /\
    h !! "X-Content-Type-Options" = Some ["nosniff"] /\
    h !! "Vary" = Some ["Accept, AMP-Cache-Transform"] /\
    h !! "Amp-Cache-Transform" =
      (if requireHeaders this
       then Some [fst (ShouldSendSXG this (GetJoined (ReqHeader req) "AMP-Cache-Transform"))]
       else None) /\
    (forall k, ~ In k signedOuterHeaders -> h !! k = None).
Proof.
  intros He.
  destruct (ServeHTTP_signed this newResponseWriter req e eq_refl eq_refl He)
    as (fetchResp & params & Hadm & _).
  destruct (admitted_signed _ _ _ _ _ Hadm He) as (md & _ & ->).
  rewrite writeSignedExchange_sent by reflexivity.
  eexists. split; [reflexivity|].
  assert (Hact : if requireHeaders this
                 then ampCacheTransformHeader params =
                      fst (ShouldSendSXG this (GetJoined (ReqHeader req) "AMP-Cache-Transform"))
                      /\ ampCacheTransformHeader params <> ""
                 else ampCacheTransformHeader params = "").
  { destruct Hadm as (? & ? & (? & ? & ? & ? & _ & _ & _ & _ & _ & Hn) & _).
    exact (negotiate_Some _ _ _ _ Hn). }
  unfold Header_Set.
  change (CanonicalHeaderKey "Content-Type") with "Content-Type".
  change (CanonicalHeaderKey "Cache-Control") with "Cache-Control".
  change (CanonicalHeaderKey "X-Content-Type-Options") with "X-Content-Type-Options".
  change (CanonicalHeaderKey "AMP-Cache-Transform") with "Amp-Cache-Transform".
  change (rw_header (varyResponse newResponseWriter))
    with (<["Vary" := ["Accept, AMP-Cache-Transform"]]> (∅ : Header)).
  split; [rewrite !lookup_insert_ne by discriminate; now rewrite lookup_insert_eq|].
  split; [rewrite !lookup_insert_ne by discriminate; now rewrite lookup_insert_eq|].
  split; [now rewrite lookup_insert_eq|].
  destruct (requireHeaders this).
  - destruct Hact as [Hact Hne]. apply String.eqb_neq in Hne. rewrite Hne, <- Hact.
    split; [rewrite !lookup_insert_ne by discriminate; now rewrite lookup_insert_eq|].
    split; [rewrite !lookup_insert_ne by discriminate; now rewrite lookup_insert_eq|].
    intros k Hk. cbn [signedOuterHeaders In] in Hk.
    rewrite !lookup_insert_ne by (intros E; subst k; tauto). apply lookup_empty.
  - rewrite Hact. cbn [String.eqb].
    split; [rewrite !lookup_insert_ne by discriminate; now rewrite lookup_insert_eq|].
    split; [rewrite !lookup_insert_ne by discriminate; apply lookup_empty|].
    intros k Hk. cbn [signedOuterHeaders In] in Hk.
    rewrite !lookup_insert_ne by (intros E; subst k; tauto). apply lookup_empty.
Qed.

Lemma signed_response_outer_headers_witness :
  exists h,
    rw_sent linkResponse = Some (200%Z, h) /\
    h !! "Amp-Cache-Transform" = Some ["google"] /\
    h !! "Link" = None /\
    h !! "Content-Security-Policy" = None.
Proof.
  destruct (signed_response_outer_headers _ _ _ linkExchange_written)
    as (h & Hsent & _ & _ & _ & _ & Hact & Hother).
  exists h. split; [exact Hsent|]. split; [exact Hact|].
  split; apply Hother; vm_compute; intuition discriminate.
Defined.

(** ** Failures while packaging *)

Lemma drop_string_nil (n : nat) (s : string) :
  drop_string n s = "" -> (String.length s <= n)%nat.
Proof.
  revert s. induction n as [|n IH]; intros [|c s]; cbn [drop_string String.length];
    try discriminate; try lia.
  intros H. apply IH in H. lia.
Qed.

(** When the transformer fails, or the preloads it reports give no valid
    [Link] header, the response is proxied as it was fetched: the headers
    have not been touched yet, so the stateful headers of the upstream
    response reach the client. *)
Theorem transform_failure_is_proxied_verbatim (this : Signer) (req : Request)
    (fetchResp : Response) (params : SXGParams) :
  admitted this req fetchResp params ->
  readErr (Body fetchResp) = false ->
  (Z.of_nat (String.length (unread (Body fetchResp))) < maxSignableBodyLength)%Z ->
  (exists msg,
     transformer_Process this (transformerRequest this (consumed fetchResp) params) = Err msg) \/
  (exists transformed metadata msg,
     transformer_Process this (transformerRequest this (consumed fetchResp) params)
       = Ok (transformed, metadata) /\
     snd (formatLinkHeader this (Preloads metadata)) = Some msg) ->
  proxiedVerbatim (varyResponse newResponseWriter)
    (ServeHTTP this newResponseWriter req) fetchResp.
Proof.
  intros Hadm Herr Hlt H.
  rewrite (ServeHTTP_admitted _ _ _ _ _ Hadm), (consumeAndSign_whole _ _ _ _ Hlt), Herr.
  assert (Heq : serveSignedExchange this (varyResponse newResponseWriter)
                  (consumed fetchResp) params =
                proxyConsumed (varyResponse newResponseWriter) (consumed fetchResp)).
  { unfold serveSignedExchange. fold (transformerRequest this (consumed fetchResp) params).
    destruct H as [(msg & ->)|(t & md & msg & -> & Hl)]; [reflexivity|].
    destruct (formatLinkHeader this (Preloads md)) as [l [m|]]; [reflexivity|].
    discriminate. }
  rewrite Heq.
  destruct (proxyConsumed_clean (varyResponse newResponseWriter) (consumed fetchResp)
              eq_refl eq_refl) as (H1 & H2 & H3).
  split; [exact H1|]. split; [exact H2|]. split; [exact H3|].
  exact (exchangeOf_raw _ _ H2).
Qed.

Lemma transform_failure_is_proxied_verbatim_witness :
  let out := ServeHTTP brokenTransformSigner newResponseWriter (exampleRequest signForm ∅) in
  proxiedVerbatim (varyResponse newResponseWriter) out cookieUpstream /\
  sentHeader out !! "Set-Cookie" = Some ["session=1"].
Proof.
  cbv zeta. split; [|vm_compute; reflexivity].
  apply (transform_failure_is_proxied_verbatim brokenTransformSigner
           (exampleRequest signForm ∅) cookieUpstream exampleParams).
  - exists exampleFetchRequest, false. split.
    + exists signForm, "", "/doc.html", (exampleURL "/doc.html").
      split; [reflexivity|]. split; [vm_compute; reflexivity|].
      split; [vm_compute; reflexivity|]. split; [vm_compute; reflexivity|].
      split; [reflexivity|]. vm_compute. reflexivity.
    + split; [reflexivity|]. split; [reflexivity|].
      split; vm_compute; reflexivity.
  - reflexivity.
  - rewrite maxSignableBodyLength_eq. vm_compute. reflexivity.
  - left. now exists "not an AMP document".
Defined.

(** When reading the body fails before the cap is reached, the client gets
    [502]; nothing is signed and no document is counted. *)
Theorem body_read_failure_is_bad_gateway (this : Signer) (req : Request)
    (fetchResp : Response) (params : SXGParams) :
  admitted this req fetchResp params ->
  readErr (Body fetchResp) = true ->
  (Z.of_nat (String.length (unread (Body fetchResp))) < maxSignableBodyLength)%Z ->
  let out := ServeHTTP this newResponseWriter req in
  sentStatus out = Some StatusBadGateway /\
  exchangeOf out = None /\
  rw_documents out = [].
Proof.
  intros Hadm Herr Hlt. cbv zeta.
  rewrite (ServeHTTP_admitted _ _ _ _ _ Hadm), (consumeAndSign_whole _ _ _ _ Hlt), Herr.
  split; [|split].
  - unfold sentStatus.
    now rewrite (LogAndRespond_sent_fresh _ (varyResponse newResponseWriter) eq_refl).
  - now apply exchangeOf_LogAndRespond.
  - now rewrite LogAndRespond_documents.
Qed.

Lemma brokenStream_admitted :
  admitted (exampleSigner brokenStreamUpstream [] 90000) (exampleRequest signForm ∅)
    (exampleFetched brokenStreamUpstream) exampleParams.
Proof. apply example_admitted; vm_compute; reflexivity. Qed.

Lemma body_read_failure_is_bad_gateway_witness :
  let out := ServeHTTP (exampleSigner brokenStreamUpstream [] 90000) newResponseWriter
               (exampleRequest signForm ∅) in
  sentStatus out = Some StatusBadGateway /\ exchangeOf out = None /\ rw_documents out = [].
Proof.
  destruct (body_read_failure_is_bad_gateway _ _ _ _ brokenStream_admitted)
    as (H1 & H2 & H3).
  - reflexivity.
  - rewrite maxSignableBodyLength_eq. vm_compute. reflexivity.
  - cbv zeta. auto.
Defined.

Lemma proxyImpl_broken_stream (resp : ResponseWriter) (header : Header) (statusCode : Z)
    (t d : string) :
  rw_body resp = [] ->
  exists tail,
    bodyBytes (rw_body (proxyImpl resp header statusCode (Some t)
                          (Some {| unread := d; readErr := true |})))
      = Some ((t +:+ d) +:+ tail) /\
    (d <> "" -> tail = "").
Proof.
  intros Hb. unfold proxyImpl, io_Copy. destruct d as [|c rest].
  - exists (ExternalMsg (NewHTTPError StatusInternalServerError "Error copying response body")).
    split; [|congruence].
    writer. change (Z.of_nat (String.length "") =? 0)%Z with true. cbv iota. writer.
    rewrite Hb, append_nil_r.
    exact (bodyBytes_snoc [Raw t] _ t (bodyBytes_snoc [] t "" eq_refl)).
  - exists "". split; [|reflexivity].
    writer.
    destruct (Z.eqb_spec (Z.of_nat (String.length (String c rest))) 0) as [E|E];
      [cbn [String.length] in E; lia|].
    writer. rewrite Hb, append_nil_r.
    exact (bodyBytes_snoc [Raw t] _ t (bodyBytes_snoc [] t "" eq_refl)).
Qed.

(** When the body reaches the cap and the stream breaks afterwards, the
    client has already been sent the upstream status and headers: it gets
    every byte that could be read, and, when bytes were copied after the
    capped prefix, nothing tells it that the body is cut short.  The
    response counts as an unsigned document. *)
Theorem stream_failure_after_cap (this : Signer) (req : Request)
    (fetchResp : Response) (params : SXGParams) :
  admitted this req fetchResp params ->
  readErr (Body fetchResp) = true ->
  (maxSignableBodyLength <= Z.of_nat (String.length (unread (Body fetchResp))))%Z ->
  let out := ServeHTTP this newResponseWriter req in
  rw_sent out =
    Some (StatusCode fetchResp,
          RespHeader fetchResp ∪ rw_header (varyResponse newResponseWriter)) /\
  (exists tail,
     bodyBytes (rw_body out) = Some (unread (Body fetchResp) +:+ tail) /\
     ((maxSignableBodyLength < Z.of_nat (String.length (unread (Body fetchResp))))%Z ->
      tail = "")) /\
  exchangeOf out = None /\
  rw_documents out = [proxied_unsigned].
Proof.
  intros Hadm Herr Hge. cbv zeta.
  rewrite (ServeHTTP_admitted _ _ _ _ _ Hadm), (consumeAndSign_capped _ _ _ _ Hge).
  unfold proxyPartiallyConsumed. cbn [withBody RespHeader StatusCode Body].
  rewrite Herr.
  set (n := Z.to_nat maxSignableBodyLength).
  destruct (proxyImpl_broken_stream (varyResponse newResponseWriter) (RespHeader fetchResp)
              (StatusCode fetchResp) (take_string n (unread (Body fetchResp)))
              (drop_string n (unread (Body fetchResp))) eq_refl) as (tail & Hb & Htail).
  rewrite take_drop_string in Hb.
  assert (Hbody : exists tail,
            bodyBytes (rw_body (proxyImpl (varyResponse newResponseWriter)
                                  (RespHeader fetchResp) (StatusCode fetchResp)
                                  (Some (take_string n (unread (Body fetchResp))))
                                  (Some {| unread := drop_string n (unread (Body fetchResp));
                                           readErr := true |})))
            = Some (unread (Body fetchResp) +:+ tail) /\
            ((maxSignableBodyLength < Z.of_nat (String.length (unread (Body fetchResp))))%Z ->
             tail = "")).
  { exists tail. split; [exact Hb|]. intros Hlt. apply Htail. intros Hd.
    apply drop_string_nil in Hd. subst n.
    pose proof maxSignableBodyLength_pos. lia. }
  split; [now apply proxyImpl_sent|].
  split; [exact Hbody|].
  split; [exact (exchangeOf_raw _ _ Hb) | now rewrite proxyImpl_documents].
Qed.

Lemma cappedBroken_admitted :
  admitted (exampleSigner cappedBrokenUpstream [] 90000) (exampleRequest signForm ∅)
    (exampleFetched cappedBrokenUpstream) exampleParams.
Proof. apply example_admitted; reflexivity. Qed.

Lemma stream_failure_after_cap_witness :
  let out := ServeHTTP (exampleSigner cappedBrokenUpstream [] 90000) newResponseWriter
               (exampleRequest signForm ∅) in
  sentStatus out = Some 200%Z /\
  exchangeOf out = None /\
  rw_documents out = [proxied_unsigned].
Proof.
  destruct (stream_failure_after_cap _ _ _ _ cappedBroken_admitted)
    as (H1 & _ & H2 & H3).
  - reflexivity.
  - cbn [exampleFetched withRespHeader cappedBrokenUpstream Body unread].
    unfold cappedBody. rewrite repeat_string_length.
    rewrite Z2Nat.id by apply maxSignableBodyLength_pos. lia.
  - cbv zeta. split; [|split; [exact H2 | exact H3]].
    unfold sentStatus. now rewrite H1.
Defined.

(** ** The lifetime of every signature *)

(** Whatever the transformer reports as the maximum age, a value that makes
    the duration wrap around included, a signed exchange the handler sends
    has a signature dated a day before the clock, not yet expired, and valid
    for seven days at most; it is made with the signer's key for its latest
    certificate. *)
Theorem signed_exchange_lifetime (this : Signer) (req : Request) (e : Exchange) :
  exchangeOf (ServeHTTP this newResponseWriter req) = Some e ->
  exists s,
    Signature e = Some s /\
    Date s = (time_Now this - 24 * Hour)%Z /\
    (time_Now this < Expires s)%Z /\
    (Expires s - Date s <= 7 * 24 * 3600 * Second)%Z /\
    Certs s = [certHandler_GetLatestCert this] /\
    PrivKey s = key this.
Proof.
  intros He.
  destruct (ServeHTTP_signed this newResponseWriter req e eq_refl eq_refl He)
    as (fetchResp & params & _ & He').
  destruct (consumeAndSign_signed this (varyResponse newResponseWriter) fetchResp params e
              eq_refl eq_refl He') as (_ & _ & md & [Hp Hlt]).
  destruct (validityWindow_bound (time_Now this) md) as [Hd Hb].
  destruct Hp as (t & l & e0 & c & v & _ & _ & _ & _ & _ & Ha & _).
  apply AddSignatureHeader_inv in Ha as (_ & Hs).
  eexists. split; [exact Hs|]. cbn [newSigner Date Expires Certs PrivKey].
  apply Z.ltb_lt in Hlt. auto.
Qed.

Lemma signed_exchange_lifetime_witness :
  exists s,
    Signature linkExchange = Some s /\
    Date s = (1700000000 * Second - 24 * Hour)%Z /\
    (1700000000 * Second < Expires s)%Z /\
    (Expires s - Date s <= 7 * 24 * 3600 * Second)%Z.
Proof.
  destruct (signed_exchange_lifetime _ _ _ linkExchange_written)
    as (s & H1 & H2 & H3 & H4 & _).
  exists s. auto.
Defined.
